(** * Distribution workflow of the video dashboard

    A shallow embedding of the workflow core of the dashboard:
    the eligibility rules and approval guards of
    [src/components/VideoDetailModal.tsx], the distribution loop of
    [src/components/DistributionModal.tsx] and
    [src/components/DistributionView.tsx], the cancellation flow of
    [src/components/CalendarView.tsx], the status operations and the
    project statistics of [src/services/videoService.ts], and the delete
    adapter of [src/services/youtubeService.ts].

    React component state is a record, an event handler is a function
    from the state (and the document store) to the next state, the
    Firestore collections are finite maps from document ids to
    documents, and the remote platform calls thread an abstract [World]. *)

From Stdlib Require Import QArith Ascii String.
From Corelib Require Import PrimFloat.
From stdpp Require Import gmap strings list.
Close Scope Q_scope.
Open Scope string_scope.
Open Scope list_scope.

(** ** JavaScript values, as far as the source relies on them *)

Module Js.

(** A JavaScript number.  The finite ones are carried as exact rationals
    (every finite double is one); [NaN] and [+Infinity] are kept apart
    because [0/0] and [w/0] produce them.  Negative infinity never
    arises from the non-negative quantities handled here. *)
Inductive JsNumber : Type :=
| NaN
| PosInf
| Fin (q : Q).

(** [a / b] on two non-negative integers (the pixel sizes of a video
    element).  The quotient is exact; for sizes below 2^26 the rounded
    double compares with the constants 0.5, 0.85, 0.9 and 1.1 exactly
    as the exact quotient does, since a quotient that differs from one
    of these constants differs by more than 1/(20 * 2^26), far more
    than the spacing of doubles around them.  The agreement is also
    computed on hardware doubles, see [ratio_tests_agree_with_binary64]. *)
Definition js_div (a b : N) : JsNumber :=
  match b with
  | N0 => match a with N0 => NaN | Npos _ => PosInf end
  | Npos p => Fin (Z.of_N a # p)
  end.

(** The binary64 value of a non-negative integer, exact below 2^53;
    used to run the ratio tests on hardware doubles next to the exact
    model. *)
Fixpoint float_of_pos (p : positive) : float :=
  match p with
  | xH => 1%float
  | xO q => (2 * float_of_pos q)%float
  | xI q => (2 * float_of_pos q + 1)%float
  end.

Definition float_of_N (n : N) : float :=
  match n with
  | N0 => 0%float
  | Npos p => float_of_pos p
  end.

Definition Qlt_bool (x y : Q) : bool := negb (Qle_bool y x).

(** [x <= y], [x >= y] and [x < y]: every comparison with [NaN] is false. *)
Definition js_le (x y : JsNumber) : bool :=
  match x, y with
  | NaN, _ | _, NaN => false
  | _, PosInf => true
  | PosInf, Fin _ => false
  | Fin a, Fin b => Qle_bool a b
  end.

Definition js_ge (x y : JsNumber) : bool := js_le y x.

Definition js_lt (x y : JsNumber) : bool :=
  match x, y with
  | NaN, _ | _, NaN => false
  | PosInf, _ => false
  | Fin _, PosInf => true
  | Fin a, Fin b => Qlt_bool a b
  end.

(** Truthiness of a number: [0] and [NaN] are falsy. *)
Definition truthy_number (x : JsNumber) : bool :=
  match x with
  | NaN => false
  | PosInf => true
  | Fin q => negb (Qeq_bool q 0)
  end.

(** Truthiness of a string: only the empty string is falsy. *)
Definition truthy_string (s : string) : bool :=
  match s with
  | EmptyString => false
  | String _ _ => true
  end.

(** Truthiness of an optional string field ([undefined] and [null] are
    both [None]). *)
Definition truthy_opt (o : option string) : bool :=
  match o with
  | Some s => truthy_string s
  | None => false
  end.

(** [o || null] on an optional string. *)
Definition or_null (o : option string) : option string :=
  if truthy_opt o then o else None.

(** [o || d] on an optional string. *)
Definition or_default (o : option string) (d : string) : string :=
  match o with
  | Some s => if truthy_string s then s else d
  | None => d
  end.

(** *** Text

    A JavaScript string is a sequence of UTF-16 code units.  Text is
    held here as its UTF-8 encoding, which is what a string literal of
    this file denotes: [chars] cuts it into characters, [code_point]
    reads one of them, and [utf16] gives the code units of the
    JavaScript string.  On bytes that are not UTF-8 these functions
    still answer (a byte that starts no complete character is a
    character of its own, read as U+FFFD), but no JavaScript string
    corresponds to such bytes. *)

(** The number of bytes of the character that a leading byte announces. *)
Definition char_width (a : ascii) : nat :=
  let b := N_of_ascii a in
  if (b <? 0xC0)%N then 1
  else if (b <? 0xE0)%N then 2
  else if (b <? 0xF0)%N then 3
  else if (b <? 0xF8)%N then 4
  else 1.

(** A continuation byte, [10xxxxxx]. *)
Definition is_continuation (a : ascii) : bool :=
  ((0x80 <=? N_of_ascii a) && (N_of_ascii a <? 0xC0))%N.

Fixpoint chars (s : string) : list string :=
  match s with
  | EmptyString => []
  | String a r =>
      match char_width a, r with
      | 2%nat, String b r2 =>
          if is_continuation b
          then String a (String b EmptyString) :: chars r2
          else String a EmptyString :: chars r
      | 3%nat, String b (String c r3) =>
          if is_continuation b && is_continuation c
          then String a (String b (String c EmptyString)) :: chars r3
          else String a EmptyString :: chars r
      | 4%nat, String b (String c (String d r4)) =>
          if is_continuation b && is_continuation c && is_continuation d
          then String a (String b (String c (String d EmptyString))) :: chars r4
          else String a EmptyString :: chars r
      | _, _ => String a EmptyString :: chars r
      end
  end.

(** The six payload bits of a continuation byte. *)
Definition payload (a : ascii) : N := (N_of_ascii a mod 64)%N.

Definition code_point (c : string) : N :=
  match c with
  | String a EmptyString => if (N_of_ascii a <? 0x80)%N then N_of_ascii a else 0xFFFD%N
  | String a (String b EmptyString) => ((N_of_ascii a mod 32) * 64 + payload b)%N
  | String a (String b (String c EmptyString)) =>
      (((N_of_ascii a mod 16) * 64 + payload b) * 64 + payload c)%N
  | String a (String b (String c (String d EmptyString))) =>
      ((((N_of_ascii a mod 8) * 64 + payload b) * 64 + payload c) * 64 + payload d)%N
  | _ => 0xFFFD%N
  end.

(** One code unit for a code point of the basic plane, a surrogate pair
    for the others. *)
Definition code_units (cp : N) : list N :=
  if (cp <? 0x10000)%N then [cp]
  else [0xD800 + (cp - 0x10000) / 0x400; 0xDC00 + (cp - 0x10000) mod 0x400]%N.

Definition utf16 (s : string) : list N :=
  flat_map (λ c, code_units (code_point c)) (chars s).

(** The code points stripped by [String.prototype.trim]: the WhiteSpace
    and LineTerminator productions of ECMAScript, that is TAB, LF, VT,
    FF, CR, SPACE, NO-BREAK SPACE, the other space separators (U+1680,
    U+2000 to U+200A, U+202F, U+205F, U+3000), LINE and PARAGRAPH
    SEPARATOR, and the byte order mark U+FEFF. *)
Definition is_white_space (cp : N) : bool :=
  existsb (N.eqb cp)
    [0x9; 0xA; 0xB; 0xC; 0xD; 0x20; 0xA0; 0x1680; 0x2028; 0x2029; 0x202F; 0x205F;
     0x3000; 0xFEFF]%N
  || ((0x2000 <=? cp) && (cp <=? 0x200A))%N.

Definition white_space_char (c : string) : bool := is_white_space (code_point c).

(** [trimStart] and [trimEnd] on the characters of a text. *)
Fixpoint trimStart (cs : list string) : list string :=
  match cs with
  | [] => []
  | c :: r => if white_space_char c then trimStart r else cs
  end.

Fixpoint trimEnd (cs : list string) : list string :=
  match cs with
  | [] => []
  | c :: r =>
      match trimEnd r with
      | [] => if white_space_char c then [] else [c]
      | r' => c :: r'
      end
  end.

Definition trim (s : string) : string :=
  String.concat EmptyString (trimEnd (trimStart (chars s))).

(** [s.trim() !== ''] *)
Definition nonblank (s : string) : bool := truthy_string (trim s).

(** Every character of [s] is white space. *)
Definition all_white_space (s : string) : bool := forallb white_space_char (chars s).

(** [s.split(sep)] for a one-character separator. *)
Fixpoint split (sep : ascii) (s : string) : list string :=
  match s with
  | EmptyString => [EmptyString]
  | String a r =>
      if Ascii.eqb a sep then EmptyString :: split sep r
      else match split sep r with
           | [] => [String a EmptyString]
           | w :: ws => String a w :: ws
           end
  end.

End Js.

Import Js.

(** ** The data model of [src/types.ts] *)

Inductive Platform : Type := instagram | tiktok | kwai | youtube | linkedin.

Inductive PostType : Type := reel | story | feed | shorts | video.

Inductive VideoFormat : Type := horizontal | vertical | square.

Inductive VideoStatus : Type :=
| pending | ready | approved | processing | published
| dismissed | uploading | error | scheduled.

#[global] Instance Platform_eq_dec : EqDecision Platform.
Proof. solve_decision. Defined.

#[global] Instance PostType_eq_dec : EqDecision PostType.
Proof. solve_decision. Defined.

#[global] Instance VideoFormat_eq_dec : EqDecision VideoFormat.
Proof. solve_decision. Defined.

#[global] Instance VideoStatus_eq_dec : EqDecision VideoStatus.
Proof. solve_decision. Defined.

Record ProjectStats : Type := mkStats {
  total : nat;
  pendingReview : nat;
  approvedCount : nat;          (* field [approved] *)
  scheduledOrPublished : nat;
  discarded : nat
}.

Record Project : Type := mkProject {
  projectName : string;
  videoCount : nat;
  stats : option ProjectStats
}.

Record IntegrationConfig : Type := mkIntegrationConfig {
  accessToken : option string
}.

Record Integration : Type := mkIntegration {
  integrationId : string;
  integrationName : string;
  integrationPlatform : Platform;
  config : IntegrationConfig
}.

(** The [metadata] bag of a [DistributionConfig]; every field is
    optional, [None] standing for an absent or [null] field. *)
Record ConfigMetadata : Type := mkConfigMetadata {
  title : option string;
  caption : option string;
  location : option string;
  collaborators : option string;
  tags : option string;
  playlistId : option string;
  categoryId : option string;
  chapters : option string;
  privacyStatus : option string
}.

Record DistributionConfig : Type := mkConfig {
  platform : Platform;
  accountId : string;
  postType : PostType;
  externalId : option string;
  metadata : ConfigMetadata
}.

Record YouTubeMetadata : Type := mkYouTubeMetadata {
  ytTitle : string;
  ytDescription : string;
  ytTags : list string;
  ytCategoryId : string;
  ytPlaylistId : option string;
  ytPrivacyStatus : string
}.

Record SocialMetadata : Type := mkSocialMetadata {
  socialCaption : string
}.

Record VideoAsset : Type := mkVideo {
  videoId : string;
  projectId : option string;
  videoTitle : string;
  storagePath : string;
  format : VideoFormat;
  status : VideoStatus;
  scheduledDate : option string;
  distributionConfig : option (list DistributionConfig);
  platforms : option (list Platform);
  youtubeMetadata : option YouTubeMetadata;
  instagramMetadata : option SocialMetadata;
  tiktokMetadata : option SocialMetadata;
  transcription : option string
}.

#[global] Instance ConfigMetadata_eq_dec : EqDecision ConfigMetadata.
Proof. solve_decision. Defined.

#[global] Instance DistributionConfig_eq_dec : EqDecision DistributionConfig.
Proof. solve_decision. Defined.

(** Object spreads [{ ...c, field: value }] on the records above. *)
Definition with_postType (c : DistributionConfig) (t : PostType) : DistributionConfig :=
  {| platform := platform c; accountId := accountId c; postType := t;
     externalId := externalId c; metadata := metadata c |}.

Definition with_externalId (c : DistributionConfig) (e : option string) : DistributionConfig :=
  {| platform := platform c; accountId := accountId c; postType := postType c;
     externalId := e; metadata := metadata c |}.

Definition with_status (v : VideoAsset) (s : VideoStatus) : VideoAsset :=
  {| videoId := videoId v; projectId := projectId v; videoTitle := videoTitle v;
     storagePath := storagePath v; format := format v; status := s;
     scheduledDate := scheduledDate v; distributionConfig := distributionConfig v;
     platforms := platforms v; youtubeMetadata := youtubeMetadata v;
     instagramMetadata := instagramMetadata v; tiktokMetadata := tiktokMetadata v;
     transcription := transcription v |}.

Definition with_scheduledDate (v : VideoAsset) (d : option string) : VideoAsset :=
  {| videoId := videoId v; projectId := projectId v; videoTitle := videoTitle v;
     storagePath := storagePath v; format := format v; status := status v;
     scheduledDate := d; distributionConfig := distributionConfig v;
     platforms := platforms v; youtubeMetadata := youtubeMetadata v;
     instagramMetadata := instagramMetadata v; tiktokMetadata := tiktokMetadata v;
     transcription := transcription v |}.

Definition with_distributionConfig (v : VideoAsset) (cs : option (list DistributionConfig)) : VideoAsset :=
  {| videoId := videoId v; projectId := projectId v; videoTitle := videoTitle v;
     storagePath := storagePath v; format := format v; status := status v;
     scheduledDate := scheduledDate v; distributionConfig := cs;
     platforms := platforms v; youtubeMetadata := youtubeMetadata v;
     instagramMetadata := instagramMetadata v; tiktokMetadata := tiktokMetadata v;
     transcription := transcription v |}.

Definition with_platforms (v : VideoAsset) (ps : option (list Platform)) : VideoAsset :=
  {| videoId := videoId v; projectId := projectId v; videoTitle := videoTitle v;
     storagePath := storagePath v; format := format v; status := status v;
     scheduledDate := scheduledDate v; distributionConfig := distributionConfig v;
     platforms := ps; youtubeMetadata := youtubeMetadata v;
     instagramMetadata := instagramMetadata v; tiktokMetadata := tiktokMetadata v;
     transcription := transcription v |}.

(** ** The document store and [src/services/videoService.ts] *)

Module VideoService.

(** The two Firestore collections, keyed by document id. *)
Record Db : Type := mkDb {
  videos : gmap string VideoAsset;
  projects : gmap string Project
}.

(** [updateDoc(doc(db, VIDEOS_COLLECTION, videoId), fields)]: rewrites the
    named fields of an existing document; the promise rejects ([None])
    when the document does not exist. *)
Definition updateVideoDoc (db : Db) (vid : string) (f : VideoAsset → VideoAsset) : option Db :=
  v ← videos db !! vid;
  Some {| videos := <[vid := f v]> (videos db); projects := projects db |}.

Definition updateProjectDoc (db : Db) (pid : string) (f : Project → Project) : option Db :=
  p ← projects db !! pid;
  Some {| videos := videos db; projects := <[pid := f p]> (projects db) |}.

(** The body of the [videos.forEach] of [recalculateProjectStats]: one
    video moves exactly one counter. *)
Definition countVideo (st : ProjectStats) (v : VideoAsset) : ProjectStats :=
  if decide (status v = dismissed) then
    {| total := total st; pendingReview := pendingReview st;
       approvedCount := approvedCount st;
       scheduledOrPublished := scheduledOrPublished st;
       discarded := S (discarded st) |}
  else if decide (status v = published ∨ status v = scheduled) then
    {| total := total st; pendingReview := pendingReview st;
       approvedCount := approvedCount st;
       scheduledOrPublished := S (scheduledOrPublished st);
       discarded := discarded st |}
  else if decide (status v = approved) then
    {| total := total st; pendingReview := pendingReview st;
       approvedCount := S (approvedCount st);
       scheduledOrPublished := scheduledOrPublished st;
       discarded := discarded st |}
  else
    {| total := total st; pendingReview := S (pendingReview st);
       approvedCount := approvedCount st;
       scheduledOrPublished := scheduledOrPublished st;
       discarded := discarded st |}.

(** The [stats] object built by [recalculateProjectStats] from the
    videos of the project. *)
Definition computeStats (vs : list VideoAsset) : ProjectStats :=
  fold_left countVideo vs
    {| total := length vs; pendingReview := 0; approvedCount := 0;
       scheduledOrPublished := 0; discarded := 0 |}.

(** [query(collection(db, VIDEOS_COLLECTION), where("projectId", "==", projectId))] *)
Definition projectVideos (db : Db) (pid : string) : list VideoAsset :=
  filter (λ v, projectId v = Some pid) (snd <$> map_to_list (videos db)).

(** [recalculateProjectStats]: a failing project update is caught and
    logged, leaving the store as it was. *)
Definition recalculateProjectStats (db : Db) (pid : string) : Db :=
  let st := computeStats (projectVideos db pid) in
  match updateProjectDoc db pid
          (λ p, {| projectName := projectName p; videoCount := total st;
                   stats := Some st |}) with
  | Some db' => db'
  | None => db
  end.

(** The tail shared by the status actions:
    [if (snap.exists() && snap.data().projectId) await recalculateProjectStats(...)]. *)
Definition recalculateFor (db : Db) (vid : string) : Db :=
  match videos db !! vid with
  | Some v =>
      match projectId v with
      | Some pid => if truthy_string pid then recalculateProjectStats db pid else db
      | None => db
      end
  | None => db
  end.

Definition updateVideoPlatforms (db : Db) (vid : string) (ps : list Platform) : option Db :=
  updateVideoDoc db vid (λ v, with_platforms v (Some ps)).

Definition updateVideoDistributionConfig (db : Db) (vid : string)
    (cs : list DistributionConfig) : option Db :=
  updateVideoDoc db vid (λ v, with_distributionConfig v (Some cs)).

Definition approveVideo (db : Db) (vid : string) : option Db :=
  db1 ← updateVideoDoc db vid (λ v, with_status v approved);
  Some (recalculateFor db1 vid).

Definition dismissVideo (db : Db) (vid : string) : option Db :=
  db1 ← updateVideoDoc db vid (λ v, with_status v dismissed);
  Some (recalculateFor db1 vid).

Definition unapproveVideo (db : Db) (vid : string) : option Db :=
  db1 ← updateVideoDoc db vid (λ v, with_status v pending);
  Some (recalculateFor db1 vid).

(** [markVideoAsProcessing(videoId, configs, scheduledDate)]; [now] is
    the value of [new Date().toISOString()] at the call. *)
Definition markVideoAsProcessing (now : string) (db : Db) (vid : string)
    (configs : list DistributionConfig) (date : option string) : option Db :=
  let newStatus := if truthy_opt date then scheduled else published in
  let ps := platform <$> configs in
  let date' := if truthy_opt date then date else Some now in
  db1 ← updateVideoDoc db vid
          (λ v, with_scheduledDate
                  (with_distributionConfig
                     (with_platforms (with_status v newStatus) (Some ps))
                     (Some configs))
                  date');
  Some (recalculateFor db1 vid).

(** [const { externalId, ...rest } = c; return rest] *)
Definition stripExternalId (c : DistributionConfig) : DistributionConfig :=
  with_externalId c None.

(** [cancelVideoScheduling(videoId)] *)
Definition cancelVideoScheduling (db : Db) (vid : string) : option Db :=
  let snap := videos db !! vid in
  let cleaned :=
    match snap with
    | Some v => stripExternalId <$> default [] (distributionConfig v)
    | None => []
    end in
  db1 ← updateVideoDoc db vid
          (λ v, with_distributionConfig
                  (with_scheduledDate (with_status v approved) None)
                  (Some cleaned));
  Some (match snap with
        | Some v =>
            match projectId v with
            | Some pid => if truthy_string pid then recalculateProjectStats db1 pid else db1
            | None => db1
            end
        | None => db1
        end).

End VideoService.

Import VideoService.

(** ** [src/components/VideoDetailModal.tsx] *)

Module VideoDetailModal.

Record Dimensions : Type := mkDimensions { width : N; height : N }.

(** [platformSettings : Record<Platform, { postType }>] *)
Record PlatformSettings : Type := mkSettings {
  youtubeType : PostType;
  instagramType : PostType;
  tiktokType : PostType;
  kwaiType : PostType;
  linkedinType : PostType
}.

(** [platformSettings[p].postType] *)
Definition settingsPostType (s : PlatformSettings) (p : Platform) : PostType :=
  match p with
  | youtube => youtubeType s
  | instagram => instagramType s
  | tiktok => tiktokType s
  | kwai => kwaiType s
  | linkedin => linkedinType s
  end.

(** [{ ...prev, [p]: { ...prev[p], postType: t } }] *)
Definition setSettingsPostType (s : PlatformSettings) (p : Platform) (t : PostType)
    : PlatformSettings :=
  {| youtubeType := if decide (p = youtube) then t else youtubeType s;
     instagramType := if decide (p = instagram) then t else instagramType s;
     tiktokType := if decide (p = tiktok) then t else tiktokType s;
     kwaiType := if decide (p = kwai) then t else kwaiType s;
     linkedinType := if decide (p = linkedin) then t else linkedinType s |}.

(** The [useState] cells of the component that the workflow reads or writes. *)
Record State : Type := mkState {
  subTab : Platform;
  localVideo : VideoAsset;
  selectedPlatforms : list Platform;
  videoDimensions : option Dimensions;
  videoDuration : option JsNumber;
  showApproveModal : bool;
  distributionConfigs : list DistributionConfig;
  ytData : YouTubeMetadata;
  igData : SocialMetadata;
  ttData : SocialMetadata;
  platformSettings : PlatformSettings
}.

Definition setLocalVideo (st : State) (v : VideoAsset) : State :=
  {| subTab := subTab st; localVideo := v;
     selectedPlatforms := selectedPlatforms st;
     videoDimensions := videoDimensions st; videoDuration := videoDuration st;
     showApproveModal := showApproveModal st;
     distributionConfigs := distributionConfigs st;
     ytData := ytData st; igData := igData st; ttData := ttData st;
     platformSettings := platformSettings st |}.

Definition setSelectedPlatforms (st : State) (ps : list Platform) : State :=
  {| subTab := subTab st; localVideo := localVideo st;
     selectedPlatforms := ps;
     videoDimensions := videoDimensions st; videoDuration := videoDuration st;
     showApproveModal := showApproveModal st;
     distributionConfigs := distributionConfigs st;
     ytData := ytData st; igData := igData st; ttData := ttData st;
     platformSettings := platformSettings st |}.

(** [setVideoDimensions(d); setVideoDuration(t)], always issued together. *)
Definition setVideoMedia (st : State) (d : Dimensions) (t : JsNumber) : State :=
  {| subTab := subTab st; localVideo := localVideo st;
     selectedPlatforms := selectedPlatforms st;
     videoDimensions := Some d; videoDuration := Some t;
     showApproveModal := showApproveModal st;
     distributionConfigs := distributionConfigs st;
     ytData := ytData st; igData := igData st; ttData := ttData st;
     platformSettings := platformSettings st |}.

Definition setShowApproveModal (st : State) (b : bool) : State :=
  {| subTab := subTab st; localVideo := localVideo st;
     selectedPlatforms := selectedPlatforms st;
     videoDimensions := videoDimensions st; videoDuration := videoDuration st;
     showApproveModal := b;
     distributionConfigs := distributionConfigs st;
     ytData := ytData st; igData := igData st; ttData := ttData st;
     platformSettings := platformSettings st |}.

Definition setDistributionConfigs (st : State) (cs : list DistributionConfig) : State :=
  {| subTab := subTab st; localVideo := localVideo st;
     selectedPlatforms := selectedPlatforms st;
     videoDimensions := videoDimensions st; videoDuration := videoDuration st;
     showApproveModal := showApproveModal st;
     distributionConfigs := cs;
     ytData := ytData st; igData := igData st; ttData := ttData st;
     platformSettings := platformSettings st |}.

Definition setPlatformSettings (st : State) (s : PlatformSettings) : State :=
  {| subTab := subTab st; localVideo := localVideo st;
     selectedPlatforms := selectedPlatforms st;
     videoDimensions := videoDimensions st; videoDuration := videoDuration st;
     showApproveModal := showApproveModal st;
     distributionConfigs := distributionConfigs st;
     ytData := ytData st; igData := igData st; ttData := ttData st;
     platformSettings := s |}.

Definition defaultYt : YouTubeMetadata :=
  {| ytTitle := ""; ytDescription := ""; ytTags := []; ytCategoryId := "22";
     ytPlaylistId := None; ytPrivacyStatus := "public" |}.

Definition defaultSocial : SocialMetadata := {| socialCaption := "" |}.

(** The state of the modal once it is open on [v]: the [useState]
    initialisers, the sync effect on [video], which loads the stored
    distribution config, and the effect on [isOpen], which moves to
    the tab of the first stored platform when the video has a
    transcription. *)
Definition initialState (v : VideoAsset) : State :=
  {| subTab :=
       if truthy_opt (transcription v) && nonblank (default "" (transcription v))
       then match platforms v with
            | Some (p :: _) => p
            | _ => youtube
            end
       else youtube;
     localVideo := v;
     selectedPlatforms := default [] (platforms v);
     videoDimensions := None; videoDuration := None;
     showApproveModal := false;
     distributionConfigs := default [] (distributionConfig v);
     ytData := default defaultYt (youtubeMetadata v);
     igData := default defaultSocial (instagramMetadata v);
     ttData := default defaultSocial (tiktokMetadata v);
     platformSettings :=
       fold_left (λ s c, setSettingsPostType s (platform c) (postType c))
         (default [] (distributionConfig v))
         {| youtubeType := if decide (format v = vertical) then shorts else video;
            instagramType := reel; tiktokType := reel;
            kwaiType := video; linkedinType := video |} |}.

(** *** Config management helpers *)

Definition getPlatformConfigs (st : State) (p : Platform) : list DistributionConfig :=
  filter (λ c, platform c = p) (distributionConfigs st).

Definition isAccountSelected (st : State) (p : Platform) (acc : string) : bool :=
  existsb (λ c, bool_decide (platform c = p ∧ accountId c = acc)) (distributionConfigs st).

Definition saveDistributionConfigs (db : Db) (st : State)
    (configs : list DistributionConfig) : Db * State :=
  let st1 := setDistributionConfigs st configs in
  match updateVideoDistributionConfig db (videoId (localVideo st)) configs with
  | Some db' =>
      (db', setLocalVideo st1 (with_distributionConfig (localVideo st) (Some configs)))
  | None => (db, st1)
  end.

(** The metadata a new entry is seeded with. *)
Definition seedMetadata (st : State) (p : Platform) : ConfigMetadata :=
  if decide (p = youtube) then
    {| title := Some (ytTitle (ytData st));
       caption := Some (ytDescription (ytData st));
       location := None; collaborators := None;
       tags := Some (String.concat ", " (ytTags (ytData st)));
       playlistId := or_null (ytPlaylistId (ytData st));
       categoryId := Some (ytCategoryId (ytData st));
       chapters := None; privacyStatus := None |}
  else
    {| title := None;
       caption := Some (if decide (p = instagram) then socialCaption (igData st)
                        else socialCaption (ttData st));
       location := None; collaborators := None; tags := None;
       playlistId := None; categoryId := None;
       chapters := None; privacyStatus := None |}.

Definition newConfig (st : State) (p : Platform) (acc : string) : DistributionConfig :=
  {| platform := p; accountId := acc;
     postType := settingsPostType (platformSettings st) p;
     externalId := None;
     metadata := seedMetadata st p |}.

(** The list handed to [saveDistributionConfigs] by [toggleAccountSelection]. *)
Definition toggledConfigs (st : State) (p : Platform) (acc : string)
    : list DistributionConfig :=
  if isAccountSelected st p acc then
    filter (λ c, ¬ (platform c = p ∧ accountId c = acc)) (distributionConfigs st)
  else
    distributionConfigs st ++ [newConfig st p acc].

Definition toggleAccountSelection (db : Db) (st : State) (p : Platform) (acc : string)
    : Db * State :=
  saveDistributionConfigs db st (toggledConfigs st p acc).

Definition updatePostTypeForPlatform (db : Db) (st : State) (p : Platform)
    (newType : PostType) : Db * State :=
  let st1 := setPlatformSettings st (setSettingsPostType (platformSettings st) p newType) in
  let newConfigs :=
    (λ c, if decide (platform c = p) then with_postType c newType else c)
      <$> distributionConfigs st in
  saveDistributionConfigs db st1 newConfigs.

(** *** Validation logic *)

Definition ratio (d : Dimensions) : JsNumber := js_div (width d) (height d).

Definition isInstagramRatioValid (st : State) : bool :=
  match videoDimensions st with
  | None => true
  | Some d => js_ge (ratio d) (Fin (1 # 2)) && js_le (ratio d) (Fin (17 # 20))
  end.

Definition isInstagramDurationValid (st : State) : bool :=
  match videoDuration st with
  | None => true
  | Some t =>
      if negb (truthy_number t) then true
      else js_ge t (Fin 3) && js_le t (Fin 3600)
  end.

Definition isInstagramValid (st : State) : bool :=
  isInstagramRatioValid st && isInstagramDurationValid st.

(** The two ratio tests as the browser evaluates them, on doubles. *)
#[local] Set Warnings "-inexact-float".

Definition ratio64 (d : Dimensions) : float :=
  (float_of_N (width d) / float_of_N (height d))%float.

Definition instagramRatio64 (d : Dimensions) : bool :=
  PrimFloat.leb 0.50%float (ratio64 d) && PrimFloat.leb (ratio64 d) 0.85%float.

Definition squareOrVertical64 (d : Dimensions) : bool :=
  (PrimFloat.leb 0.9%float (ratio64 d) && PrimFloat.leb (ratio64 d) 1.1%float)
  || PrimFloat.ltb (ratio64 d) 0.9%float.

#[local] Set Warnings "+inexact-float".

(** *** YouTube rules *)

Definition getYouTubeRuleType (st : State) : option PostType :=
  match videoDimensions st, videoDuration st with
  | Some d, Some t =>
      if negb (truthy_number t) then None
      else
        let isSquare := js_ge (ratio d) (Fin (9 # 10)) && js_le (ratio d) (Fin (11 # 10)) in
        let isVertical := js_lt (ratio d) (Fin (9 # 10)) in
        let isShortDuration := js_lt t (Fin 60) in
        if (isSquare || isVertical) && isShortDuration then Some shorts
        else Some video
  | _, _ => None
  end.

(** The effect on [[videoDimensions, videoDuration]]. *)
Definition enforceYouTubeRules (db : Db) (st : State) : Db * State :=
  match getYouTubeRuleType st with
  | Some ruleType =>
      if decide (settingsPostType (platformSettings st) youtube ≠ ruleType)
      then updatePostTypeForPlatform db st youtube ruleType
      else (db, st)
  | None => (db, st)
  end.

(** [onLoadedMetadata] of the preview element, followed by the effect
    its two state updates trigger. *)
Definition onLoadedMetadata (db : Db) (st : State) (videoWidth videoHeight : N)
    (duration : JsNumber) : Db * State :=
  enforceYouTubeRules db
    (setVideoMedia st {| width := videoWidth; height := videoHeight |} duration).

(** *** Validation for approval *)

Definition includes (ps : list Platform) (p : Platform) : bool := bool_decide (p ∈ ps).

Definition isYouTubeReady (st : State) : bool :=
  negb (includes (selectedPlatforms st) youtube)
  || (nonblank (ytTitle (ytData st)) && nonblank (ytDescription (ytData st))).

Definition isInstagramReady (st : State) : bool :=
  negb (includes (selectedPlatforms st) instagram)
  || nonblank (socialCaption (igData st)).

Definition isTikTokReady (st : State) : bool :=
  negb (includes (selectedPlatforms st) tiktok)
  || nonblank (socialCaption (ttData st)).

Definition hasAccountForYoutube (st : State) : bool :=
  negb (includes (selectedPlatforms st) youtube)
  || (0 <? length (getPlatformConfigs st youtube))%nat.

Definition hasAccountForInstagram (st : State) : bool :=
  negb (includes (selectedPlatforms st) instagram)
  || (0 <? length (getPlatformConfigs st instagram))%nat.

Definition hasAccountForTikTok (st : State) : bool :=
  negb (includes (selectedPlatforms st) tiktok)
  || (0 <? length (getPlatformConfigs st tiktok))%nat.

Definition isAllReady (st : State) : bool :=
  (0 <? length (selectedPlatforms st))%nat
  && isYouTubeReady st && isInstagramReady st && isTikTokReady st
  && hasAccountForYoutube st && hasAccountForInstagram st && hasAccountForTikTok st.

(** *** Actions *)

Definition togglePlatformActive (db : Db) (st : State) (p : Platform) (isActive : bool)
    : Db * State :=
  let newPlatforms :=
    if isActive then
      if includes (selectedPlatforms st) p then selectedPlatforms st
      else selectedPlatforms st ++ [p]
    else filter (λ q, q ≠ p) (selectedPlatforms st) in
  match updateVideoPlatforms db (videoId (localVideo st)) newPlatforms with
  | Some db' =>
      (db', setLocalVideo (setSelectedPlatforms st newPlatforms)
              (with_platforms (localVideo st) (Some newPlatforms)))
  | None => (db, setSelectedPlatforms st (selectedPlatforms st))
  end.

(** The [onClick] of the toggle in the Instagram/TikTok form, shown for
    the platform of the active sub-tab. *)
Definition socialToggleClick (db : Db) (st : State) : Db * State :=
  if bool_decide (subTab st = instagram) && negb (isInstagramValid st) then (db, st)
  else togglePlatformActive db st (subTab st)
         (negb (includes (selectedPlatforms st) (subTab st))).

Definition handleApproveClick (st : State) : State :=
  if isAllReady st then setShowApproveModal st true else st.

(** [confirmApprove]: a rejected store call is caught and logged. *)
Definition confirmApprove (db : Db) (st : State) : Db * State :=
  match updateVideoDistributionConfig db (videoId (localVideo st)) (distributionConfigs st) with
  | Some db1 =>
      match approveVideo db1 (videoId (localVideo st)) with
      | Some db2 =>
          (db2, setShowApproveModal
                  (setLocalVideo st
                     (with_distributionConfig (with_status (localVideo st) approved)
                        (Some (distributionConfigs st))))
                  false)
      | None => (db1, setShowApproveModal st false)
      end
  | None => (db, setShowApproveModal st false)
  end.

End VideoDetailModal.

Import VideoDetailModal.

(** ** Remote calls *)

(** An error thrown by a remote call. *)
Inductive JsError : Type :=
| ErrorMessage (msg : string)
| DeleteFailed (httpStatus : Z) (body : string).

(** How an awaited call ends. *)
Inductive Outcome (A : Type) : Type :=
| Threw (e : JsError)
| Returned (a : A).

Arguments Threw {A} e.
Arguments Returned {A} a.

(** What the handler of [DistributionModal] reports. *)
Inductive ConfirmResult : Type :=
| NothingToSend
| UploadFailed (e : JsError)
| Distributed.

Module CalendarState.

(** The [useState] cells of [CalendarView] used by the cancellation. *)
Record State : Type := mkState {
  previewVideo : option VideoAsset;
  showCancelModal : bool
}.

End CalendarState.

Section Remote.

(** The world outside the browser tab: the platform and what it holds. *)
Variable World : Type.

(** [uploadVideoToYouTube(accessToken, storagePath, metadata, scheduledDate)]:
    resolves to the id of the remote video, or throws. *)
Variable uploadVideoToYouTube :
  World → string → string → YouTubeMetadata → option string → World * Outcome string.

(** [addVideoToPlaylist(accessToken, playlistId, videoId)] *)
Variable addVideoToPlaylist : World → string → string → string → World * Outcome unit.

(** The [fetch] of [deleteVideoFromYouTube], with [method: 'DELETE']:
    resolves to the HTTP status and body, or rejects. *)
Variable fetchDelete : World → string → string → World * Outcome (Z * string).

(** [getIntegrations()] *)
Variable getIntegrations : World → World * Outcome (list Integration).

(** *** [src/services/youtubeService.ts] *)

Definition responseOk (httpStatus : Z) : bool :=
  ((200 <=? httpStatus) && (httpStatus <=? 299))%Z.

Definition deleteVideoFromYouTube (w : World) (token videoId : string)
    : World * Outcome unit :=
  match fetchDelete w token videoId with
  | (w', Threw e) => (w', Threw e)
  | (w', Returned (httpStatus, body)) =>
      if (httpStatus =? 404)%Z then (w', Returned ())
      else if negb (responseOk httpStatus) then (w', Threw (DeleteFailed httpStatus body))
      else (w', Returned ())
  end.

(** *** [src/components/DistributionModal.tsx] *)

(** [initialConfigs[c.platform].push(c)], keys kept in insertion order. *)
Fixpoint pushConfig (m : list (Platform * list DistributionConfig))
    (c : DistributionConfig) : list (Platform * list DistributionConfig) :=
  match m with
  | [] => [(platform c, [c])]
  | (p, cs) :: rest =>
      if decide (p = platform c) then (p, cs ++ [c]) :: rest
      else (p, cs) :: pushConfig rest c
  end.

(** The [configs] state built by [loadIntegrations]. *)
Definition initialConfigs (v : VideoAsset) : list (Platform * list DistributionConfig) :=
  fold_left pushConfig (default [] (distributionConfig v)) [].

(** [Object.values(configs).flat()] *)
Definition activeConfigs (configs : list (Platform * list DistributionConfig))
    : list DistributionConfig :=
  concat (snd <$> configs).

Definition findIntegration (integrations : list Integration) (acc : string)
    : option Integration :=
  find (λ i, bool_decide (integrationId i = acc)) integrations.

(** The token of the integration an entry points to, when both exist. *)
Definition tokenFor (integrations : list Integration) (c : DistributionConfig)
    : option string :=
  match findIntegration integrations (accountId c) with
  | Some i => if truthy_opt (accessToken (config i)) then accessToken (config i) else None
  | None => None
  end.

(** The metadata object prepared for one upload. *)
Definition uploadMetadata (v : VideoAsset) (c : DistributionConfig) : YouTubeMetadata :=
  {| ytTitle := or_default (title (metadata c)) (videoTitle v);
     ytDescription := or_default (caption (metadata c)) "";
     ytTags := match tags (metadata c) with
               | Some t => if truthy_string t then trim <$> split "," t else []
               | None => []
               end;
     ytCategoryId := or_default (categoryId (metadata c)) "22";
     ytPlaylistId := None;
     ytPrivacyStatus := "public" |}.

(** The [for (const config of ytConfigs)] loop.  [ytConfigs] is a filter
    of [activeConfigs] and holds the same objects, so the assignment
    [config.externalId = response.id] is seen through [activeConfigs]:
    the loop is run over [activeConfigs], passing over the entries of
    other platforms, and returns the entries as they are in memory when
    it ends, with the error that ended it if there is one. *)
Fixpoint uploadLoop (integrations : list Integration) (v : VideoAsset)
    (finalDate : option string) (w : World) (cs : list DistributionConfig)
    : World * list DistributionConfig * option JsError :=
  match cs with
  | [] => (w, [], None)
  | c :: rest =>
      if decide (platform c = youtube) then
        match tokenFor integrations c with
        | None =>
            let '(w', rest', r) := uploadLoop integrations v finalDate w rest in
            (w', c :: rest', r)
        | Some token =>
            match uploadVideoToYouTube w token (storagePath v) (uploadMetadata v c) finalDate with
            | (w1, Threw e) => (w1, c :: rest, Some e)
            | (w1, Returned rid) =>
                let c' := with_externalId c (Some rid) in
                let w2 :=
                  match playlistId (metadata c) with
                  | Some pl =>
                      if truthy_string pl then fst (addVideoToPlaylist w1 token pl rid)
                      else w1
                  | None => w1
                  end in
                let '(w', rest', r) := uploadLoop integrations v finalDate w2 rest in
                (w', c' :: rest', r)
            end
        end
      else
        let '(w', rest', r) := uploadLoop integrations v finalDate w rest in
        (w', c :: rest', r)
  end.

(** How an entry looks once the loop has passed over it without an
    error: untouched when it is not a YouTube entry or has no usable
    token, and otherwise carrying the id some upload call returned. *)
Definition entryAfter (integrations : list Integration) (v : VideoAsset)
    (finalDate : option string) (c c' : DistributionConfig) : Prop :=
  (c' = c ∧ (platform c ≠ youtube ∨ tokenFor integrations c = None))
  ∨ (platform c = youtube
     ∧ ∃ token w0 w1 rid,
         tokenFor integrations c = Some token
         ∧ uploadVideoToYouTube w0 token (storagePath v) (uploadMetadata v c) finalDate
           = (w1, Returned rid)
         ∧ c' = with_externalId c (Some rid)).

(** *** [src/components/DistributionView.tsx] *)

(** [handleDistribute]: a rejected store call is caught and logged. *)
Definition handleDistribute (now : string) (db : Db) (vid : string)
    (cs : list DistributionConfig) (date : option string) : Db :=
  default db (markVideoAsProcessing now db vid cs date).

(** [handleConfirm] of the modal, with [onDistribute] bound to
    [handleDistribute]: the world and the store afterwards, the config
    entries as they are in memory, and what was reported. *)
Definition handleConfirm (now : string) (integrations : list Integration)
    (v : VideoAsset) (configs : list (Platform * list DistributionConfig))
    (finalDate : option string) (w : World) (db : Db)
    : World * Db * list DistributionConfig * ConfirmResult :=
  let active := activeConfigs configs in
  if (length active =? 0)%nat then (w, db, active, NothingToSend)
  else
    match uploadLoop integrations v finalDate w active with
    | (w', active', Some e) => (w', db, active', UploadFailed e)
    | (w', active', None) =>
        (w', handleDistribute now db (videoId v) active' finalDate, active', Distributed)
    end.

(** *** [src/components/CalendarView.tsx] *)

Definition handleCancelClick (st : CalendarState.State) : CalendarState.State :=
  match CalendarState.previewVideo st with
  | Some v =>
      if decide (status v = scheduled)
      then {| CalendarState.previewVideo := CalendarState.previewVideo st;
              CalendarState.showCancelModal := true |}
      else st
  | None => st
  end.

(** Step 1 of [onConfirmCancel]: the remote deletion. *)
Definition deleteRemote (w : World) (pv : VideoAsset) : World * Outcome unit :=
  match distributionConfig pv with
  | Some cs =>
      match find (λ c, bool_decide (platform c = youtube) && truthy_opt (externalId c)) cs with
      | Some ytConfig =>
          match getIntegrations w with
          | (w1, Threw e) => (w1, Threw e)
          | (w1, Returned integrations) =>
              match tokenFor integrations ytConfig with
              | Some token =>
                  deleteVideoFromYouTube w1 token (default "" (externalId ytConfig))
              | None => (w1, Returned ())
              end
          end
      | None => (w, Returned ())
      end
  | None => (w, Returned ())
  end.

(** [onConfirmCancel]: the last component tells whether the [catch]
    branch ran, and with which error. *)
Definition onConfirmCancel (w : World) (db : Db) (st : CalendarState.State)
    : World * Db * CalendarState.State * Outcome unit :=
  match CalendarState.previewVideo st with
  | None => (w, db, st, Returned ())
  | Some pv =>
      match deleteRemote w pv with
      | (w1, Threw e) =>
          (w1, db,
           {| CalendarState.previewVideo := Some pv;
              CalendarState.showCancelModal := false |},
           Threw e)
      | (w1, Returned _) =>
          match cancelVideoScheduling db (videoId pv) with
          | Some db' =>
              (w1, db',
               {| CalendarState.previewVideo := None;
                  CalendarState.showCancelModal := false |},
               Returned ())
          | None =>
              (w1, db,
               {| CalendarState.previewVideo := Some pv;
                  CalendarState.showCancelModal := false |},
               Threw (ErrorMessage "No document to update"))
          end
      end
  end.

(** The cancellation as the user reaches it: the button opens the
    confirmation, and confirming runs [onConfirmCancel]. *)
Definition cancelSchedule (w : World) (db : Db) (st : CalendarState.State)
    : World * Db * CalendarState.State * Outcome unit :=
  let st1 := handleCancelClick st in
  if CalendarState.showCancelModal st1 then onConfirmCancel w db st1
  else (w, db, st1, Returned ()).

End Remote.

Arguments deleteVideoFromYouTube {World}.
Arguments uploadLoop {World}.
Arguments entryAfter {World}.
Arguments handleConfirm {World}.
Arguments deleteRemote {World}.
Arguments onConfirmCancel {World}.
Arguments cancelSchedule {World}.

(** * Sample data

    Concrete videos, states and remote behaviours on which the
    statements below are exercised. *)

Module Samples.

Definition sampleVideo : VideoAsset :=
  {| videoId := "v1"; projectId := Some "p1"; videoTitle := "Launch clip";
     storagePath := "users/u1/videos/v1.mp4"; format := vertical;
     status := pending; scheduledDate := None;
     distributionConfig := None; platforms := None;
     youtubeMetadata := None; instagramMetadata := None; tiktokMetadata := None;
     transcription := None |}.

Definition sampleProject : Project :=
  {| projectName := "Spring campaign"; videoCount := 0; stats := None |}.

Definition sampleDb : Db :=
  {| videos := {[ "v1" := sampleVideo ]}; projects := {[ "p1" := sampleProject ]} |}.

Definition noMetadata : ConfigMetadata :=
  {| title := None; caption := None; location := None; collaborators := None;
     tags := None; playlistId := None; categoryId := None; chapters := None;
     privacyStatus := None |}.

Definition ytEntry (acc : string) : DistributionConfig :=
  {| platform := youtube; accountId := acc; postType := shorts;
     externalId := None; metadata := noMetadata |}.

Definition igEntry (acc : string) : DistributionConfig :=
  {| platform := instagram; accountId := acc; postType := reel;
     externalId := None; metadata := noMetadata |}.

(** The modal opened on a video, holding the given platforms and
    config entries. *)
Definition stateOf (v : VideoAsset) (ps : list Platform) (cs : list DistributionConfig)
    : VideoDetailModal.State :=
  setDistributionConfigs (setSelectedPlatforms (initialState v) ps) cs.

Definition stateWith (ps : list Platform) (cs : list DistributionConfig)
    : VideoDetailModal.State :=
  stateOf sampleVideo ps cs.

(** The sample video with an Instagram caption made of one space. *)
Definition blankCaptionVideo : VideoAsset :=
  {| videoId := "v1"; projectId := Some "p1"; videoTitle := "Launch clip";
     storagePath := "users/u1/videos/v1.mp4"; format := vertical;
     status := pending; scheduledDate := None;
     distributionConfig := None; platforms := None;
     youtubeMetadata := None;
     instagramMetadata := Some {| socialCaption := " " |};
     tiktokMetadata := None;
     transcription := None |}.

(** NO-BREAK SPACE (U+00A0) in UTF-8. *)
Definition nbsp : string := String "194" (String "160" EmptyString).

(** The sample video with an Instagram caption made of one no-break space. *)
Definition nbspCaptionVideo : VideoAsset :=
  {| videoId := "v1"; projectId := Some "p1"; videoTitle := "Launch clip";
     storagePath := "users/u1/videos/v1.mp4"; format := vertical;
     status := pending; scheduledDate := None;
     distributionConfig := None; platforms := None;
     youtubeMetadata := None;
     instagramMetadata := Some {| socialCaption := nbsp |};
     tiktokMetadata := None;
     transcription := None |}.

(** The sample video once approved, with one YouTube entry, and its store. *)
Definition approvedVideo : VideoAsset :=
  with_distributionConfig (with_status sampleVideo approved) (Some [ytEntry "acc1"]).

Definition approvedDb : Db :=
  {| videos := {[ "v1" := approvedVideo ]}; projects := {[ "p1" := sampleProject ]} |}.

Definition sampleNow : string := "2026-03-01T12:00:00.000Z".

(** A portrait clip of 1080 x 1920 pixels. *)
Definition portrait : Dimensions := {| width := 1080; height := 1920 |}.

(** Two connected YouTube accounts. *)
Definition sampleIntegrations : list Integration :=
  [ {| integrationId := "acc1"; integrationName := "Main channel";
       integrationPlatform := youtube;
       config := {| accessToken := Some "token-a" |} |};
    {| integrationId := "acc2"; integrationName := "Second channel";
       integrationPlatform := youtube;
       config := {| accessToken := Some "token-b" |} |} ].

(** A remote world that records the calls it receives.  Uploads with
    the first account's token succeed, all others fail; playlist calls
    succeed; a delete answers with a fixed HTTP status. *)
Definition sampleUpload (w : list string) (token path : string) (m : YouTubeMetadata)
    (date : option string) : list string * Outcome string :=
  if decide (token = "token-a")
  then (w ++ ["upload " +:+ token], Returned "yt-111")
  else (w ++ ["upload " +:+ token], Threw (ErrorMessage "quotaExceeded")).

Definition samplePlaylist (w : list string) (token pl rid : string)
    : list string * Outcome unit :=
  (w ++ ["playlist " +:+ pl], Returned ()).

Definition sampleFetchDelete (code : Z) (w : list string) (token rid : string)
    : list string * Outcome (Z * string) :=
  (w ++ ["delete " +:+ rid], Returned (code, "")).

Definition sampleGetIntegrations (w : list string) : list string * Outcome (list Integration) :=
  (w, Returned sampleIntegrations).

(** The approved sample video with one entry per account. *)
Definition twoAccountVideo : VideoAsset :=
  with_distributionConfig (with_status sampleVideo approved)
    (Some [ytEntry "acc1"; ytEntry "acc2"]).

Definition twoAccountDb : Db :=
  {| videos := {[ "v1" := twoAccountVideo ]}; projects := {[ "p1" := sampleProject ]} |}.

(** The sample video scheduled on the first account. *)
Definition scheduledVideo : VideoAsset :=
  with_scheduledDate
    (with_distributionConfig (with_status sampleVideo scheduled)
       (Some [with_externalId (ytEntry "acc1") (Some "yt-111")]))
    (Some "2026-04-01T09:00:00.000Z").

Definition scheduledDb : Db :=
  {| videos := {[ "v1" := scheduledVideo ]}; projects := {[ "p1" := sampleProject ]} |}.

Definition previewing (v : VideoAsset) : CalendarState.State :=
  {| CalendarState.previewVideo := Some v; CalendarState.showCancelModal := false |}.

(** The sample video with a caption for Instagram. *)
Definition captionedVideo : VideoAsset :=
  {| videoId := "v1"; projectId := Some "p1"; videoTitle := "Launch clip";
     storagePath := "users/u1/videos/v1.mp4"; format := vertical;
     status := pending; scheduledDate := None;
     distributionConfig := None; platforms := None;
     youtubeMetadata := None;
     instagramMetadata := Some {| socialCaption := "Out now" |};
     tiktokMetadata := None;
     transcription := None |}.

End Samples.

Import Samples.

(** * Further operations of the same files *)

(** ** The rest of [src/services/videoService.ts] *)

Module VideoServiceRest.

Definition with_youtubeMetadata (v : VideoAsset) (m : option YouTubeMetadata) : VideoAsset :=
  {| videoId := videoId v; projectId := projectId v; videoTitle := videoTitle v;
     storagePath := storagePath v; format := format v; status := status v;
     scheduledDate := scheduledDate v; distributionConfig := distributionConfig v;
     platforms := platforms v; youtubeMetadata := m;
     instagramMetadata := instagramMetadata v; tiktokMetadata := tiktokMetadata v;
     transcription := transcription v |}.

Definition with_instagramMetadata (v : VideoAsset) (m : option SocialMetadata) : VideoAsset :=
  {| videoId := videoId v; projectId := projectId v; videoTitle := videoTitle v;
     storagePath := storagePath v; format := format v; status := status v;
     scheduledDate := scheduledDate v; distributionConfig := distributionConfig v;
     platforms := platforms v; youtubeMetadata := youtubeMetadata v;
     instagramMetadata := m; tiktokMetadata := tiktokMetadata v;
     transcription := transcription v |}.

Definition with_tiktokMetadata (v : VideoAsset) (m : option SocialMetadata) : VideoAsset :=
  {| videoId := videoId v; projectId := projectId v; videoTitle := videoTitle v;
     storagePath := storagePath v; format := format v; status := status v;
     scheduledDate := scheduledDate v; distributionConfig := distributionConfig v;
     platforms := platforms v; youtubeMetadata := youtubeMetadata v;
     instagramMetadata := instagramMetadata v; tiktokMetadata := m;
     transcription := transcription v |}.

(** The client-side filter of [subscribeToAllScheduledVideos], applied
    to the documents the query on the user returned. *)
Definition subscribeToAllScheduledVideos (docs : list VideoAsset) : list VideoAsset :=
  filter (λ v, truthy_opt (scheduledDate v) = true
               ∨ status v = scheduled ∨ status v = published) docs.

(** [updateVideoMetadata(videoId, { youtube, instagram, tiktok })]: only
    the containers that are given are written. *)
Definition updateVideoMetadata (db : Db) (vid : string)
    (yt : option YouTubeMetadata) (ig tt : option SocialMetadata) : option Db :=
  updateVideoDoc db vid
    (λ v,
       let v1 := match yt with Some m => with_youtubeMetadata v (Some m) | None => v end in
       let v2 := match ig with Some m => with_instagramMetadata v1 (Some m) | None => v1 end in
       match tt with Some m => with_tiktokMetadata v2 (Some m) | None => v2 end).

Section Storage.

Variable World : Type.

(** [firebaseStorage.deleteObject(ref(storage, path))] *)
Variable deleteObject : World → string → World * Outcome unit.

(** [deleteVideo(videoId, storagePath)]: an error of the file deletion
    is caught inside, whatever its code; deleting a document that does
    not exist succeeds. *)
Definition deleteVideo (w : World) (db : Db) (vid : string) (path : option string)
    : World * Db :=
  let pid :=
    match videos db !! vid with
    | Some v => default "" (projectId v)
    | None => ""
    end in
  let w' := if truthy_opt path then (deleteObject w (default "" path)).1 else w in
  let db1 := {| videos := delete vid (videos db); projects := projects db |} in
  (w', if truthy_string pid then recalculateProjectStats db1 pid else db1).

End Storage.

Arguments deleteVideo {World}.

End VideoServiceRest.

Import VideoServiceRest.

(** ** The request of [uploadVideoToYouTube] in [src/services/youtubeService.ts] *)

Module YoutubeRequest.

(** The JSON body posted to [/api/upload-youtube].  The title and the
    description are the results of [substring], which cuts a string
    between two code units and may cut a surrogate pair in two; they
    are carried as code units. *)
Record RequestBody : Type := mkRequestBody {
  reqStoragePath : string;
  reqAccessToken : string;
  reqTitle : list N;
  reqDescription : list N;
  reqTags : list string;
  reqCategoryId : string;
  reqPrivacyStatus : string;
  reqPublishAt : option string
}.

Definition requestBody (token path : string) (m : YouTubeMetadata) (date : option string)
    : RequestBody :=
  {| reqStoragePath := path;
     reqAccessToken := token;
     reqTitle := take 100 (utf16 (ytTitle m));
     reqDescription := take 5000 (utf16 (ytDescription m));
     reqTags := ytTags m;
     reqCategoryId := if truthy_string (ytCategoryId m) then ytCategoryId m else "22";
     reqPrivacyStatus :=
       if truthy_opt date then "private"
       else if truthy_string (ytPrivacyStatus m) then ytPrivacyStatus m else "public";
     reqPublishAt := or_null date |}.

End YoutubeRequest.

Import YoutubeRequest.

(** ** The rest of [src/components/VideoDetailModal.tsx] *)

Module VideoDetailModalRest.

(** [{ ...c.metadata, ...meta }] for the [meta] object of a platform:
    YouTube's has the keys title, caption, tags, playlistId and
    categoryId, the others' only caption. *)
Definition mergeMetadata (p : Platform) (old meta : ConfigMetadata) : ConfigMetadata :=
  if decide (p = youtube) then
    {| title := title meta; caption := caption meta;
       location := location old; collaborators := collaborators old;
       tags := tags meta; playlistId := playlistId meta;
       categoryId := categoryId meta;
       chapters := chapters old; privacyStatus := privacyStatus old |}
  else
    {| title := title old; caption := caption meta;
       location := location old; collaborators := collaborators old;
       tags := tags old; playlistId := playlistId old;
       categoryId := categoryId old;
       chapters := chapters old; privacyStatus := privacyStatus old |}.

Definition with_metadata (c : DistributionConfig) (m : ConfigMetadata) : DistributionConfig :=
  {| platform := platform c; accountId := accountId c; postType := postType c;
     externalId := externalId c; metadata := m |}.

(** The array built in step 2 of [handleSavePlatformData]; its [meta]
    object is the one a new entry is seeded with. *)
Definition syncedConfigs (st : State) (p : Platform) : list DistributionConfig :=
  (λ c, if decide (platform c = p)
        then with_metadata c (mergeMetadata p (metadata c) (seedMetadata st p))
        else c)
    <$> distributionConfigs st.

(** [{ ...ytData, playlistId: ytData.playlistId || null }] *)
Definition safeYt (st : State) : YouTubeMetadata :=
  {| ytTitle := ytTitle (ytData st); ytDescription := ytDescription (ytData st);
     ytTags := ytTags (ytData st); ytCategoryId := ytCategoryId (ytData st);
     ytPlaylistId := or_null (ytPlaylistId (ytData st));
     ytPrivacyStatus := ytPrivacyStatus (ytData st) |}.

(** [handleSavePlatformData]: a rejected store call is caught and
    logged, and the component state is then left as it was. *)
Definition handleSavePlatformData (db : Db) (st : State) (p : Platform) : Db * State :=
  let vid := videoId (localVideo st) in
  let yt := if decide (p = youtube) then Some (safeYt st) else None in
  let ig := if decide (p = instagram) then Some (igData st) else None in
  let tt := if decide (p = tiktok) then Some (ttData st) else None in
  let newConfigs := syncedConfigs st p in
  match updateVideoMetadata db vid yt ig tt with
  | None => (db, st)
  | Some db1 =>
      match updateVideoDistributionConfig db1 vid newConfigs with
      | None => (db1, st)
      | Some db2 =>
          let v := localVideo st in
          let v1 := match yt with Some m => with_youtubeMetadata v (Some m) | None => v end in
          let v2 := match ig with Some m => with_instagramMetadata v1 (Some m) | None => v1 end in
          let v3 := match tt with Some m => with_tiktokMetadata v2 (Some m) | None => v2 end in
          (db2, setDistributionConfigs
                  (setLocalVideo st (with_distributionConfig v3 (Some newConfigs)))
                  newConfigs)
      end
  end.

(** [handleDismiss] and [handleRestore]: a rejected store call is
    caught and logged. *)
Definition handleDismiss (db : Db) (st : State) : Db * State :=
  match dismissVideo db (videoId (localVideo st)) with
  | Some db' => (db', setLocalVideo st (with_status (localVideo st) dismissed))
  | None => (db, st)
  end.

Definition handleRestore (db : Db) (st : State) : Db * State :=
  match unapproveVideo db (videoId (localVideo st)) with
  | Some db' => (db', setLocalVideo st (with_status (localVideo st) pending))
  | None => (db, st)
  end.

End VideoDetailModalRest.

Import VideoDetailModalRest.

(** ** The project list of [VideosView] in [src/components/IntegrationModal.tsx] *)

Module VideosView.

(** [isProjectResolved] *)
Definition isProjectResolved (p : Project) : bool :=
  match stats p with
  | None => false
  | Some s =>
      let n := if (total s =? 0)%nat then videoCount p else total s in
      if (n =? 0)%nat then false
      else (pendingReview s =? 0)%nat && (approvedCount s =? 0)%nat
  end.

(** The three lists of the project view, from the videos that match
    the search. *)
Definition videosPendingReview (vs : list VideoAsset) : list VideoAsset :=
  filter (λ v, status v ≠ approved ∧ status v ≠ published
               ∧ status v ≠ scheduled ∧ status v ≠ dismissed) vs.

Definition videosApproved (vs : list VideoAsset) : list VideoAsset :=
  filter (λ v, status v = approved) vs.

Definition videosDiscarded (vs : list VideoAsset) : list VideoAsset :=
  filter (λ v, status v = dismissed) vs.

End VideosView.

Import VideosView.

(** ** Predicates used in the statements *)

(** Keys are distinct, and every group holds entries of its key only
    and at least one. *)
Definition groupsWellFormed (m : list (Platform * list DistributionConfig)) : Prop :=
  NoDup (m.*1)
  ∧ Forall (λ g, g.2 ≠ [] ∧ Forall (λ c, platform c = g.1) g.2) m.

(** [a] occurs in [s]. *)
Fixpoint occurs (a : ascii) (s : string) : bool :=
  match s with
  | EmptyString => false
  | String b r => Ascii.eqb b a || occurs a r
  end.

(** ** More sample data *)

Module MoreSamples.

(** A file store that records the paths it is asked to delete and
    answers with a fixed outcome. *)
Definition sampleDeleteObject (r : Outcome unit) (w : list string) (path : string)
    : list string * Outcome unit :=
  (w ++ ["remove " +:+ path], r).

(** A second video of the sample project, already published. *)
Definition publishedVideo : VideoAsset :=
  {| videoId := "v2"; projectId := Some "p1"; videoTitle := "Teaser";
     storagePath := "users/u1/videos/v2.mp4"; format := horizontal;
     status := published; scheduledDate := Some "2026-02-01T10:00:00.000Z";
     distributionConfig := None; platforms := None;
     youtubeMetadata := None; instagramMetadata := None; tiktokMetadata := None;
     transcription := None |}.

Definition twoVideoDb : Db :=
  {| videos := {[ "v1" := approvedVideo; "v2" := publishedVideo ]};
     projects := {[ "p1" := sampleProject ]} |}.

(** The approved sample video with an Instagram and a TikTok entry only. *)
Definition socialOnlyVideo : VideoAsset :=
  with_distributionConfig (with_status sampleVideo approved)
    (Some [igEntry "ig1";
           {| platform := tiktok; accountId := "tt1"; postType := reel;
              externalId := None; metadata := noMetadata |}]).

Definition socialOnlyDb : Db :=
  {| videos := {[ "v1" := socialOnlyVideo ]}; projects := {[ "p1" := sampleProject ]} |}.

(** The sample video with a filled YouTube form. *)
Definition formVideo : VideoAsset :=
  {| videoId := "v1"; projectId := Some "p1"; videoTitle := "Launch clip";
     storagePath := "users/u1/videos/v1.mp4"; format := vertical;
     status := pending; scheduledDate := None;
     distributionConfig := None; platforms := None;
     youtubeMetadata :=
       Some {| ytTitle := "Spring drop"; ytDescription := "Out on Friday";
               ytTags := ["launch"; "spring sale"]; ytCategoryId := "22";
               ytPlaylistId := None; ytPrivacyStatus := "public" |};
     instagramMetadata := None; tiktokMetadata := None;
     transcription := None |}.

(** The same form with a tag typed between two no-break spaces. *)
Definition nbspTagVideo : VideoAsset :=
  with_youtubeMetadata formVideo
    (Some {| ytTitle := "Spring drop"; ytDescription := "Out on Friday";
             ytTags := ["launch"; nbsp +:+ "sale" +:+ nbsp]; ytCategoryId := "22";
             ytPlaylistId := None; ytPrivacyStatus := "public" |}).

(** A playlist call that always throws. *)
Definition failingPlaylist (w : list string) (token pl rid : string)
    : list string * Outcome unit :=
  (w ++ ["playlist " +:+ pl], Threw (ErrorMessage "playlistNotFound")).

(** The approved sample video with one YouTube entry bound to a playlist. *)
Definition playlistVideo : VideoAsset :=
  with_distributionConfig (with_status sampleVideo approved)
    (Some [ {| platform := youtube; accountId := "acc1"; postType := video;
               externalId := None;
               metadata :=
                 {| title := Some "Spring drop"; caption := Some "Out on Friday";
                    location := None; collaborators := None; tags := Some "launch, spring";
                    playlistId := Some "PL1"; categoryId := Some "22";
                    chapters := None; privacyStatus := None |} |} ]).

Definition playlistDb : Db :=
  {| videos := {[ "v1" := playlistVideo ]}; projects := {[ "p1" := sampleProject ]} |}.

(** The store holding the captioned sample video. *)
Definition captionedDb : Db :=
  {| videos := {[ "v1" := captionedVideo ]}; projects := {[ "p1" := sampleProject ]} |}.

(** A pending and a dismissed video next to the published one. *)
Definition dismissedVideo : VideoAsset :=
  {| videoId := "v3"; projectId := Some "p1"; videoTitle := "Outtake";
     storagePath := "users/u1/videos/v3.mp4"; format := horizontal;
     status := dismissed; scheduledDate := None;
     distributionConfig := None; platforms := None;
     youtubeMetadata := None; instagramMetadata := None; tiktokMetadata := None;
     transcription := None |}.

Definition resolvedDb : Db :=
  {| videos := {[ "v2" := publishedVideo; "v3" := dismissedVideo ]};
     projects := {[ "p1" := sampleProject ]} |}.

End MoreSamples.

Import MoreSamples.

(** * Properties *)

(** ** JavaScript helpers *)

Lemma trimStart_all_white_space (cs : list string) :
  forallb white_space_char (trimStart cs) = forallb white_space_char cs.
Proof.
  induction cs as [|c r IH]; [reflexivity|]. cbn [trimStart].
  destruct (white_space_char c) eqn:Hc; cbn [forallb]; rewrite Hc; [exact IH|reflexivity].
Qed.

Lemma trimEnd_empty (cs : list string) :
  trimEnd cs = [] ↔ forallb white_space_char cs = true.
Proof.
  induction cs as [|c r IH]; cbn [trimEnd forallb]; [tauto|].
  destruct (trimEnd r) eqn:Hr, (white_space_char c) eqn:Hc; cbn [andb].
  - rewrite <- IH. tauto.
  - split; discriminate.
  - split; [discriminate|]. intros H. apply IH in H. discriminate.
  - split; discriminate.
Qed.

Lemma trimStart_Forall (P : string → Prop) (cs : list string) :
  Forall P cs → Forall P (trimStart cs).
Proof.
  induction 1 as [|c r Hc Hr IH]; [constructor|]. cbn [trimStart].
  destruct (white_space_char c); [exact IH|constructor; assumption].
Qed.

Lemma trimEnd_Forall (P : string → Prop) (cs : list string) :
  Forall P cs → Forall P (trimEnd cs).
Proof.
  induction 1 as [|c r Hc Hr IH]; [constructor|]. cbn [trimEnd].
  destruct (trimEnd r) as [|c' r'].
  - destruct (white_space_char c); [constructor|]. constructor; [exact Hc|constructor].
  - constructor; [exact Hc|exact IH].
Qed.

(** No character of a text is empty. *)
Lemma chars_nonempty (s : string) : Forall (λ c, c ≠ EmptyString) (chars s).
Proof.
  assert (H : ∀ (n : nat) (t : string), (String.length t ≤ n)%nat →
              Forall (λ c, c ≠ EmptyString) (chars t)).
  { induction n as [|n IH]; intros [|a r] Hlen; try constructor;
      try (cbn [String.length] in Hlen; lia).
    cbn [chars].
    destruct (char_width a) as [|[|[|[|[|k]]]]], r as [|b [|c [|d r4]]];
      repeat case_match;
      constructor; try discriminate; apply IH; cbn [String.length] in *; lia. }
  apply (H (String.length s)). lia.
Qed.

Lemma concat_chars_empty (cs : list string) :
  Forall (λ c, c ≠ EmptyString) cs → String.concat EmptyString cs = EmptyString → cs = [].
Proof.
  destruct cs as [|c r]; [reflexivity|]. intros Hall Hc. exfalso.
  apply Forall_cons in Hall as [Hne _]. apply Hne.
  cbn [String.concat] in Hc. destruct r; [exact Hc|].
  destruct c; [reflexivity|discriminate Hc].
Qed.

(** [s.trim() !== ''] holds exactly when [s] has a character that is
    not white space. *)
Lemma nonblank_spec (s : string) :
  nonblank s = negb (all_white_space s).
Proof.
  unfold nonblank, trim, all_white_space.
  destruct (forallb white_space_char (chars s)) eqn:Hs.
  - rewrite <- trimStart_all_white_space in Hs. apply trimEnd_empty in Hs.
    rewrite Hs. reflexivity.
  - destruct (String.concat EmptyString (trimEnd (trimStart (chars s)))) eqn:Ht;
      [|reflexivity].
    apply concat_chars_empty in Ht;
      [|apply trimEnd_Forall, trimStart_Forall, chars_nonempty].
    apply trimEnd_empty in Ht. rewrite trimStart_all_white_space in Ht. congruence.
Qed.

(** The decoder on a two-byte, a three-byte and a four-byte character,
    and white space beyond ASCII. *)
Lemma utf16_samples :
  utf16 "ação" = [97; 231; 227; 111]%N
  ∧ utf16 "€" = [0x20AC]%N
  ∧ utf16 "😀" = [0xD83D; 0xDE00]%N
  ∧ chars "a€😀" = ["a"; "€"; "😀"]
  ∧ trim (String "194" (String "160" " Out now ")) = "Out now"
  ∧ trim (String "226" (String "128" (String "131" EmptyString))) = EmptyString
  ∧ trim (String "239" (String "187" (String "191" "é "))) = "é".
Proof. repeat split; vm_compute; reflexivity. Qed.

Lemma nonblank_trim (s : string) : nonblank s = true ↔ trim s ≠ EmptyString.
Proof.
  unfold nonblank. destruct (trim s); simpl; split; congruence.
Qed.

Lemma nonblank_nonempty (s : string) : nonblank s = true → s ≠ EmptyString.
Proof. intros H ->. discriminate. Qed.

(** "At most 1.1" is "square or vertical" on every number. *)
Lemma square_or_vertical (x : JsNumber) :
  js_le x (Fin (11 # 10))
  = (js_ge x (Fin (9 # 10)) && js_le x (Fin (11 # 10))) || js_lt x (Fin (9 # 10)).
Proof.
  destruct x as [| |q]; simpl; try reflexivity.
  unfold js_ge, Qlt_bool; simpl.
  destruct (Qle_bool (9 # 10) q) eqn:H1; simpl.
  - destruct (Qle_bool q (11 # 10)); reflexivity.
  - apply Qle_bool_iff.
    assert (H : ¬ (9 # 10 <= q)%Q) by (rewrite <- Qle_bool_iff; congruence).
    apply Qnot_le_lt in H. apply Qlt_le_weak.
    eapply Qlt_trans; [exact H|]. reflexivity.
Qed.

(** On every size from 0 x 0 to 255 x 255 pixels, and on the usual
    frame sizes, the exact quotient and the hardware double give the
    same answers to the two ratio tests. *)
Lemma ratio_tests_agree_with_binary64 :
  forallb
    (λ d, Bool.eqb (instagramRatio64 d)
            (js_ge (ratio d) (Fin (1 # 2)) && js_le (ratio d) (Fin (17 # 20)))
          && Bool.eqb (squareOrVertical64 d) (js_le (ratio d) (Fin (11 # 10))))
    ((w ← N.of_nat <$> seq 0 256; h ← N.of_nat <$> seq 0 256;
      [{| width := w; height := h |}])
     ++ [ {| width := 1080; height := 1920 |}; {| width := 1920; height := 1080 |};
          {| width := 1080; height := 1080 |}; {| width := 1080; height := 1350 |};
          {| width := 2160; height := 3840 |}; {| width := 3840; height := 2160 |};
          {| width := 720; height := 1280 |}; {| width := 1188; height := 1080 |};
          {| width := 1189; height := 1080 |}; {| width := 972; height := 1080 |};
          {| width := 971; height := 1080 |}; {| width := 918; height := 1080 |};
          {| width := 919; height := 1080 |}; {| width := 540; height := 1080 |};
          {| width := 539; height := 1080 |} ]%N)
  = true.
Proof. vm_compute. reflexivity. Qed.

(** ** The store *)

Lemma recalculateProjectStats_videos (db : Db) (pid : string) :
  videos (recalculateProjectStats db pid) = videos db.
Proof.
  unfold recalculateProjectStats, updateProjectDoc.
  destruct (projects db !! pid); reflexivity.
Qed.

Lemma recalculateFor_videos (db : Db) (vid : string) :
  videos (recalculateFor db vid) = videos db.
Proof.
  unfold recalculateFor.
  destruct (videos db !! vid) as [v|]; [|reflexivity].
  destruct (projectId v) as [pid|]; [|reflexivity].
  destruct (truthy_string pid); [apply recalculateProjectStats_videos|reflexivity].
Qed.

Lemma updateVideoDoc_exists (db : Db) (vid : string) (f : VideoAsset → VideoAsset)
    (v : VideoAsset) :
  videos db !! vid = Some v →
  updateVideoDoc db vid f
  = Some {| videos := <[vid := f v]> (videos db); projects := projects db |}.
Proof. unfold updateVideoDoc. intros ->. reflexivity. Qed.

(** ** The modal *)

Lemma saveDistributionConfigs_state (db : Db) (st : State) (cs : list DistributionConfig) :
  distributionConfigs (saveDistributionConfigs db st cs).2 = cs
  ∧ platformSettings (saveDistributionConfigs db st cs).2 = platformSettings st
  ∧ videoId (localVideo (saveDistributionConfigs db st cs).2) = videoId (localVideo st)
  ∧ ytData (saveDistributionConfigs db st cs).2 = ytData st
  ∧ igData (saveDistributionConfigs db st cs).2 = igData st
  ∧ ttData (saveDistributionConfigs db st cs).2 = ttData st.
Proof.
  unfold saveDistributionConfigs.
  destruct (updateVideoDistributionConfig _ _ _); simpl; repeat split.
Qed.

Lemma saveDistributionConfigs_persists (db : Db) (st : State)
    (cs : list DistributionConfig) (v : VideoAsset) :
  videos db !! videoId (localVideo st) = Some v →
  videos (saveDistributionConfigs db st cs).1 !! videoId (localVideo st)
  = Some (with_distributionConfig v (Some cs)).
Proof.
  intros Hv. unfold saveDistributionConfigs, updateVideoDistributionConfig.
  rewrite (updateVideoDoc_exists _ _ _ _ Hv). simpl. apply lookup_insert_eq.
Qed.

Lemma settingsPostType_set (s : PlatformSettings) (p : Platform) (t : PostType) :
  settingsPostType (setSettingsPostType s p t) p = t.
Proof. destruct p; reflexivity. Qed.

(** ** Eligibility engine *)

Lemma setVideoMedia_rule (st : State) (d : Dimensions) (t : JsNumber) :
  truthy_number t = true →
  getYouTubeRuleType (setVideoMedia st d t)
  = Some (if js_le (ratio d) (Fin (11 # 10)) && js_lt t (Fin 60) then shorts else video).
Proof.
  intros Ht. unfold getYouTubeRuleType, setVideoMedia.
  cbn [videoDimensions videoDuration]. rewrite Ht. cbn [negb].
  rewrite <- square_or_vertical.
  destruct (js_le (ratio d) (Fin (11 # 10)) && js_lt t (Fin 60)); reflexivity.
Qed.

Lemma rewritten_postType (cs : list DistributionConfig) (p : Platform) (t : PostType)
    (c : DistributionConfig) :
  c ∈ (λ c, if decide (platform c = p) then with_postType c t else c) <$> cs →
  (platform c = p → postType c = t) ∧ (platform c ≠ p → c ∈ cs).
Proof.
  intros Hc. apply list_elem_of_fmap in Hc as (c0 & -> & Hin).
  destruct (decide (platform c0 = p)) as [Heq|Hne]; simpl.
  - split; [reflexivity|]. intros H. contradiction.
  - split; [intros H; contradiction|]. intros _. exact Hin.
Qed.




(** C5 (amended).  For Instagram, with dimensions and duration present,
    the ratio check passes exactly when 0.50 <= width/height <= 0.85
    (0.49 fails, 0.50 and 0.85 pass, 0.86 fails), and the duration check
    passes exactly when the duration is falsy (0 or NaN, handled like a
    duration that is not known yet) or lies between 3 and 3600 seconds.
    Each check reads its own input only, and while either check fails
    the Instagram toggle does nothing, so the platform cannot be turned
    on. *)
Theorem instagram_eligibility (db : Db) (st : State) (d : Dimensions) (t : JsNumber) :
  videoDimensions st = Some d →
  videoDuration st = Some t →
  isInstagramRatioValid st = js_ge (ratio d) (Fin (1 # 2)) && js_le (ratio d) (Fin (17 # 20))
  ∧ isInstagramDurationValid st
    = negb (truthy_number t) || (js_ge t (Fin 3) && js_le t (Fin 3600))
  ∧ (∀ t', isInstagramRatioValid (setVideoMedia st d t') = isInstagramRatioValid st)
  ∧ (∀ d', isInstagramDurationValid (setVideoMedia st d' t) = isInstagramDurationValid st)
  ∧ (λ w, isInstagramRatioValid (setVideoMedia st {| width := w; height := 100 |} (Fin 10)))
      <$> [49; 50; 85; 86]%N
    = [false; true; true; false]
  ∧ (subTab st = instagram → isInstagramValid st = false →
     socialToggleClick db st = (db, st)).
Proof.
  intros Hd Ht. unfold isInstagramRatioValid, isInstagramDurationValid.
  rewrite Hd, Ht. cbn [setVideoMedia videoDimensions videoDuration].
  split; [reflexivity|].
  split; [destruct (truthy_number t); reflexivity|].
  split; [reflexivity|]. split; [reflexivity|]. split; [reflexivity|].
  intros Htab Hbad. unfold socialToggleClick. rewrite Htab, Hbad. reflexivity.
Qed.

(** A landscape clip of 1920 x 1080 pixels and 10 seconds, with the
    Instagram tab open: the ratio check fails, the duration check
    passes, and the toggle leaves everything as it was. *)
Lemma instagram_eligibility_witness :
  let st0 := setVideoMedia (stateWith [] []) {| width := 1920; height := 1080 |} (Fin 10) in
  let st := {| subTab := instagram; localVideo := localVideo st0;
               selectedPlatforms := selectedPlatforms st0;
               videoDimensions := videoDimensions st0;
               videoDuration := videoDuration st0;
               showApproveModal := showApproveModal st0;
               distributionConfigs := distributionConfigs st0;
               ytData := ytData st0; igData := igData st0; ttData := ttData st0;
               platformSettings := platformSettings st0 |} in
  isInstagramRatioValid st = false
  ∧ isInstagramDurationValid st = true
  ∧ socialToggleClick sampleDb st = (sampleDb, st).
Proof.
  intros st0 st.
  destruct (instagram_eligibility sampleDb st {| width := 1920; height := 1080 |} (Fin 10)
              eq_refl eq_refl) as (H1 & H2 & _ & _ & _ & H6).
  split; [rewrite H1; reflexivity|].
  split; [rewrite H2; reflexivity|].
  apply H6; reflexivity.
Defined.

(** C5, as stated, fails on a clip whose duration is 0: the duration is
    present and outside 3..3600, yet the duration check passes. *)
Lemma instagram_duration_zero_counterexample :
  let st := setVideoMedia (stateWith [] []) portrait (Fin 0) in
  videoDimensions st = Some portrait
  ∧ videoDuration st = Some (Fin 0)
  ∧ js_ge (Fin 0) (Fin 3) && js_le (Fin 0) (Fin 3600) = false
  ∧ isInstagramDurationValid st = true.
Proof. repeat split. Qed.

(** The two media cells are set together: both are absent when the
    modal opens, and both are present once the clip's metadata arrived. *)
Lemma media_set_together (v : VideoAsset) (db : Db) (st : State) (w h : N) (t : JsNumber) :
  (videoDimensions (initialState v) = None ∧ videoDuration (initialState v) = None)
  ∧ (is_Some (videoDimensions (onLoadedMetadata db st w h t).2)
     ∧ is_Some (videoDuration (onLoadedMetadata db st w h t).2)).
Proof.
  split; [split; reflexivity|].
  unfold onLoadedMetadata, enforceYouTubeRules.
  destruct (getYouTubeRuleType _) as [r|]; [|split; eexists; reflexivity].
  destruct (decide _); [|split; eexists; reflexivity].
  unfold updatePostTypeForPlatform, saveDistributionConfigs.
  destruct (updateVideoDistributionConfig _ _ _); split; eexists; reflexivity.
Qed.

(** C9.  While a media property is not known yet its check passes: the
    Instagram ratio check passes without dimensions, the Instagram
    duration check passes without a duration, and the YouTube rule
    derives nothing as soon as one of the two is missing, so that no
    automatic switch happens.  Before the metadata of the clip arrived
    (both absent, see [media_set_together]) Instagram counts as valid
    and its toggle goes through. *)
Theorem pending_media_fail_open (db : Db) (st : State) :
  (videoDimensions st = None → isInstagramRatioValid st = true)
  ∧ (videoDuration st = None → isInstagramDurationValid st = true)
  ∧ (videoDimensions st = None ∨ videoDuration st = None →
     getYouTubeRuleType st = None ∧ enforceYouTubeRules db st = (db, st))
  ∧ (videoDimensions st = None → videoDuration st = None →
     isInstagramValid st = true
     ∧ socialToggleClick db st
       = togglePlatformActive db st (subTab st)
           (negb (includes (selectedPlatforms st) (subTab st)))).
Proof.
  split; [intros H; unfold isInstagramRatioValid; rewrite H; reflexivity|].
  split; [intros H; unfold isInstagramDurationValid; rewrite H; reflexivity|].
  split.
  - intros H.
    assert (Hr : getYouTubeRuleType st = None).
    { unfold getYouTubeRuleType. destruct H as [-> | ->]; [reflexivity|].
      destruct (videoDimensions st); reflexivity. }
    split; [exact Hr|]. unfold enforceYouTubeRules. rewrite Hr. reflexivity.
  - intros Hd Ht.
    assert (Hv : isInstagramValid st = true).
    { unfold isInstagramValid, isInstagramRatioValid, isInstagramDurationValid.
      rewrite Hd, Ht. reflexivity. }
    split; [exact Hv|]. unfold socialToggleClick. rewrite Hv.
    rewrite andb_false_r. reflexivity.
Qed.

(** The modal just opened on the Instagram tab: both checks pass,
    nothing is derived for YouTube, and the toggle turns Instagram on. *)
Lemma pending_media_fail_open_witness :
  let st0 := stateWith [] [] in
  let st := {| subTab := instagram; localVideo := localVideo st0;
               selectedPlatforms := selectedPlatforms st0;
               videoDimensions := None; videoDuration := None;
               showApproveModal := showApproveModal st0;
               distributionConfigs := distributionConfigs st0;
               ytData := ytData st0; igData := igData st0; ttData := ttData st0;
               platformSettings := platformSettings st0 |} in
  isInstagramRatioValid st = true
  ∧ isInstagramDurationValid st = true
  ∧ getYouTubeRuleType st = None
  ∧ enforceYouTubeRules sampleDb st = (sampleDb, st)
  ∧ selectedPlatforms (socialToggleClick sampleDb st).2 = [instagram].
Proof.
  intros st0 st.
  destruct (pending_media_fail_open sampleDb st) as (H1 & H2 & H3 & H4).
  split; [apply H1; reflexivity|].
  split; [apply H2; reflexivity|].
  destruct (H3 (or_introl eq_refl)) as [H3a H3b].
  split; [exact H3a|]. split; [exact H3b|].
  destruct (H4 eq_refl eq_refl) as [_ H4b]. rewrite H4b. reflexivity.
Defined.

(** C10.  A duration of exactly 0 passes the Instagram duration check
    whatever the dimensions are: it is handled like a duration that is
    not known yet, whereas every duration strictly between 0 and 3
    seconds is rejected. *)
Theorem instagram_zero_duration_passes (st : State) (q : Q) :
  videoDuration st = Some (Fin q) →
  ((q == 0)%Q → isInstagramDurationValid st = true)
  ∧ ((0 < q)%Q → (q < 3)%Q → isInstagramDurationValid st = false).
Proof.
  intros Ht. unfold isInstagramDurationValid. rewrite Ht.
  cbn [truthy_number]. split.
  - intros Hq. apply Qeq_bool_iff in Hq. rewrite Hq. reflexivity.
  - intros H0 H3.
    assert (Hz : Qeq_bool q 0 = false).
    { destruct (Qeq_bool q 0) eqn:E; [|reflexivity].
      apply Qeq_bool_iff in E. rewrite E in H0. exfalso. exact (Qlt_irrefl 0 H0). }
    rewrite Hz. cbn [negb js_ge js_le].
    assert (Hge : Qle_bool 3 q = false).
    { destruct (Qle_bool 3 q) eqn:E; [|reflexivity].
      apply Qle_bool_iff in E. exfalso. exact (Qlt_not_le _ _ H3 E). }
    rewrite Hge. reflexivity.
Qed.

(** A portrait clip with known dimensions and a duration of 0 passes;
    the same clip with a duration of 2 seconds does not. *)
Lemma instagram_zero_duration_passes_witness :
  isInstagramDurationValid (setVideoMedia (stateWith [] []) portrait (Fin 0)) = true
  ∧ isInstagramDurationValid (setVideoMedia (stateWith [] []) portrait (Fin 2)) = false.
Proof.
  split.
  - apply (instagram_zero_duration_passes
             (setVideoMedia (stateWith [] []) portrait (Fin 0)) 0 eq_refl).
    reflexivity.
  - apply (instagram_zero_duration_passes
             (setVideoMedia (stateWith [] []) portrait (Fin 2)) 2 eq_refl);
      reflexivity.
Defined.

(** ** Project aggregation *)

(** One step of the loop, by the status of the video. *)
Lemma countVideo_eq (s : ProjectStats) (v : VideoAsset) :
  countVideo s v
  = match status v with
    | dismissed =>
        {| total := total s; pendingReview := pendingReview s;
           approvedCount := approvedCount s;
           scheduledOrPublished := scheduledOrPublished s;
           discarded := S (discarded s) |}
    | published | scheduled =>
        {| total := total s; pendingReview := pendingReview s;
           approvedCount := approvedCount s;
           scheduledOrPublished := S (scheduledOrPublished s);
           discarded := discarded s |}
    | approved =>
        {| total := total s; pendingReview := pendingReview s;
           approvedCount := S (approvedCount s);
           scheduledOrPublished := scheduledOrPublished s;
           discarded := discarded s |}
    | _ =>
        {| total := total s; pendingReview := S (pendingReview s);
           approvedCount := approvedCount s;
           scheduledOrPublished := scheduledOrPublished s;
           discarded := discarded s |}
    end.
Proof. unfold countVideo. destruct (status v); reflexivity. Qed.

(** The status buckets of [recalculateProjectStats]. *)
Lemma countVideo_cases (s : ProjectStats) (v : VideoAsset) :
  total (countVideo s v) = total s
  ∧ discarded (countVideo s v)
    = discarded s + (if decide (status v = dismissed) then 1 else 0)
  ∧ scheduledOrPublished (countVideo s v)
    = scheduledOrPublished s
      + (if decide (status v = scheduled ∨ status v = published) then 1 else 0)
  ∧ approvedCount (countVideo s v)
    = approvedCount s + (if decide (status v = approved) then 1 else 0)
  ∧ pendingReview (countVideo s v)
    = pendingReview s
      + (if decide (status v ∉ [dismissed; scheduled; published; approved]) then 1 else 0).
Proof.
  unfold countVideo.
  destruct (status v); simpl; repeat split; try lia;
    repeat (case_decide; simpl); try lia;
    exfalso; set_unfold; naive_solver.
Qed.

Lemma fold_countVideo (vs : list VideoAsset) : ∀ s : ProjectStats,
  total (fold_left countVideo vs s) = total s
  ∧ discarded (fold_left countVideo vs s)
    = discarded s + length (filter (λ v, status v = dismissed) vs)
  ∧ scheduledOrPublished (fold_left countVideo vs s)
    = scheduledOrPublished s
      + length (filter (λ v, status v = scheduled ∨ status v = published) vs)
  ∧ approvedCount (fold_left countVideo vs s)
    = approvedCount s + length (filter (λ v, status v = approved) vs)
  ∧ pendingReview (fold_left countVideo vs s)
    = pendingReview s
      + length (filter (λ v, status v ∉ [dismissed; scheduled; published; approved]) vs).
Proof.
  induction vs as [|v vs IH]; intros s; simpl.
  - repeat split; lia.
  - destruct (IH (countVideo s v)) as (H1 & H2 & H3 & H4 & H5).
    destruct (countVideo_cases s v) as (C1 & C2 & C3 & C4 & C5).
    rewrite H1, H2, H3, H4, H5, C1, C2, C3, C4, C5.
    rewrite !filter_cons.
    repeat split; repeat case_decide; simpl; lia.
Qed.

Lemma status_buckets_cover (vs : list VideoAsset) :
  length vs
  = length (filter (λ v, status v ∉ [dismissed; scheduled; published; approved]) vs)
    + length (filter (λ v, status v = approved) vs)
    + length (filter (λ v, status v = scheduled ∨ status v = published) vs)
    + length (filter (λ v, status v = dismissed) vs).
Proof.
  induction vs as [|v vs IH]; [reflexivity|].
  rewrite !filter_cons. simpl.
  destruct (status v) eqn:E; repeat case_decide; simpl; try lia;
    exfalso; set_unfold; intuition congruence.
Qed.

Lemma computeStats_counts (vs : list VideoAsset) :
  total (computeStats vs) = length vs
  ∧ discarded (computeStats vs) = length (filter (λ v, status v = dismissed) vs)
  ∧ scheduledOrPublished (computeStats vs)
    = length (filter (λ v, status v = scheduled ∨ status v = published) vs)
  ∧ approvedCount (computeStats vs) = length (filter (λ v, status v = approved) vs)
  ∧ pendingReview (computeStats vs)
    = length (filter (λ v, status v ∉ [dismissed; scheduled; published; approved]) vs).
Proof.
  unfold computeStats.
  destruct (fold_countVideo vs
              {| total := length vs; pendingReview := 0; approvedCount := 0;
                 scheduledOrPublished := 0; discarded := 0 |})
    as (H1 & H2 & H3 & H4 & H5).
  repeat split; assumption.
Qed.

(** The query returns the videos of the project, and only them. *)
Lemma projectVideos_spec (db : Db) (pid : string) (v : VideoAsset) :
  v ∈ projectVideos db pid
  ↔ (∃ vid, videos db !! vid = Some v) ∧ projectId v = Some pid.
Proof.
  unfold projectVideos. rewrite list_elem_of_filter, list_elem_of_fmap.
  split.
  - intros (Hp & [vid v'] & -> & Hin). split; [|exact Hp].
    exists vid. apply elem_of_map_to_list in Hin. exact Hin.
  - intros ((vid & Hv) & Hp). split; [exact Hp|].
    exists (vid, v). split; [reflexivity|]. apply elem_of_map_to_list. exact Hv.
Qed.

(** C6.  For every list of videos of a project the recomputed stats
    partition it by status: [discarded] counts the dismissed videos,
    [scheduledOrPublished] the scheduled or published ones, [approved]
    the approved ones, [pendingReview] all the others, and [total] is
    the number of videos, hence the sum of the four buckets.  Statuses
    dismissed, approved, scheduled, pending, published give
    total 5, pendingReview 1, approved 1, scheduledOrPublished 2,
    discarded 1.  The recomputation writes these stats, from the videos
    the query returns, onto the project and touches no video. *)
Theorem recompute_stats_partition (db : Db) (pid : string) (vs : list VideoAsset) :
  discarded (computeStats vs) = length (filter (λ v, status v = dismissed) vs)
  ∧ scheduledOrPublished (computeStats vs)
    = length (filter (λ v, status v = scheduled ∨ status v = published) vs)
  ∧ approvedCount (computeStats vs) = length (filter (λ v, status v = approved) vs)
  ∧ pendingReview (computeStats vs)
    = length (filter (λ v, status v ∉ [dismissed; scheduled; published; approved]) vs)
  ∧ total (computeStats vs) = length vs
  ∧ total (computeStats vs)
    = pendingReview (computeStats vs) + approvedCount (computeStats vs)
      + scheduledOrPublished (computeStats vs) + discarded (computeStats vs)
  ∧ (status <$> vs = [dismissed; approved; scheduled; pending; published] →
     computeStats vs
     = {| total := 5; pendingReview := 1; approvedCount := 1;
          scheduledOrPublished := 2; discarded := 1 |})
  ∧ (∀ p, projects db !! pid = Some p →
     projects (recalculateProjectStats db pid) !! pid
     = Some {| projectName := projectName p;
               videoCount := length (projectVideos db pid);
               stats := Some (computeStats (projectVideos db pid)) |}
     ∧ videos (recalculateProjectStats db pid) = videos db).
Proof.
  destruct (computeStats_counts vs) as (H1 & H2 & H3 & H4 & H5).
  rewrite H1, H2, H3, H4, H5.
  repeat split; try reflexivity.
  - apply status_buckets_cover.
  - intros Hs.
    destruct vs as [|v1 [|v2 [|v3 [|v4 [|v5 [|v6 vs]]]]]]; try discriminate Hs.
    injection Hs as E1 E2 E3 E4 E5.
    unfold computeStats. cbn [fold_left length].
    rewrite (countVideo_eq _ v1), E1.
    cbn [total pendingReview approvedCount scheduledOrPublished discarded].
    rewrite (countVideo_eq _ v2), E2.
    cbn [total pendingReview approvedCount scheduledOrPublished discarded].
    rewrite (countVideo_eq _ v3), E3.
    cbn [total pendingReview approvedCount scheduledOrPublished discarded].
    rewrite (countVideo_eq _ v4), E4.
    cbn [total pendingReview approvedCount scheduledOrPublished discarded].
    rewrite (countVideo_eq _ v5), E5. reflexivity.
  - unfold recalculateProjectStats, updateProjectDoc. rewrite H. simpl.
    rewrite lookup_insert_eq. f_equal. f_equal.
    apply (computeStats_counts (projectVideos db pid)).
  - apply recalculateProjectStats_videos.
Qed.

(** The five statuses of the example on copies of the sample video, and
    the sample project recomputed from the sample store. *)
Lemma recompute_stats_partition_witness :
  computeStats (with_status sampleVideo <$> [dismissed; approved; scheduled; pending; published])
  = {| total := 5; pendingReview := 1; approvedCount := 1;
       scheduledOrPublished := 2; discarded := 1 |}
  ∧ projects (recalculateProjectStats sampleDb "p1") !! "p1"
    = Some {| projectName := "Spring campaign"; videoCount := 1;
              stats := Some {| total := 1; pendingReview := 1; approvedCount := 0;
                               scheduledOrPublished := 0; discarded := 0 |} |}.
Proof.
  destruct (recompute_stats_partition sampleDb "p1"
              (with_status sampleVideo <$> [dismissed; approved; scheduled; pending; published]))
    as (_ & _ & _ & _ & _ & _ & Hex & Hdb).
  split; [apply Hex; reflexivity|].
  destruct (Hdb sampleProject eq_refl) as [Hp _].
  rewrite Hp. vm_compute. reflexivity.
Defined.

(** ** Status operations and the schedule date *)

Lemma with_status_lookup (db : Db) (vid : string) (v : VideoAsset) (s : VideoStatus) :
  videos db !! vid = Some v →
  ∃ db1, updateVideoDoc db vid (λ v, with_status v s) = Some db1
         ∧ videos (recalculateFor db1 vid) !! vid = Some (with_status v s).
Proof.
  intros Hv. eexists. split; [apply (updateVideoDoc_exists _ _ _ _ Hv)|].
  rewrite recalculateFor_videos. simpl. apply lookup_insert_eq.
Qed.

(** What [markVideoAsProcessing] leaves in the video document. *)
Lemma markVideoAsProcessing_doc (now : string) (db : Db) (vid : string) (v : VideoAsset)
    (cs : list DistributionConfig) (date : option string) :
  videos db !! vid = Some v →
  ∃ db', markVideoAsProcessing now db vid cs date = Some db'
    ∧ videos db' !! vid
      = Some (with_scheduledDate
                (with_distributionConfig
                   (with_platforms
                      (with_status v (if truthy_opt date then scheduled else published))
                      (Some (platform <$> cs)))
                   (Some cs))
                (if truthy_opt date then date else Some now)).
Proof.
  intros Hv. unfold markVideoAsProcessing.
  rewrite (updateVideoDoc_exists _ _ _ _ Hv). simpl.
  eexists. split; [reflexivity|].
  rewrite recalculateFor_videos. simpl. apply lookup_insert_eq.
Qed.

(** What [cancelVideoScheduling] leaves in the video document. *)
Lemma cancelVideoScheduling_doc (db : Db) (vid : string) (v : VideoAsset) :
  videos db !! vid = Some v →
  ∃ db', cancelVideoScheduling db vid = Some db'
    ∧ videos db' !! vid
      = Some (with_distributionConfig
                (with_scheduledDate (with_status v approved) None)
                (Some (stripExternalId <$> default [] (distributionConfig v)))).
Proof.
  intros Hv. unfold cancelVideoScheduling. rewrite Hv.
  rewrite (updateVideoDoc_exists _ _ _ _ Hv). simpl.
  eexists. split; [reflexivity|].
  destruct (projectId v) as [pid|]; [|simpl; apply lookup_insert_eq].
  destruct (truthy_string pid); [|simpl; apply lookup_insert_eq].
  rewrite recalculateProjectStats_videos. simpl. apply lookup_insert_eq.
Qed.

(** C7 (amended).  A distribute always sets [scheduledDate]: to the
    chosen time when the status becomes [scheduled], and to the time of
    the call when the video is published at once and the status becomes
    [published].  Cancelling the schedule removes it and returns the
    status to [approved].  Approve, dismiss and unapprove change the
    status and leave [scheduledDate] as it was. *)
Theorem scheduledDate_lifecycle (now : string) (db : Db) (vid : string) (v : VideoAsset)
    (cs : list DistributionConfig) (date : option string) :
  videos db !! vid = Some v →
  (∃ db' v', markVideoAsProcessing now db vid cs date = Some db'
     ∧ videos db' !! vid = Some v'
     ∧ status v' = (if truthy_opt date then scheduled else published)
     ∧ scheduledDate v' = (if truthy_opt date then date else Some now)
     ∧ is_Some (scheduledDate v'))
  ∧ (∃ db' v', cancelVideoScheduling db vid = Some db'
     ∧ videos db' !! vid = Some v'
     ∧ status v' = approved ∧ scheduledDate v' = None)
  ∧ (∃ db' v', approveVideo db vid = Some db'
     ∧ videos db' !! vid = Some v'
     ∧ status v' = approved ∧ scheduledDate v' = scheduledDate v)
  ∧ (∃ db' v', dismissVideo db vid = Some db'
     ∧ videos db' !! vid = Some v'
     ∧ status v' = dismissed ∧ scheduledDate v' = scheduledDate v)
  ∧ (∃ db' v', unapproveVideo db vid = Some db'
     ∧ videos db' !! vid = Some v'
     ∧ status v' = pending ∧ scheduledDate v' = scheduledDate v).
Proof.
  intros Hv. split.
  { destruct (markVideoAsProcessing_doc now db vid v cs date Hv) as (db' & Hm & Hl).
    eexists db', _. split; [exact Hm|]. split; [exact Hl|]. simpl.
    split; [reflexivity|]. split; [reflexivity|].
    destruct (truthy_opt date) eqn:Hd; [|eexists; reflexivity].
    destruct date; [eexists; reflexivity|discriminate]. }
  split.
  { destruct (cancelVideoScheduling_doc db vid v Hv) as (db' & Hc & Hl).
    eexists db', _. split; [exact Hc|]. split; [exact Hl|]. split; reflexivity. }
  unfold approveVideo, dismissVideo, unapproveVideo.
  repeat split.
  all: match goal with |- context [with_status _ ?s] =>
         destruct (with_status_lookup db vid v s Hv) as (db1 & Hu & Hl)
       end.
  all: rewrite Hu; simpl; eexists _, _; split; [reflexivity|];
    split; [exact Hl|]; split; reflexivity.
Qed.

(** The approved sample video, published at once and then scheduled. *)
Lemma scheduledDate_lifecycle_witness :
  (∃ db' v', markVideoAsProcessing sampleNow approvedDb "v1" [ytEntry "acc1"] None = Some db'
     ∧ videos db' !! "v1" = Some v'
     ∧ status v' = published ∧ scheduledDate v' = Some sampleNow)
  ∧ (∃ db' v', cancelVideoScheduling approvedDb "v1" = Some db'
     ∧ videos db' !! "v1" = Some v'
     ∧ status v' = approved ∧ scheduledDate v' = None).
Proof.
  destruct (scheduledDate_lifecycle sampleNow approvedDb "v1" approvedVideo
              [ytEntry "acc1"] None eq_refl)
    as ((db1 & v1 & Hm & Hl & Hs & Hd & _) & (db2 & v2 & Hc & Hl2 & Hs2 & Hd2) & _).
  split.
  - exists db1, v1. repeat split; assumption.
  - exists db2, v2. repeat split; assumption.
Defined.

(** C7, as stated, fails on an immediate distribute: the status becomes
    [published], not [scheduled], and [scheduledDate] is set to the
    time of the call. *)
Lemma published_has_scheduledDate_counterexample :
  ∃ db' v', markVideoAsProcessing sampleNow approvedDb "v1" [ytEntry "acc1"] None = Some db'
    ∧ videos db' !! "v1" = Some v'
    ∧ status v' = published
    ∧ status v' ≠ scheduled
    ∧ scheduledDate v' = Some sampleNow.
Proof.
  destruct (markVideoAsProcessing_doc sampleNow approvedDb "v1" approvedVideo
              [ytEntry "acc1"] None eq_refl) as (db' & Hm & Hl).
  eexists db', _. split; [exact Hm|]. split; [exact Hl|].
  repeat split. discriminate.
Qed.

(** ** Distribution configuration manager *)

Lemma isAccountSelected_spec (st : State) (p : Platform) (acc : string) :
  isAccountSelected st p acc = true
  ↔ ∃ c, c ∈ distributionConfigs st ∧ platform c = p ∧ accountId c = acc.
Proof.
  unfold isAccountSelected. rewrite existsb_exists. split.
  - intros (c & Hin & Hc). exists c. apply list_elem_of_In in Hin.
    apply bool_decide_eq_true in Hc. tauto.
  - intros (c & Hin & Hc). exists c. split; [apply list_elem_of_In; exact Hin|].
    apply bool_decide_eq_true. exact Hc.
Qed.

Lemma filter_keeps_all {A : Type} (P : A → Prop) `{∀ x, Decision (P x)} (l : list A) :
  (∀ x, x ∈ l → P x) → filter P l = l.
Proof.
  induction l as [|a l IH]; intros Hall; [reflexivity|].
  rewrite filter_cons. destruct (decide (P a)) as [_|Hn].
  - f_equal. apply IH. intros x Hx. apply Hall. right. exact Hx.
  - exfalso. apply Hn, Hall. left.
Qed.

Lemma filter_split_length {A : Type} (P : A → Prop) `{∀ x, Decision (P x)} (l : list A) :
  length (filter P l) + length (filter (λ x, ¬ P x) l) = length l.
Proof.
  induction l as [|a l IH]; [reflexivity|].
  rewrite !filter_cons. destruct (decide (P a)), (decide (¬ P a)); simpl; try lia; tauto.
Qed.

Lemma toggleAccountSelection_state (db : Db) (st : State) (p : Platform) (acc : string) :
  distributionConfigs (toggleAccountSelection db st p acc).2 = toggledConfigs st p acc
  ∧ platformSettings (toggleAccountSelection db st p acc).2 = platformSettings st
  ∧ videoId (localVideo (toggleAccountSelection db st p acc).2) = videoId (localVideo st)
  ∧ ytData (toggleAccountSelection db st p acc).2 = ytData st
  ∧ igData (toggleAccountSelection db st p acc).2 = igData st
  ∧ ttData (toggleAccountSelection db st p acc).2 = ttData st.
Proof. apply saveDistributionConfigs_state. Qed.

(** After an entry was added, the same toggle removes it again. *)
Lemma toggledConfigs_add_remove (st st1 : State) (p : Platform) (acc : string) :
  isAccountSelected st p acc = false →
  distributionConfigs st1 = distributionConfigs st ++ [newConfig st p acc] →
  toggledConfigs st1 p acc = distributionConfigs st.
Proof.
  intros Hsel Hcs. unfold toggledConfigs.
  assert (Hnone : ∀ c, c ∈ distributionConfigs st → ¬ (platform c = p ∧ accountId c = acc)).
  { intros c Hin Hc.
    assert (isAccountSelected st p acc = true) as Ht
      by (apply isAccountSelected_spec; exists c; tauto).
    congruence. }
  assert (Hnow : isAccountSelected st1 p acc = true).
  { apply isAccountSelected_spec. exists (newConfig st p acc).
    rewrite Hcs. split; [apply elem_of_app; right; left|]. split; reflexivity. }
  rewrite Hnow, Hcs, filter_app, (filter_keeps_all _ _ Hnone).
  rewrite filter_cons, filter_nil.
  destruct (decide _) as [Hn|_]; [|apply app_nil_r].
  exfalso. apply Hn. split; reflexivity.
Qed.

(** C8 (amended).  [toggleAccount] removes every entry of the
    (platform, account) pair when there is one, and otherwise appends an
    entry seeded with the platform's sub-type and shared metadata
    (title, caption and tags for YouTube, the caption alone for
    Instagram and TikTok); each call persists the whole rewritten
    array.  Starting from a list without an entry for the pair, two
    calls in a row return the list to its original state, hence to its
    original length.  Starting from a list with exactly one entry for
    the pair, two calls leave the length unchanged. *)
Theorem toggle_account_twice (db : Db) (st : State) (p : Platform) (acc : string) :
  let r1 := toggleAccountSelection db st p acc in
  let r2 := toggleAccountSelection r1.1 r1.2 p acc in
  (isAccountSelected st p acc = true →
     distributionConfigs r1.2
     = filter (λ c, ¬ (platform c = p ∧ accountId c = acc)) (distributionConfigs st)
     ∧ isAccountSelected r1.2 p acc = false)
  ∧ (isAccountSelected st p acc = false →
     distributionConfigs r1.2 = distributionConfigs st ++ [newConfig st p acc]
     ∧ distributionConfigs r2.2 = distributionConfigs st
     ∧ length (distributionConfigs r2.2) = length (distributionConfigs st))
  ∧ (length (filter (λ c, platform c = p ∧ accountId c = acc) (distributionConfigs st)) = 1 →
     length (distributionConfigs r2.2) = length (distributionConfigs st))
  ∧ (platform (newConfig st p acc) = p
     ∧ accountId (newConfig st p acc) = acc
     ∧ postType (newConfig st p acc) = settingsPostType (platformSettings st) p
     ∧ externalId (newConfig st p acc) = None
     ∧ (p = youtube →
        title (metadata (newConfig st p acc)) = Some (ytTitle (ytData st))
        ∧ caption (metadata (newConfig st p acc)) = Some (ytDescription (ytData st))
        ∧ tags (metadata (newConfig st p acc))
          = Some (String.concat ", " (ytTags (ytData st))))
     ∧ (p = instagram →
        title (metadata (newConfig st p acc)) = None
        ∧ caption (metadata (newConfig st p acc)) = Some (socialCaption (igData st))
        ∧ tags (metadata (newConfig st p acc)) = None)
     ∧ (p = tiktok →
        title (metadata (newConfig st p acc)) = None
        ∧ caption (metadata (newConfig st p acc)) = Some (socialCaption (ttData st))
        ∧ tags (metadata (newConfig st p acc)) = None))
  ∧ (∀ v, videos db !! videoId (localVideo st) = Some v →
     videos r1.1 !! videoId (localVideo st)
     = Some (with_distributionConfig v (Some (distributionConfigs r1.2)))
     ∧ videos r2.1 !! videoId (localVideo st)
       = Some (with_distributionConfig v (Some (distributionConfigs r2.2)))).
Proof.
  intros r1 r2.
  destruct (toggleAccountSelection_state db st p acc) as (Hc1 & _ & Hid1 & _).
  destruct (toggleAccountSelection_state r1.1 r1.2 p acc) as (Hc2 & _).
  fold r1 in Hc1, Hid1. fold r2 in Hc2.
  assert (Hremoved : isAccountSelected st p acc = true →
            distributionConfigs r1.2
            = filter (λ c, ¬ (platform c = p ∧ accountId c = acc)) (distributionConfigs st)
            ∧ isAccountSelected r1.2 p acc = false).
  { intros Hsel. rewrite Hc1. unfold toggledConfigs at 1. rewrite Hsel.
    split; [reflexivity|].
    destruct (isAccountSelected r1.2 p acc) eqn:E; [|reflexivity].
    apply isAccountSelected_spec in E as (c & Hin & Hp & Ha).
    rewrite Hc1 in Hin. unfold toggledConfigs in Hin. rewrite Hsel in Hin.
    apply list_elem_of_filter in Hin as [Hn _]. exfalso. apply Hn. tauto. }
  assert (Hadded : isAccountSelected st p acc = false →
            distributionConfigs r1.2 = distributionConfigs st ++ [newConfig st p acc]).
  { intros Hsel. rewrite Hc1. unfold toggledConfigs. rewrite Hsel. reflexivity. }
  split; [exact Hremoved|]. split.
  { intros Hsel. split; [exact (Hadded Hsel)|].
    assert (distributionConfigs r2.2 = distributionConfigs st) as ->; [|tauto].
    rewrite Hc2. apply toggledConfigs_add_remove; [exact Hsel|exact (Hadded Hsel)]. }
  split.
  { intros Hone.
    assert (Hsel : isAccountSelected st p acc = true).
    { apply isAccountSelected_spec.
      destruct (filter (λ c, platform c = p ∧ accountId c = acc) (distributionConfigs st))
        as [|c l] eqn:Hf; [discriminate|].
      assert (Hin : c ∈ filter (λ c, platform c = p ∧ accountId c = acc)
                          (distributionConfigs st)) by (rewrite Hf; left).
      apply list_elem_of_filter in Hin. exists c. tauto. }
    destruct (Hremoved Hsel) as [Hr1 Hn1].
    rewrite Hc2. unfold toggledConfigs. rewrite Hn1, length_app, Hr1. simpl.
    pose proof (filter_split_length (λ c, platform c = p ∧ accountId c = acc)
                  (distributionConfigs st)) as Hlen.
    lia. }
  split.
  { clear. repeat split; subst p; reflexivity. }
  intros v Hv.
  pose proof (saveDistributionConfigs_persists db st (toggledConfigs st p acc) v Hv) as Hp1.
  change (saveDistributionConfigs db st (toggledConfigs st p acc)) with r1 in Hp1.
  rewrite <- Hc1 in Hp1. split; [exact Hp1|].
  rewrite <- Hid1 in Hp1 |- *.
  pose proof (saveDistributionConfigs_persists r1.1 r1.2 (toggledConfigs r1.2 p acc) _ Hp1)
    as Hp2.
  change (saveDistributionConfigs r1.1 r1.2 (toggledConfigs r1.2 p acc)) with r2 in Hp2.
  rewrite <- Hc2 in Hp2. exact Hp2.
Qed.

(** An Instagram account toggled twice on a modal that holds one
    YouTube entry: the entry list and the stored array are back to the
    single YouTube entry. *)
Lemma toggle_account_twice_witness :
  let st := stateWith [youtube; instagram] [ytEntry "acc1"] in
  let r1 := toggleAccountSelection sampleDb st instagram "acc2" in
  let r2 := toggleAccountSelection r1.1 r1.2 instagram "acc2" in
  distributionConfigs r1.2 = [ytEntry "acc1"; newConfig st instagram "acc2"]
  ∧ distributionConfigs r2.2 = [ytEntry "acc1"]
  ∧ videos r2.1 !! "v1" = Some (with_distributionConfig sampleVideo (Some [ytEntry "acc1"])).
Proof.
  intros st r1 r2.
  destruct (toggle_account_twice sampleDb st instagram "acc2")
    as (_ & Hadd & _ & _ & Hdb).
  destruct (Hadd eq_refl) as (H1 & H2 & _).
  destruct (Hdb sampleVideo eq_refl) as (_ & Hp2).
  split; [exact H1|]. split; [exact H2|].
  refine (eq_trans Hp2 _). rewrite H2. reflexivity.
Defined.

(** C8, as stated, fails on a list that already holds the entry: the
    first call removes it and the second appends a fresh one at the
    end, so the list is not the original one. *)
Lemma toggle_twice_existing_entry_counterexample :
  let st := stateWith [youtube; instagram] [ytEntry "acc1"; igEntry "acc2"] in
  let r1 := toggleAccountSelection sampleDb st youtube "acc1" in
  let r2 := toggleAccountSelection r1.1 r1.2 youtube "acc1" in
  distributionConfigs r1.2 = [igEntry "acc2"]
  ∧ distributionConfigs r2.2 = [igEntry "acc2"; newConfig st youtube "acc1"]
  ∧ distributionConfigs r2.2 ≠ distributionConfigs st.
Proof.
  intros st r1 r2.
  split; [reflexivity|]. split; [reflexivity|].
  intros H. vm_compute in H. discriminate H.
Qed.

(** ** Approval guards *)

Lemma includes_spec (ps : list Platform) (p : Platform) : includes ps p = true ↔ p ∈ ps.
Proof. unfold includes. apply bool_decide_eq_true. Qed.

(** A guard of the form [!selected.includes(p) || cond]. *)
Lemma guard_spec (ps : list Platform) (p : Platform) (b : bool) :
  negb (includes ps p) || b = true ↔ (p ∈ ps → b = true).
Proof.
  destruct (includes ps p) eqn:E; simpl.
  - apply includes_spec in E. tauto.
  - split; [|reflexivity]. intros _ Hin. apply includes_spec in Hin. congruence.
Qed.

Lemma hasAccount_spec (st : State) (p : Platform) :
  (0 <? length (getPlatformConfigs st p))%nat = true
  ↔ ∃ c, c ∈ distributionConfigs st ∧ platform c = p.
Proof.
  unfold getPlatformConfigs. rewrite Nat.ltb_lt. split.
  - destruct (filter (λ c, platform c = p) (distributionConfigs st)) as [|c l] eqn:Hf;
      simpl; [lia|]. intros _.
    assert (Hin : c ∈ filter (λ c, platform c = p) (distributionConfigs st))
      by (rewrite Hf; left).
    apply list_elem_of_filter in Hin. exists c. tauto.
  - intros (c & Hin & Hp).
    assert (Hc : c ∈ filter (λ c, platform c = p) (distributionConfigs st))
      by (apply list_elem_of_filter; tauto).
    destruct (filter _ _); [inversion Hc|simpl; lia].
Qed.

(** C1 (amended).  The approve transition is allowed exactly when at
    least one platform is toggled on, the required metadata of every
    toggled platform among YouTube, Instagram and TikTok is not blank
    once trimmed (title and description for YouTube, the caption for
    Instagram and for TikTok), and every toggled platform among these
    three has at least one config entry.  The guard is the conjunction
    of one boolean per platform and per rule, each with its own
    meaning, and when it is false the approve click changes nothing. *)
Theorem approve_guard (st : State) :
  (isAllReady st = true
   ↔ selectedPlatforms st ≠ []
     ∧ (youtube ∈ selectedPlatforms st →
        trim (ytTitle (ytData st)) ≠ "" ∧ trim (ytDescription (ytData st)) ≠ "")
     ∧ (instagram ∈ selectedPlatforms st → trim (socialCaption (igData st)) ≠ "")
     ∧ (tiktok ∈ selectedPlatforms st → trim (socialCaption (ttData st)) ≠ "")
     ∧ (∀ p, p ∈ selectedPlatforms st → p = youtube ∨ p = instagram ∨ p = tiktok →
        ∃ c, c ∈ distributionConfigs st ∧ platform c = p))
  ∧ isAllReady st
    = (0 <? length (selectedPlatforms st))%nat
      && isYouTubeReady st && isInstagramReady st && isTikTokReady st
      && hasAccountForYoutube st && hasAccountForInstagram st && hasAccountForTikTok st
  ∧ (isYouTubeReady st = true
     ↔ (youtube ∈ selectedPlatforms st →
        trim (ytTitle (ytData st)) ≠ "" ∧ trim (ytDescription (ytData st)) ≠ ""))
  ∧ (isInstagramReady st = true
     ↔ (instagram ∈ selectedPlatforms st → trim (socialCaption (igData st)) ≠ ""))
  ∧ (isTikTokReady st = true
     ↔ (tiktok ∈ selectedPlatforms st → trim (socialCaption (ttData st)) ≠ ""))
  ∧ (hasAccountForYoutube st = true
     ↔ (youtube ∈ selectedPlatforms st →
        ∃ c, c ∈ distributionConfigs st ∧ platform c = youtube))
  ∧ (hasAccountForInstagram st = true
     ↔ (instagram ∈ selectedPlatforms st →
        ∃ c, c ∈ distributionConfigs st ∧ platform c = instagram))
  ∧ (hasAccountForTikTok st = true
     ↔ (tiktok ∈ selectedPlatforms st →
        ∃ c, c ∈ distributionConfigs st ∧ platform c = tiktok))
  ∧ (isAllReady st = false → handleApproveClick st = st)
  ∧ (isAllReady st = true → showApproveModal (handleApproveClick st) = true).
Proof.
  assert (Hyt : isYouTubeReady st = true
     ↔ (youtube ∈ selectedPlatforms st →
        trim (ytTitle (ytData st)) ≠ "" ∧ trim (ytDescription (ytData st)) ≠ "")).
  { unfold isYouTubeReady. rewrite guard_spec, andb_true_iff, !nonblank_trim. tauto. }
  assert (Hig : isInstagramReady st = true
     ↔ (instagram ∈ selectedPlatforms st → trim (socialCaption (igData st)) ≠ "")).
  { unfold isInstagramReady. rewrite guard_spec, nonblank_trim. tauto. }
  assert (Htt : isTikTokReady st = true
     ↔ (tiktok ∈ selectedPlatforms st → trim (socialCaption (ttData st)) ≠ "")).
  { unfold isTikTokReady. rewrite guard_spec, nonblank_trim. tauto. }
  assert (Hay : hasAccountForYoutube st = true
     ↔ (youtube ∈ selectedPlatforms st →
        ∃ c, c ∈ distributionConfigs st ∧ platform c = youtube)).
  { unfold hasAccountForYoutube. rewrite guard_spec, hasAccount_spec. tauto. }
  assert (Hai : hasAccountForInstagram st = true
     ↔ (instagram ∈ selectedPlatforms st →
        ∃ c, c ∈ distributionConfigs st ∧ platform c = instagram)).
  { unfold hasAccountForInstagram. rewrite guard_spec, hasAccount_spec. tauto. }
  assert (Hat : hasAccountForTikTok st = true
     ↔ (tiktok ∈ selectedPlatforms st →
        ∃ c, c ∈ distributionConfigs st ∧ platform c = tiktok)).
  { unfold hasAccountForTikTok. rewrite guard_spec, hasAccount_spec. tauto. }
  split.
  { unfold isAllReady. rewrite !andb_true_iff, Hyt, Hig, Htt, Hay, Hai, Hat, Nat.ltb_lt.
    assert (Hne : 0 < length (selectedPlatforms st) ↔ selectedPlatforms st ≠ []).
    { destruct (selectedPlatforms st); simpl; split; try lia; congruence. }
    rewrite Hne. split.
    - intros ((((((H0 & H1) & H2) & H3) & H4) & H5) & H6).
      split; [exact H0|]. split; [exact H1|]. split; [exact H2|]. split; [exact H3|].
      intros p Hp [-> | [-> | ->]]; auto.
    - intros (H0 & H1 & H2 & H3 & H4).
      split; [split; [split; [split; [split; [split|]|]|]|]|]; try assumption;
        intros Hin; apply H4; auto. }
  split; [reflexivity|].
  split; [exact Hyt|]. split; [exact Hig|]. split; [exact Htt|].
  split; [exact Hay|]. split; [exact Hai|]. split; [exact Hat|].
  unfold handleApproveClick. split; intros ->; reflexivity.
Qed.

(** Instagram toggled on, with a caption and an account: the guard is
    passed and the click opens the confirmation.  YouTube toggled on
    without an account entry: the click changes nothing. *)
Lemma approve_guard_witness :
  let ready := stateOf captionedVideo [instagram] [igEntry "acc2"] in
  let noAccount := stateWith [youtube] [] in
  isAllReady ready = true
  ∧ showApproveModal (handleApproveClick ready) = true
  ∧ isAllReady noAccount = false
  ∧ hasAccountForYoutube noAccount = false
  ∧ handleApproveClick noAccount = noAccount.
Proof.
  intros ready noAccount.
  destruct (approve_guard ready) as (Hiff & _ & _ & _ & _ & _ & _ & _ & _ & Hopen).
  destruct (approve_guard noAccount) as (_ & _ & _ & _ & _ & _ & _ & _ & Hblock & _).
  assert (Hready : isAllReady ready = true).
  { apply Hiff. split; [discriminate|].
    split; [intros H; apply list_elem_of_singleton in H; discriminate|].
    split; [intros _; discriminate|].
    split; [intros H; apply list_elem_of_singleton in H; discriminate|].
    intros p Hp _. exists (igEntry "acc2"). split; [left|].
    apply list_elem_of_singleton in Hp. rewrite Hp. reflexivity. }
  split; [exact Hready|]. split; [apply Hopen; exact Hready|].
  split; [reflexivity|]. split; [reflexivity|]. apply Hblock. reflexivity.
Defined.

(** C1, as stated, fails.  With Instagram toggled on, an account
    selected and a caption made of one space, or of one no-break
    space, every required field is non-empty although the guard is not
    passed. *)
Lemma approve_guard_counterexample :
  (let st := stateOf blankCaptionVideo [instagram] [igEntry "acc2"] in
   isAllReady st = false
   ∧ selectedPlatforms st = [instagram]
   ∧ socialCaption (igData st) ≠ ""
   ∧ (∃ c, c ∈ distributionConfigs st ∧ platform c = instagram))
  ∧ (let st := stateOf nbspCaptionVideo [instagram] [igEntry "acc2"] in
     isAllReady st = false
     ∧ selectedPlatforms st = [instagram]
     ∧ socialCaption (igData st) ≠ ""
     ∧ (∃ c, c ∈ distributionConfigs st ∧ platform c = instagram)).
Proof.
  split.
  - simpl. split; [reflexivity|]. split; [reflexivity|]. split; [discriminate|].
    exists (igEntry "acc2"). split; [left|reflexivity].
  - simpl. split; [reflexivity|]. split; [reflexivity|]. split; [discriminate|].
    exists (igEntry "acc2"). split; [left|reflexivity].
Qed.

(** ** Distribute *)

Section Distribute.

Context {World : Type}.
Variable upload : World → string → string → YouTubeMetadata → option string → World * Outcome string.
Variable playlist : World → string → string → string → World * Outcome unit.
Variables (integrations : list Integration) (v : VideoAsset) (finalDate : option string).

Local Abbreviation loop := (uploadLoop upload playlist integrations v finalDate).
Local Abbreviation after := (entryAfter upload integrations v finalDate).

(** A prefix the loop gets through without an error is processed once
    and for all: the loop then continues on the rest from the world the
    prefix left. *)
Lemma uploadLoop_app (pre rest : list DistributionConfig) : ∀ (w w1 : World) pre',
  loop w pre = (w1, pre', None) →
  loop w (pre ++ rest)
  = (let '(w', rest', r) := loop w1 rest in (w', pre' ++ rest', r)).
Proof.
  induction pre as [|c pre IH]; intros w w1 pre' Hpre.
  - simpl in Hpre. injection Hpre as <- <-. simpl.
    destruct (loop w rest) as [[w' rest'] r]. reflexivity.
  - simpl in Hpre |- *.
    destruct (decide (platform c = youtube)) as [Hy|Hy].
    + destruct (tokenFor integrations c) as [token|].
      * destruct (upload w token (storagePath v) (uploadMetadata v c) finalDate)
          as [w2 [e|rid]]; [discriminate|].
        match type of Hpre with context [loop ?w0 pre] =>
          destruct (loop w0 pre) as [[w3 pre3] r3] eqn:Hl
        end.
        injection Hpre as <- <- ->.
        rewrite (IH _ _ _ Hl).
        destruct (loop w3 rest) as [[w' rest'] r]. reflexivity.
      * destruct (loop w pre) as [[w3 pre3] r3] eqn:Hl.
        injection Hpre as <- <- ->.
        rewrite (IH _ _ _ Hl).
        destruct (loop w3 rest) as [[w' rest'] r]. reflexivity.
    + destruct (loop w pre) as [[w3 pre3] r3] eqn:Hl.
      injection Hpre as <- <- ->.
      rewrite (IH _ _ _ Hl).
      destruct (loop w3 rest) as [[w' rest'] r]. reflexivity.
Qed.

(** After a run without an error every entry is either untouched or
    carries the id its upload returned. *)
Lemma uploadLoop_ok (cs : list DistributionConfig) : ∀ (w w' : World) cs',
  loop w cs = (w', cs', None) → Forall2 after cs cs'.
Proof.
  induction cs as [|c cs IH]; intros w w' cs' Hl.
  - simpl in Hl. injection Hl as <- <-. constructor.
  - simpl in Hl.
    destruct (decide (platform c = youtube)) as [Hy|Hy].
    + destruct (tokenFor integrations c) as [token|] eqn:Htok.
      * destruct (upload w token (storagePath v) (uploadMetadata v c) finalDate)
          as [w2 [e|rid]] eqn:Hup; [discriminate|].
        match type of Hl with context [loop ?w0 cs] =>
          destruct (loop w0 cs) as [[w3 cs3] r3] eqn:Hrest
        end.
        injection Hl as <- <- ->.
        constructor; [|exact (IH _ _ _ Hrest)].
        right. split; [exact Hy|]. exists token, w, w2, rid. tauto.
      * destruct (loop w cs) as [[w3 cs3] r3] eqn:Hrest.
        injection Hl as <- <- ->.
        constructor; [|exact (IH _ _ _ Hrest)]. left. tauto.
    + destruct (loop w cs) as [[w3 cs3] r3] eqn:Hrest.
      injection Hl as <- <- ->.
      constructor; [|exact (IH _ _ _ Hrest)]. left. tauto.
Qed.

(** A run that ends with an error stopped at one YouTube entry: the
    entries before it were passed without an error, its own upload
    threw that error, and neither it nor the entries after it were
    touched; the world is the one the failing call left. *)
Lemma uploadLoop_failed (cs : list DistributionConfig) : ∀ (w w' : World) cs' e,
  loop w cs = (w', cs', Some e) →
  ∃ pre c post pre' w1 token,
    cs = pre ++ c :: post
    ∧ cs' = pre' ++ c :: post
    ∧ loop w pre = (w1, pre', None)
    ∧ platform c = youtube
    ∧ tokenFor integrations c = Some token
    ∧ upload w1 token (storagePath v) (uploadMetadata v c) finalDate = (w', Threw e).
Proof.
  induction cs as [|c cs IH]; intros w w' cs' e Hl; [discriminate|].
  simpl in Hl.
  assert (Hskip : ∀ w3 cs3 r3, loop w cs = (w3, cs3, r3) →
            (w3, c :: cs3, r3) = (w', cs', Some e) →
            (∀ pre pre' w1, loop w pre = (w1, pre', None) →
               loop w (c :: pre) = (w1, c :: pre', None)) →
            ∃ pre c0 post pre' w1 token,
              c :: cs = pre ++ c0 :: post ∧ cs' = pre' ++ c0 :: post
              ∧ loop w pre = (w1, pre', None) ∧ platform c0 = youtube
              ∧ tokenFor integrations c0 = Some token
              ∧ upload w1 token (storagePath v) (uploadMetadata v c0) finalDate
                = (w', Threw e)).
  { intros w3 cs3 r3 Hrest Heq Hcons. injection Heq as -> <- ->.
    destruct (IH _ _ _ _ Hrest) as (pre & c0 & post & pre' & w1 & token & -> & -> & Hp & Hrem).
    exists (c :: pre), c0, post, (c :: pre'), w1, token.
    split; [reflexivity|]. split; [reflexivity|]. split; [exact (Hcons _ _ _ Hp)|exact Hrem]. }
  destruct (decide (platform c = youtube)) as [Hy|Hy].
  - destruct (tokenFor integrations c) as [token|] eqn:Htok.
    + destruct (upload w token (storagePath v) (uploadMetadata v c) finalDate)
        as [w2 [e0|rid]] eqn:Hup.
      * injection Hl as <- <- <-.
        exists [], c, cs, [], w, token. repeat split; try assumption.
      * match type of Hl with context [loop ?w0 cs] =>
          destruct (loop w0 cs) as [[w3 cs3] r3] eqn:Hrest
        end.
        injection Hl as <- <- ->.
        destruct (IH _ _ _ _ Hrest)
          as (pre & c0 & post & pre' & w1 & token0 & -> & -> & Hp & Hrem).
        exists (c :: pre), c0, post, (with_externalId c (Some rid) :: pre'), w1, token0.
        split; [reflexivity|]. split; [reflexivity|]. split; [|exact Hrem].
        simpl. destruct (decide (platform c = youtube)); [|contradiction].
        rewrite Htok, Hup, Hp. reflexivity.
    + destruct (loop w cs) as [[w3 cs3] r3] eqn:Hrest.
      apply (Hskip _ _ _ eq_refl Hl).
      intros pre pre' w1 Hp. simpl.
      destruct (decide (platform c = youtube)); [|contradiction].
      rewrite Htok, Hp. reflexivity.
  - destruct (loop w cs) as [[w3 cs3] r3] eqn:Hrest.
    apply (Hskip _ _ _ eq_refl Hl).
    intros pre pre' w1 Hp. simpl.
    destruct (decide (platform c = youtube)); [contradiction|].
    rewrite Hp. reflexivity.
Qed.

(** C2 (amended).  The config entries are processed one upload call at
    a time.  When a call throws, the error is reported at once, no
    further call is made (the world is the one the failing call left),
    the store is untouched, so that the status does not change and
    nothing is persisted, the entries before the failing one that were
    uploaded carry in memory the id their call returned (non-empty when
    the adapter's ids are), and the failing entry and the entries after
    it are as they were.  The config array is persisted once, together
    with the status change, after every call succeeded. *)
Theorem distribute_partial_failure (now : string)
    (configs : list (Platform * list DistributionConfig))
    (w w' : World) (db db' : Db) (cs' : list DistributionConfig) (e : JsError) :
  handleConfirm upload playlist now integrations v configs finalDate w db
  = (w', db', cs', UploadFailed e) →
  db' = db
  ∧ ∃ pre c post pre' w1 token,
      activeConfigs configs = pre ++ c :: post
      ∧ cs' = pre' ++ c :: post
      ∧ loop w pre = (w1, pre', None)
      ∧ Forall2 after pre pre'
      ∧ ((∀ w0 t p m d w2 rid, upload w0 t p m d = (w2, Returned rid) → rid ≠ "") →
         Forall2 (λ c0 c1, c1 = c0 ∨ ∃ rid, rid ≠ "" ∧ c1 = with_externalId c0 (Some rid))
           pre pre')
      ∧ platform c = youtube
      ∧ tokenFor integrations c = Some token
      ∧ upload w1 token (storagePath v) (uploadMetadata v c) finalDate = (w', Threw e).
Proof.
  intros H. unfold handleConfirm in H |- *.
  destruct (length (activeConfigs configs) =? 0)%nat; [discriminate|].
  destruct (loop w (activeConfigs configs)) as [[w2 cs2] [e2|]] eqn:Hl; [|discriminate].
  injection H as <- <- <- <-. split; [reflexivity|].
  destruct (uploadLoop_failed _ _ _ _ _ Hl)
    as (pre & c & post & pre' & w1 & token & Ha & Hc & Hp & Hy & Htok & Hup).
  exists pre, c, post, pre', w1, token.
  pose proof (uploadLoop_ok _ _ _ _ Hp) as Hok.
  repeat (split; [assumption|]).
  split.
  { intros Hid. eapply Forall2_impl; [exact Hok|].
    intros c0 c1 [[-> _] | (_ & t & w0 & w3 & rid & _ & Hu & ->)]; [left; reflexivity|].
    right. exists rid. split; [exact (Hid _ _ _ _ _ _ _ Hu)|reflexivity]. }
  repeat (split; [assumption|]). assumption.
Qed.

(** Conversely, whatever follows the failing entry plays no part: the
    run ends in the world the failing call left, with the store
    untouched and the entries from the failing one on as they were. *)
Lemma distribute_stops_at_failure (now : string)
    (configs : list (Platform * list DistributionConfig))
    (w w1 w' : World) (db : Db) (pre pre' post : list DistributionConfig)
    (c : DistributionConfig) (token : string) (e : JsError) :
  activeConfigs configs = pre ++ c :: post →
  loop w pre = (w1, pre', None) →
  platform c = youtube →
  tokenFor integrations c = Some token →
  upload w1 token (storagePath v) (uploadMetadata v c) finalDate = (w', Threw e) →
  handleConfirm upload playlist now integrations v configs finalDate w db
  = (w', db, pre' ++ c :: post, UploadFailed e).
Proof.
  intros Ha Hpre Hy Htok Hup. unfold handleConfirm. rewrite Ha.
  destruct (length (pre ++ c :: post) =? 0)%nat eqn:Hlen.
  { apply Nat.eqb_eq in Hlen. rewrite length_app in Hlen. simpl in Hlen. lia. }
  rewrite (uploadLoop_app _ _ _ _ _ Hpre). simpl.
  destruct (decide (platform c = youtube)); [|contradiction].
  rewrite Htok, Hup. reflexivity.
Qed.

(** When every call succeeded the whole array, as it is in memory, goes
    to [markVideoAsProcessing] in one write. *)
Lemma distribute_success (now : string)
    (configs : list (Platform * list DistributionConfig))
    (w w' : World) (db db' : Db) (cs' : list DistributionConfig) :
  handleConfirm upload playlist now integrations v configs finalDate w db
  = (w', db', cs', Distributed) →
  Forall2 after (activeConfigs configs) cs'
  ∧ db' = handleDistribute now db (videoId v) cs' finalDate.
Proof.
  unfold handleConfirm.
  destruct (length (activeConfigs configs) =? 0)%nat; [discriminate|].
  destruct (loop w (activeConfigs configs)) as [[w2 cs2] [e2|]] eqn:Hl; [discriminate|].
  intros [= <- <- <-]. split; [exact (uploadLoop_ok _ _ _ _ Hl)|reflexivity].
Qed.

End Distribute.

(** Two YouTube entries: the upload for the first account succeeds and
    the one for the second account throws.  The first entry carries
    its id in memory, the second does not, one call per entry was
    made, and the store is the one before the run. *)
Lemma distribute_partial_failure_witness :
  handleConfirm sampleUpload samplePlaylist sampleNow sampleIntegrations twoAccountVideo
    (initialConfigs twoAccountVideo) None [] twoAccountDb
  = (["upload token-a"; "upload token-b"], twoAccountDb,
     [with_externalId (ytEntry "acc1") (Some "yt-111"); ytEntry "acc2"],
     UploadFailed (ErrorMessage "quotaExceeded"))
  ∧ ∃ pre c post pre',
      activeConfigs (initialConfigs twoAccountVideo) = pre ++ c :: post
      ∧ [with_externalId (ytEntry "acc1") (Some "yt-111"); ytEntry "acc2"]
        = pre' ++ c :: post
      ∧ Forall2 (λ c0 c1, c1 = c0 ∨ ∃ rid, rid ≠ "" ∧ c1 = with_externalId c0 (Some rid))
          pre pre'.
Proof.
  assert (Hrun : handleConfirm sampleUpload samplePlaylist sampleNow sampleIntegrations
                   twoAccountVideo (initialConfigs twoAccountVideo) None [] twoAccountDb
                 = (["upload token-a"; "upload token-b"], twoAccountDb,
                    [with_externalId (ytEntry "acc1") (Some "yt-111"); ytEntry "acc2"],
                    UploadFailed (ErrorMessage "quotaExceeded"))) by reflexivity.
  split; [exact Hrun|].
  destruct (distribute_partial_failure sampleUpload samplePlaylist sampleIntegrations
              twoAccountVideo None sampleNow _ _ _ _ _ _ _ Hrun)
    as (_ & pre & c & post & pre' & w1 & token & Ha & Hc & _ & _ & Hid & _).
  exists pre, c, post, pre'.
  split; [exact Ha|]. split; [exact Hc|]. apply Hid.
  intros w0 t p m d w2 rid. unfold sampleUpload.
  destruct (decide (t = "token-a")); intros [= _ <-]. discriminate.
Defined.

(** C2, as stated, fails on the persisted array: after the first upload
    succeeded and the second threw, the first entry carries its id in
    memory only; the stored array still holds it without an id, as no
    write was made. *)
Lemma distribute_not_persisted_counterexample :
  ∃ w' cs',
    handleConfirm sampleUpload samplePlaylist sampleNow sampleIntegrations
      twoAccountVideo (initialConfigs twoAccountVideo) None [] twoAccountDb
    = (w', twoAccountDb, cs', UploadFailed (ErrorMessage "quotaExceeded"))
    ∧ externalId <$> cs' = [Some "yt-111"; None]
    ∧ distributionConfig <$> videos twoAccountDb !! "v1"
      = Some (Some [ytEntry "acc1"; ytEntry "acc2"])
    ∧ externalId (ytEntry "acc1") = None
    ∧ status <$> videos twoAccountDb !! "v1" = Some approved.
Proof. eexists _, _. repeat split. Qed.

(** ** Cancel schedule *)

Lemma projectVideos_videos (db db' : Db) (pid : string) :
  videos db' = videos db → projectVideos db' pid = projectVideos db pid.
Proof. unfold projectVideos. intros ->. reflexivity. Qed.

(** After a recomputation the project holds the stats of its videos as
    they are in the store. *)
Lemma recalculateProjectStats_fresh (db : Db) (pid : string) (p : Project) :
  projects db !! pid = Some p →
  projects (recalculateProjectStats db pid) !! pid
  = Some {| projectName := projectName p;
            videoCount := length (projectVideos (recalculateProjectStats db pid) pid);
            stats := Some (computeStats (projectVideos (recalculateProjectStats db pid) pid)) |}.
Proof.
  intros Hp.
  rewrite (projectVideos_videos db _ pid (recalculateProjectStats_videos db pid)).
  unfold recalculateProjectStats, updateProjectDoc. rewrite Hp. simpl.
  rewrite lookup_insert_eq. f_equal. f_equal.
  apply (computeStats_counts (projectVideos db pid)).
Qed.

(** The store after [cancelVideoScheduling] on an existing video. *)
Lemma cancelVideoScheduling_stats (db db' : Db) (vid pid : string) (v : VideoAsset)
    (p : Project) :
  videos db !! vid = Some v →
  cancelVideoScheduling db vid = Some db' →
  projectId v = Some pid → truthy_string pid = true →
  projects db !! pid = Some p →
  projects db' !! pid
  = Some {| projectName := projectName p;
            videoCount := length (projectVideos db' pid);
            stats := Some (computeStats (projectVideos db' pid)) |}.
Proof.
  intros Hv Hc Hpid Ht Hp. unfold cancelVideoScheduling in Hc.
  rewrite Hv, (updateVideoDoc_exists _ _ _ _ Hv), Hpid, Ht in Hc. simpl in Hc.
  injection Hc as <-. apply recalculateProjectStats_fresh. exact Hp.
Qed.

Lemma stripExternalId_all (cs : list DistributionConfig) (c : DistributionConfig) :
  c ∈ stripExternalId <$> cs → externalId c = None.
Proof. intros Hc. apply list_elem_of_fmap in Hc as (c0 & -> & _). reflexivity. Qed.

Section Cancel.

Context {World : Type}.
Variable fetchDelete : World → string → string → World * Outcome (Z * string).
Variable getIntegrations : World → World * Outcome (list Integration).

Local Abbreviation delete := (deleteVideoFromYouTube fetchDelete).
Local Abbreviation remote := (deleteRemote fetchDelete getIntegrations).
Local Abbreviation confirm := (onConfirmCancel fetchDelete getIntegrations).

(** The delete adapter: "not found" is a success, any other status
    outside 200..299 and any rejected request is an error. *)
Lemma deleteVideoFromYouTube_outcome (w : World) (token rid : string) :
  (∀ w' body, fetchDelete w token rid = (w', Returned (404%Z, body)) →
     delete w token rid = (w', Returned ()))
  ∧ (∀ w' code body, fetchDelete w token rid = (w', Returned (code, body)) →
     responseOk code = true → delete w token rid = (w', Returned ()))
  ∧ (∀ w' code body, fetchDelete w token rid = (w', Returned (code, body)) →
     code ≠ 404%Z → responseOk code = false →
     delete w token rid = (w', Threw (DeleteFailed code body)))
  ∧ (∀ w' e, fetchDelete w token rid = (w', Threw e) →
     delete w token rid = (w', Threw e)).
Proof.
  unfold deleteVideoFromYouTube. repeat split.
  - intros w' body ->. reflexivity.
  - intros w' code body -> Hok. rewrite Hok.
    destruct (code =? 404)%Z; reflexivity.
  - intros w' code body -> Hne Hok. rewrite Hok.
    destruct (code =? 404)%Z eqn:E; [|reflexivity].
    apply Z.eqb_eq in E. contradiction.
  - intros w' e ->. reflexivity.
Qed.


End Cancel.



(** * Further properties *)

(** ** Grouping of the config entries in the distribution modal *)

Lemma activeConfigs_cons (k : Platform) (g : list DistributionConfig)
    (m : list (Platform * list DistributionConfig)) :
  activeConfigs ((k, g) :: m) = g ++ activeConfigs m.
Proof. reflexivity. Qed.

Lemma groupsWellFormed_cons (k : Platform) (g : list DistributionConfig)
    (m : list (Platform * list DistributionConfig)) :
  groupsWellFormed ((k, g) :: m)
  ↔ (k ∉ (m.*1)) ∧ g ≠ [] ∧ Forall (λ c, platform c = k) g ∧ groupsWellFormed m.
Proof.
  unfold groupsWellFormed. rewrite fmap_cons, NoDup_cons, Forall_cons. simpl. tauto.
Qed.

Lemma pushConfig_keys (m : list (Platform * list DistributionConfig)) (c : DistributionConfig)
    (k : Platform) :
  k ∈ ((pushConfig m c).*1) ↔ k ∈ (m.*1) ∨ k = platform c.
Proof.
  induction m as [|[k0 g0] m IH]; cbn [pushConfig].
  - rewrite fmap_cons, fmap_nil, list_elem_of_singleton. simpl.
    split; [tauto|]. intros [H|H]; [inversion H|exact H].
  - destruct (decide (k0 = platform c)) as [->|Hne].
    + rewrite !fmap_cons, !elem_of_cons. simpl. tauto.
    + rewrite !fmap_cons, !elem_of_cons, IH. simpl. tauto.
Qed.

Lemma pushConfig_wellFormed (m : list (Platform * list DistributionConfig))
    (c : DistributionConfig) :
  groupsWellFormed m → groupsWellFormed (pushConfig m c).
Proof.
  induction m as [|[k0 g0] m IH]; cbn [pushConfig].
  - intros _. apply groupsWellFormed_cons.
    split; [intros H; inversion H|]. split; [discriminate|].
    split; [repeat constructor|]. split; constructor.
  - intros (Hnotin & Hne & Hg & Hm)%groupsWellFormed_cons.
    destruct (decide (k0 = platform c)) as [->|Hk]; apply groupsWellFormed_cons.
    + split; [exact Hnotin|]. split; [destruct g0; discriminate|].
      split; [|exact Hm]. apply Forall_app. split; [exact Hg|]. repeat constructor.
    + split; [|split; [exact Hne|split; [exact Hg|exact (IH Hm)]]].
      rewrite pushConfig_keys. intros [H|H]; [contradiction|congruence].
Qed.

Lemma pushConfig_perm (m : list (Platform * list DistributionConfig)) (c : DistributionConfig) :
  activeConfigs (pushConfig m c) ≡ₚ c :: activeConfigs m.
Proof.
  induction m as [|[k0 g0] m IH]; cbn [pushConfig]; [reflexivity|].
  destruct (decide (k0 = platform c)); rewrite !activeConfigs_cons.
  - rewrite <- app_assoc. simpl. symmetry. apply Permutation_middle.
  - rewrite IH. symmetry. apply Permutation_middle.
Qed.

Lemma filter_other_platform (g : list DistributionConfig) (k p : Platform) :
  Forall (λ c, platform c = k) g → k ≠ p → filter (λ c, platform c = p) g = [].
Proof.
  intros Hg Hk. induction g as [|c g IH]; [reflexivity|].
  inversion Hg; subst. rewrite filter_cons.
  destruct (decide (platform c = p)); [congruence|]. apply IH. assumption.
Qed.

(** A key that is absent has no entry in any group. *)
Lemma absent_key_no_entry (m : list (Platform * list DistributionConfig)) (p : Platform) :
  groupsWellFormed m → p ∉ (m.*1) →
  filter (λ c, platform c = p) (activeConfigs m) = [].
Proof.
  induction m as [|[k0 g0] m IH]; [reflexivity|].
  intros (_ & _ & Hg & Hm)%groupsWellFormed_cons Hp.
  rewrite fmap_cons, not_elem_of_cons in Hp. simpl in Hp. destruct Hp as [Hne Hp].
  rewrite activeConfigs_cons, filter_app, (IH Hm Hp), app_nil_r.
  apply (filter_other_platform g0 k0 p Hg). congruence.
Qed.

Lemma pushConfig_filter (m : list (Platform * list DistributionConfig))
    (c : DistributionConfig) (p : Platform) :
  groupsWellFormed m →
  filter (λ c, platform c = p) (activeConfigs (pushConfig m c))
  = filter (λ c, platform c = p) (activeConfigs m) ++ filter (λ c, platform c = p) [c].
Proof.
  induction m as [|[k0 g0] m IH]; cbn [pushConfig].
  - intros _. reflexivity.
  - intros (Hnotin & Hne & Hg & Hm)%groupsWellFormed_cons.
    destruct (decide (k0 = platform c)) as [->|Hk]; rewrite !activeConfigs_cons, !filter_app.
    + destruct (decide (platform c = p)) as [<-|Hp].
      * rewrite (absent_key_no_entry m (platform c) Hm Hnotin), !app_nil_r. reflexivity.
      * rewrite (filter_cons _ c), filter_nil.
        destruct (decide (platform c = p)); [contradiction|].
        rewrite !app_nil_r. reflexivity.
    + rewrite (IH Hm), app_assoc. reflexivity.
Qed.

Lemma fold_pushConfig (cs : list DistributionConfig) : ∀ m,
  groupsWellFormed m →
  groupsWellFormed (fold_left pushConfig cs m)
  ∧ activeConfigs (fold_left pushConfig cs m) ≡ₚ activeConfigs m ++ cs
  ∧ ∀ p, filter (λ c, platform c = p) (activeConfigs (fold_left pushConfig cs m))
         = filter (λ c, platform c = p) (activeConfigs m)
           ++ filter (λ c, platform c = p) cs.
Proof.
  induction cs as [|c cs IH]; intros m Hm; cbn [fold_left].
  - split; [exact Hm|]. split; [rewrite app_nil_r; reflexivity|].
    intros p. rewrite filter_nil, app_nil_r. reflexivity.
  - destruct (IH _ (pushConfig_wellFormed m c Hm)) as (Hw & Hperm & Hf).
    split; [exact Hw|]. split.
    + rewrite Hperm, pushConfig_perm. simpl. apply Permutation_middle.
    + intros p. rewrite Hf, (pushConfig_filter m c p Hm), <- app_assoc.
      f_equal. rewrite !filter_cons, filter_nil.
      destruct (decide (platform c = p)); reflexivity.
Qed.

(** In well-formed groups the group of a key is the list of the entries
    of that platform. *)
Lemma group_is_filter (m : list (Platform * list DistributionConfig)) (k : Platform)
    (g : list DistributionConfig) :
  groupsWellFormed m → (k, g) ∈ m →
  g ≠ [] ∧ filter (λ c, platform c = k) (activeConfigs m) = g.
Proof.
  induction m as [|[k0 g0] m IH]; intros Hm Hin; [inversion Hin|].
  apply groupsWellFormed_cons in Hm as (Hnotin & Hne & Hg & Hm).
  rewrite activeConfigs_cons, filter_app.
  apply elem_of_cons in Hin as [[= -> ->]|Hin].
  - split; [exact Hne|].
    rewrite (absent_key_no_entry m k0 Hm Hnotin), app_nil_r.
    apply filter_keeps_all. intros c Hc. rewrite Forall_forall in Hg. exact (Hg c Hc).
  - destruct (IH Hm Hin) as [Hgne Hf]. split; [exact Hgne|]. rewrite Hf.
    assert (Hk : k0 ≠ k).
    { intros ->. apply Hnotin. apply list_elem_of_fmap. exists (k, g). tauto. }
    rewrite (filter_other_platform g0 k0 k Hg Hk). reflexivity.
Qed.


(** ** More on distribute *)

Lemma entryAfter_same_target {World : Type}
    (upload : World → string → string → YouTubeMetadata → option string → World * Outcome string)
    (integrations : list Integration) (v : VideoAsset) (finalDate : option string)
    (cs cs' : list DistributionConfig) :
  Forall2 (entryAfter upload integrations v finalDate) cs cs' →
  platform <$> cs' = platform <$> cs
  ∧ accountId <$> cs' = accountId <$> cs
  ∧ metadata <$> cs' = metadata <$> cs
  ∧ Forall2 (λ c c', platform c = youtube → tokenFor integrations c ≠ None →
                     is_Some (externalId c')) cs cs'.
Proof.
  induction 1 as [|c c' cs cs' Hc _ (IH1 & IH2 & IH3 & IH4)];
    [repeat split; constructor|].
  rewrite !fmap_cons, IH1, IH2, IH3.
  destruct Hc as [[-> Hno] | (Hy & t & w0 & w1 & rid & Htok & _ & ->)].
  - repeat split. constructor; [|exact IH4].
    intros Hy Htok. destruct Hno; contradiction.
  - repeat split. constructor; [|exact IH4].
    intros _ _. eexists. reflexivity.
Qed.

Section DistributeMore.

Context {World : Type}.
Variable upload : World → string → string → YouTubeMetadata → option string → World * Outcome string.
Variables (integrations : list Integration) (v : VideoAsset) (finalDate : option string).

(** Entries that are not YouTube's, or whose account has no token, are
    passed over: no call, no change. *)
Lemma uploadLoop_nothing_to_upload
    (playlist : World → string → string → string → World * Outcome unit)
    (cs : list DistributionConfig) (w : World) :
  (∀ c, c ∈ cs → platform c ≠ youtube ∨ tokenFor integrations c = None) →
  uploadLoop upload playlist integrations v finalDate w cs = (w, cs, None).
Proof.
  induction cs as [|c cs IH]; intros Hall; [reflexivity|].
  cbn [uploadLoop].
  rewrite IH; [|intros c0 Hc0; apply Hall; right; exact Hc0].
  destruct (Hall c) as [Hne|Hno]; [left| |].
  - destruct (decide (platform c = youtube)); [contradiction|reflexivity].
  - rewrite Hno. destruct (decide (platform c = youtube)); reflexivity.
Qed.

(** X2.  Entries of platforms other than YouTube, and YouTube entries
    whose account has no stored token, never cause a remote call and
    are left as they are; a video that has only such entries is still
    handed to [markVideoAsProcessing].  With no entry at all nothing is
    sent and nothing is written. *)
Theorem distribute_without_upload
    (playlist : World → string → string → string → World * Outcome unit)
    (now : string) (configs : list (Platform * list DistributionConfig))
    (w : World) (db : Db) :
  (∀ c, c ∈ activeConfigs configs → platform c ≠ youtube ∨ tokenFor integrations c = None) →
  (activeConfigs configs = [] →
     handleConfirm upload playlist now integrations v configs finalDate w db
     = (w, db, [], NothingToSend))
  ∧ (activeConfigs configs ≠ [] →
     handleConfirm upload playlist now integrations v configs finalDate w db
     = (w, handleDistribute now db (videoId v) (activeConfigs configs) finalDate,
        activeConfigs configs, Distributed)).
Proof.
  intros Hall. unfold handleConfirm. split.
  - intros ->. reflexivity.
  - intros Hne.
    destruct (activeConfigs configs) as [|c cs] eqn:Ha; [contradiction|].
    cbn [length Nat.eqb]. rewrite <- Ha in Hall |- *.
    rewrite (uploadLoop_nothing_to_upload playlist _ w Hall). reflexivity.
Qed.

(** X4.  The outcome of a playlist call is ignored: two playlist
    services that leave the same world behind give the same run,
    whether their calls succeed or throw. *)
Theorem playlist_outcome_ignored
    (playlist1 playlist2 : World → string → string → string → World * Outcome unit)
    (now : string) (configs : list (Platform * list DistributionConfig))
    (w : World) (db : Db) :
  (∀ w0 token pl rid, (playlist1 w0 token pl rid).1 = (playlist2 w0 token pl rid).1) →
  handleConfirm upload playlist1 now integrations v configs finalDate w db
  = handleConfirm upload playlist2 now integrations v configs finalDate w db.
Proof.
  intros Hsame. unfold handleConfirm.
  assert (Hloop : ∀ cs w0,
            uploadLoop upload playlist1 integrations v finalDate w0 cs
            = uploadLoop upload playlist2 integrations v finalDate w0 cs).
  { induction cs as [|c cs IH]; intros w0; [reflexivity|].
    cbn [uploadLoop].
    destruct (decide (platform c = youtube)); [|rewrite IH; reflexivity].
    destruct (tokenFor integrations c) as [token|]; [|rewrite IH; reflexivity].
    destruct (upload w0 token (storagePath v) (uploadMetadata v c) finalDate)
      as [w1 [err|rid]]; [reflexivity|].
    destruct (playlistId (metadata c)) as [pl|]; [|rewrite IH; reflexivity].
    destruct (truthy_string pl); [|rewrite IH; reflexivity].
    rewrite Hsame, IH. reflexivity. }
  rewrite Hloop. reflexivity.
Qed.

(** X3.  When every upload succeeded, one write stores the whole
    outcome: the status is [scheduled] if a time was chosen and
    [published] otherwise, [scheduledDate] is that time or the time of
    the call, [platforms] is replaced by the platform of each entry in
    order (twice for two accounts of one platform), and the stored
    entries are the sent ones, with the same accounts and metadata and
    with an external id on every YouTube entry that has a token. *)
Theorem distribute_success_stored
    (playlist : World → string → string → string → World * Outcome unit)
    (now : string) (configs : list (Platform * list DistributionConfig))
    (w w' : World) (db db' : Db) (cs' : list DistributionConfig) (v0 : VideoAsset) :
  handleConfirm upload playlist now integrations v configs finalDate w db
  = (w', db', cs', Distributed) →
  videos db !! videoId v = Some v0 →
  ∃ v', videos db' !! videoId v = Some v'
    ∧ status v' = (if truthy_opt finalDate then scheduled else published)
    ∧ scheduledDate v' = (if truthy_opt finalDate then finalDate else Some now)
    ∧ platforms v' = Some (platform <$> activeConfigs configs)
    ∧ distributionConfig v' = Some cs'
    ∧ accountId <$> cs' = accountId <$> activeConfigs configs
    ∧ metadata <$> cs' = metadata <$> activeConfigs configs
    ∧ Forall2 (λ c c', platform c = youtube → tokenFor integrations c ≠ None →
                       is_Some (externalId c')) (activeConfigs configs) cs'
    ∧ projectId v' = projectId v0.
Proof.
  intros Hrun Hv0.
  destruct (distribute_success upload playlist integrations v finalDate now
              configs w w' db db' cs' Hrun) as [Hafter ->].
  destruct (entryAfter_same_target upload integrations v finalDate _ _ Hafter)
    as (Hp & Ha & Hm & Hid).
  destruct (markVideoAsProcessing_doc now db (videoId v) v0 cs' finalDate Hv0)
    as (db1 & Hmark & Hl).
  unfold handleDistribute. rewrite Hmark. simpl.
  eexists. split; [exact Hl|]. simpl. rewrite Hp. repeat split; assumption.
Qed.

End DistributeMore.

(** An Instagram and a TikTok entry: no call is recorded and the video
    is stored as published. *)
Lemma distribute_without_upload_witness :
  handleConfirm sampleUpload samplePlaylist sampleNow sampleIntegrations socialOnlyVideo
    (initialConfigs socialOnlyVideo) None [] socialOnlyDb
  = ([], handleDistribute sampleNow socialOnlyDb "v1"
           (activeConfigs (initialConfigs socialOnlyVideo)) None,
     activeConfigs (initialConfigs socialOnlyVideo), Distributed)
  ∧ status <$> videos (handleDistribute sampleNow socialOnlyDb "v1"
                         (activeConfigs (initialConfigs socialOnlyVideo)) None) !! "v1"
    = Some published.
Proof.
  split; [|reflexivity].
  apply (distribute_without_upload sampleUpload sampleIntegrations socialOnlyVideo None
           samplePlaylist sampleNow (initialConfigs socialOnlyVideo) [] socialOnlyDb).
  - intros c Hc. left.
    apply elem_of_cons in Hc as [->|Hc]; [discriminate|].
    apply list_elem_of_singleton in Hc as ->. discriminate.
  - discriminate.
Defined.

(** The entry bound to a playlist is uploaded and keeps its id whether
    the playlist call succeeds or throws. *)
Lemma playlist_outcome_ignored_witness :
  handleConfirm sampleUpload failingPlaylist sampleNow sampleIntegrations playlistVideo
    (initialConfigs playlistVideo) None [] playlistDb
  = handleConfirm sampleUpload samplePlaylist sampleNow sampleIntegrations playlistVideo
      (initialConfigs playlistVideo) None [] playlistDb
  ∧ (handleConfirm sampleUpload failingPlaylist sampleNow sampleIntegrations playlistVideo
       (initialConfigs playlistVideo) None [] playlistDb).2
    = Distributed.
Proof.
  split; [|reflexivity].
  apply (playlist_outcome_ignored sampleUpload sampleIntegrations playlistVideo None
           failingPlaylist samplePlaylist sampleNow).
  reflexivity.
Defined.

(** Two accounts of one platform, both uploads succeeding: the stored
    platforms list names YouTube twice. *)
Lemma distribute_success_stored_witness :
  ∃ w' db' cs' v',
    handleConfirm (λ w token path m d, (w ++ ["upload " +:+ token], Returned ("yt-" +:+ token)))
      samplePlaylist sampleNow sampleIntegrations twoAccountVideo
      (initialConfigs twoAccountVideo) (Some "2026-05-01T08:00:00.000Z") [] twoAccountDb
    = (w', db', cs', Distributed)
    ∧ videos db' !! "v1" = Some v'
    ∧ status v' = scheduled
    ∧ scheduledDate v' = Some "2026-05-01T08:00:00.000Z"
    ∧ platforms v' = Some [youtube; youtube]
    ∧ externalId <$> cs' = [Some "yt-token-a"; Some "yt-token-b"].
Proof.
  eexists _, _, _.
  assert (Hrun : handleConfirm
            (λ (w : list string) token (path : string) (m : YouTubeMetadata) (d : option string),
               (w ++ ["upload " +:+ token], Returned ("yt-" +:+ token)))
            samplePlaylist sampleNow sampleIntegrations twoAccountVideo
            (initialConfigs twoAccountVideo) (Some "2026-05-01T08:00:00.000Z") [] twoAccountDb
          = (_, _, _, Distributed)) by reflexivity.
  destruct (distribute_success_stored _ sampleIntegrations twoAccountVideo
              (Some "2026-05-01T08:00:00.000Z") samplePlaylist sampleNow
              (initialConfigs twoAccountVideo) [] _ twoAccountDb _ _ twoAccountVideo
              Hrun eq_refl)
    as (v' & Hl & Hs & Hd & Hp & _).
  exists v'. split; [exact Hrun|]. split; [exact Hl|]. split; [exact Hs|].
  split; [exact Hd|]. split; [exact Hp|]. reflexivity.
Defined.

(** ** From the YouTube form to the upload request *)

Lemma split_nonempty (sep : ascii) (s : string) : split sep s ≠ [].
Proof.
  destruct s as [|a r]; simpl; [discriminate|].
  destruct (Ascii.eqb a sep); [discriminate|].
  destruct (split sep r); discriminate.
Qed.

(** Without a separator in it a string is its only piece. *)
Lemma split_no_separator (sep : ascii) (s : string) :
  occurs sep s = false → split sep s = [s].
Proof.
  induction s as [|a r IH]; simpl; [reflexivity|].
  intros H. apply orb_false_iff in H as [Ha Hr].
  rewrite Ha, (IH Hr). reflexivity.
Qed.

(** A first piece without a separator, followed by the separator. *)
Lemma split_first_piece (sep : ascii) (x r : string) :
  occurs sep x = false →
  split sep (x +:+ String sep r) = x :: split sep r.
Proof.
  induction x as [|a x IH]; simpl.
  - intros _. rewrite Ascii.eqb_refl. reflexivity.
  - intros H. apply orb_false_iff in H as [Ha Hx].
    rewrite Ha, (IH Hx). reflexivity.
Qed.

(** A leading blank goes to the first piece and is trimmed away. *)
Lemma split_leading_space (r : string) :
  trim <$> split "," (String " " r) = trim <$> split "," r.
Proof.
  cbn [split]. change (Ascii.eqb " " ",") with false. cbv iota.
  destruct (split "," r) as [|w ws] eqn:Hs; [exfalso; exact (split_nonempty _ _ Hs)|].
  rewrite !fmap_cons. reflexivity.
Qed.

Lemma concat_cons2 (sep x y : string) (l : list string) :
  String.concat sep (x :: y :: l) = x +:+ sep +:+ String.concat sep (y :: l).
Proof. reflexivity. Qed.

(** Joining with ", " and splitting on "," gives the tags back, up to
    trimming. *)
Lemma split_join_tags (l : list string) :
  l ≠ [] → Forall (λ t, occurs "," t = false) l →
  trim <$> split "," (String.concat ", " l) = trim <$> l.
Proof.
  induction l as [|x l IH]; intros Hne Hall; [contradiction|].
  inversion Hall as [|? ? Hx Hl]; subst.
  destruct l as [|y l].
  - cbn [String.concat]. rewrite (split_no_separator _ _ Hx). reflexivity.
  - rewrite concat_cons2.
    change (x +:+ ", " +:+ String.concat ", " (y :: l))
      with (x +:+ String "," (String " " (String.concat ", " (y :: l)))).
    rewrite (split_first_piece _ _ _ Hx), !fmap_cons, split_leading_space.
    rewrite IH; [reflexivity|discriminate|exact Hl].
Qed.

Lemma concat_tags_empty (l : list string) :
  String.concat ", " l = "" → l = [] ∨ l = [""].
Proof.
  destruct l as [|x [|y l]]; [left; reflexivity| |].
  - cbn [String.concat]. intros ->. right. reflexivity.
  - rewrite concat_cons2. destruct x; discriminate.
Qed.

(** X5.  What is uploaded for an account that was just toggled on is
    the YouTube form of the modal: its title (the video's title when
    the form's is empty), its description, its category ("22" when
    empty), and its tags, each trimmed, provided no tag contains a
    comma and the tag list is not the single empty tag (which is sent
    as no tag at all). *)
Theorem upload_metadata_from_form (st : State) (acc : string) (v : VideoAsset) :
  Forall (λ t, occurs "," t = false) (ytTags (ytData st)) →
  ytTags (ytData st) ≠ [""] →
  uploadMetadata v (newConfig st youtube acc)
  = {| ytTitle := if truthy_string (ytTitle (ytData st)) then ytTitle (ytData st)
                  else videoTitle v;
       ytDescription := ytDescription (ytData st);
       ytTags := trim <$> ytTags (ytData st);
       ytCategoryId := if truthy_string (ytCategoryId (ytData st))
                       then ytCategoryId (ytData st) else "22";
       ytPlaylistId := None;
       ytPrivacyStatus := "public" |}.
Proof.
  intros Hall Hne. unfold uploadMetadata, newConfig, seedMetadata. simpl.
  f_equal.
  - destruct (ytDescription (ytData st)); reflexivity.
  - destruct (truthy_string (String.concat ", " (ytTags (ytData st)))) eqn:Ht.
    + apply split_join_tags; [|exact Hall].
      intros Hnil. rewrite Hnil in Ht. discriminate.
    + assert (Hc : String.concat ", " (ytTags (ytData st)) = "")
        by (destruct (String.concat ", " (ytTags (ytData st))); [reflexivity|discriminate]).
      destruct (concat_tags_empty _ Hc) as [-> | Hone]; [reflexivity|contradiction].
Qed.

(** The filled sample form, with a tag that contains a blank, and the
    form with a tag between two no-break spaces. *)
Lemma upload_metadata_from_form_witness :
  uploadMetadata formVideo (newConfig (stateOf formVideo [youtube] []) youtube "acc1")
  = {| ytTitle := "Spring drop"; ytDescription := "Out on Friday";
       ytTags := ["launch"; "spring sale"]; ytCategoryId := "22";
       ytPlaylistId := None; ytPrivacyStatus := "public" |}
  ∧ uploadMetadata nbspTagVideo
      (newConfig (stateOf nbspTagVideo [youtube] []) youtube "acc1")
    = {| ytTitle := "Spring drop"; ytDescription := "Out on Friday";
         ytTags := ["launch"; "sale"]; ytCategoryId := "22";
         ytPlaylistId := None; ytPrivacyStatus := "public" |}.
Proof.
  split.
  - apply (upload_metadata_from_form (stateOf formVideo [youtube] []) "acc1" formVideo).
    + repeat constructor.
    + discriminate.
  - apply (upload_metadata_from_form (stateOf nbspTagVideo [youtube] []) "acc1"
             nbspTagVideo).
    + repeat constructor.
    + discriminate.
Defined.

(** X6.  The request posted for an upload never carries more than 100
    UTF-16 code units of title or 5000 of description, each being the
    start of the given text and the whole text when it fits; its
    category is never empty; with a schedule time it is private and
    carries that time as [publishAt], and without one it carries no
    [publishAt] and the privacy of the metadata, which for the metadata
    the distribution modal prepares is public. *)
Theorem upload_request_bounds (token path : string) (m : YouTubeMetadata)
    (date : option string) (v : VideoAsset) (c : DistributionConfig) :
  (length (reqTitle (requestBody token path m date)) ≤ 100)%nat
  ∧ (length (reqDescription (requestBody token path m date)) ≤ 5000)%nat
  ∧ (∃ r, utf16 (ytTitle m) = reqTitle (requestBody token path m date) ++ r)
  ∧ (∃ r, utf16 (ytDescription m) = reqDescription (requestBody token path m date) ++ r)
  ∧ ((length (utf16 (ytTitle m)) ≤ 100)%nat →
     reqTitle (requestBody token path m date) = utf16 (ytTitle m))
  ∧ ((length (utf16 (ytDescription m)) ≤ 5000)%nat →
     reqDescription (requestBody token path m date) = utf16 (ytDescription m))
  ∧ reqCategoryId (requestBody token path m date) ≠ ""
  ∧ (truthy_opt date = true →
     reqPrivacyStatus (requestBody token path m date) = "private"
     ∧ reqPublishAt (requestBody token path m date) = date)
  ∧ (truthy_opt date = false →
     reqPublishAt (requestBody token path m date) = None
     ∧ reqPrivacyStatus (requestBody token path (uploadMetadata v c) date) = "public").
Proof.
  unfold requestBody.
  cbn [reqTitle reqDescription reqCategoryId reqPrivacyStatus reqPublishAt].
  split; [rewrite length_take; lia|]. split; [rewrite length_take; lia|].
  split; [eexists; symmetry; apply take_drop|].
  split; [eexists; symmetry; apply take_drop|].
  split; [apply take_ge|]. split; [apply take_ge|].
  split; [destruct (ytCategoryId m); simpl; discriminate|].
  unfold or_null. split; intros ->; split; reflexivity.
Qed.

(** A title of 100 accented characters, which takes 140 bytes, is
    posted whole; a description of 120 characters fits; a title of 99
    letters followed by a character outside the basic plane is cut
    inside that character; a scheduled upload is private, an immediate
    one from the modal public. *)
Lemma upload_request_bounds_witness :
  let accented := String.concat "" (replicate 20 "ação ") in
  let long := String.concat "" (replicate 12 "0123456789") in
  let m := {| ytTitle := accented; ytDescription := long; ytTags := [];
              ytCategoryId := ""; ytPlaylistId := None; ytPrivacyStatus := "unlisted" |} in
  let m2 := {| ytTitle := String.concat "" (replicate 99 "a") +:+ "😀";
               ytDescription := ""; ytTags := [];
               ytCategoryId := ""; ytPlaylistId := None; ytPrivacyStatus := "" |} in
  String.length accented = 140%nat
  ∧ reqTitle (requestBody "token-a" "p" m None) = utf16 accented
  ∧ length (reqTitle (requestBody "token-a" "p" m None)) = 100%nat
  ∧ reqDescription (requestBody "token-a" "p" m None) = utf16 long
  ∧ reqTitle (requestBody "token-a" "p" m2 None) = replicate 99 97%N ++ [0xD83D%N]
  ∧ reqTitle (requestBody "token-a" "p" (uploadMetadata sampleVideo (ytEntry "acc1")) None)
    = utf16 "Launch clip"
  ∧ reqPrivacyStatus (requestBody "token-a" "p" m (Some "2026-05-01T08:00:00.000Z")) = "private"
  ∧ reqPrivacyStatus
      (requestBody "token-a" "p" (uploadMetadata sampleVideo (ytEntry "acc1")) None)
    = "public".
Proof.
  intros accented long m m2.
  destruct (upload_request_bounds "token-a" "p" m None sampleVideo (ytEntry "acc1"))
    as (_ & _ & _ & _ & H5 & H6 & _ & _ & H9).
  destruct (upload_request_bounds "token-a" "p" m (Some "2026-05-01T08:00:00.000Z")
              sampleVideo (ytEntry "acc1"))
    as (_ & _ & _ & _ & _ & _ & _ & H8 & _).
  split; [reflexivity|].
  split; [apply H5; vm_compute; lia|].
  split; [vm_compute; reflexivity|].
  split; [apply H6; vm_compute; lia|].
  split; [vm_compute; reflexivity|].
  split; [reflexivity|].
  split; [apply H8; reflexivity|]. apply H9. reflexivity.
Defined.

(** ** The delete adapter *)

Section DeleteAdapter.

Context {World : Type}.
Variable fetchDelete : World → string → string → World * Outcome (Z * string).

(** X7.  Deleting a remote video makes exactly one request, and it
    succeeds exactly when that request was answered with status 404 or
    with a status from 200 to 299; a rejected request is reported with
    its own error and any other status as a failed deletion carrying
    that status and the response text. *)
Theorem delete_video_outcome (w : World) (token rid : string) :
  (deleteVideoFromYouTube fetchDelete w token rid).1 = (fetchDelete w token rid).1
  ∧ ((deleteVideoFromYouTube fetchDelete w token rid).2 = Returned ()
     ↔ ∃ code body, (fetchDelete w token rid).2 = Returned (code, body)
         ∧ (code = 404 ∨ 200 ≤ code ≤ 299)%Z)
  ∧ (∀ e, (fetchDelete w token rid).2 = Threw e →
       (deleteVideoFromYouTube fetchDelete w token rid).2 = Threw e)
  ∧ (∀ code body, (fetchDelete w token rid).2 = Returned (code, body) →
       ¬ (code = 404 ∨ 200 ≤ code ≤ 299)%Z →
       (deleteVideoFromYouTube fetchDelete w token rid).2 = Threw (DeleteFailed code body)).
Proof.
  unfold deleteVideoFromYouTube, responseOk.
  destruct (fetchDelete w token rid) as [w' [e|[code body]]]; simpl.
  - split; [reflexivity|]. split.
    + split; [discriminate|]. intros (c0 & b0 & H & _). discriminate.
    + split; [intros e0 [= <-]; reflexivity|]. intros c0 b0 H. discriminate.
  - destruct (code =? 404)%Z eqn:E404.
    { apply Z.eqb_eq in E404 as ->. split; [reflexivity|]. split.
      - split; [|reflexivity]. intros _. exists 404%Z, body. split; [reflexivity|lia].
      - split; [discriminate|]. intros c0 b0 [= <- <-] Hn. exfalso. apply Hn. lia. }
    apply Z.eqb_neq in E404.
    destruct ((200 <=? code)%Z && (code <=? 299)%Z) eqn:Eok; simpl.
    + apply andb_true_iff in Eok as [H1 H2]. apply Z.leb_le in H1, H2.
      split; [reflexivity|]. split.
      * split; [|reflexivity]. intros _. exists code, body. split; [reflexivity|lia].
      * split; [discriminate|]. intros c0 b0 [= <- <-] Hn. exfalso. apply Hn. lia.
    + split; [reflexivity|]. split.
      * split; [discriminate|]. intros (c0 & b0 & [= <- <-] & Hc).
        apply andb_false_iff in Eok as [H|H]; apply Z.leb_gt in H; lia.
      * split; [discriminate|]. intros c0 b0 [= <- <-] _. reflexivity.
Qed.

End DeleteAdapter.

(** A deletion answered with 204 succeeds after one request; one
    answered with 500 fails with that status. *)
Lemma delete_video_outcome_witness :
  deleteVideoFromYouTube (sampleFetchDelete 204) [] "token-a" "yt-111"
  = (["delete yt-111"], Returned ())
  ∧ (deleteVideoFromYouTube (sampleFetchDelete 500) [] "token-a" "yt-111").2
    = Threw (DeleteFailed 500 "").
Proof.
  destruct (delete_video_outcome (sampleFetchDelete 204) [] "token-a" "yt-111")
    as (Hw & Hok & _).
  destruct (delete_video_outcome (sampleFetchDelete 500) [] "token-a" "yt-111")
    as (_ & _ & _ & Hbad).
  split.
  - destruct (deleteVideoFromYouTube (sampleFetchDelete 204) [] "token-a" "yt-111")
      as [w' r] eqn:E. simpl in Hw, Hok. rewrite Hw.
    f_equal. apply Hok. exists 204%Z, "". split; [reflexivity|lia].
  - apply (Hbad 500%Z ""); [reflexivity|lia].
Defined.

(** ** The status operations on the store *)

(** The five operations that move a video between statuses; [now],
    the entries and the date only matter to the distribute. *)
Lemma cancelVideoScheduling_unfold (db : Db) (vid : string) :
  cancelVideoScheduling db vid
  = (db1 ← updateVideoDoc db vid
             (λ v, with_distributionConfig
                     (with_scheduledDate (with_status v approved) None)
                     (Some (match videos db !! vid with
                            | Some v0 => stripExternalId <$> default [] (distributionConfig v0)
                            | None => []
                            end)));
     Some (recalculateFor db1 vid)).
Proof.
  unfold cancelVideoScheduling, updateVideoDoc, recalculateFor.
  destruct (videos db !! vid) as [v|] eqn:Hv; [|reflexivity].
  simpl. rewrite lookup_insert_eq. reflexivity.
Qed.

(** An update of one video followed by the recomputation for it. *)
Lemma update_then_recalculate (db : Db) (vid : string) (v : VideoAsset)
    (f : VideoAsset → VideoAsset) :
  videos db !! vid = Some v →
  projectId (f v) = projectId v →
  ∃ db', (db1 ← updateVideoDoc db vid f; Some (recalculateFor db1 vid)) = Some db'
    ∧ videos db' = <[vid := f v]> (videos db)
    ∧ (∀ pid p, projectId v = Some pid → truthy_string pid = true →
         projects db !! pid = Some p →
         projects db' !! pid
         = Some {| projectName := projectName p;
                   videoCount := length (projectVideos db' pid);
                   stats := Some (computeStats (projectVideos db' pid)) |})
    ∧ (∀ pid, projectId v ≠ Some pid → projects db' !! pid = projects db !! pid).
Proof.
  intros Hv Hpid. rewrite (updateVideoDoc_exists _ _ _ _ Hv). simpl.
  eexists. split; [reflexivity|].
  split; [rewrite recalculateFor_videos; reflexivity|].
  unfold recalculateFor. simpl. rewrite lookup_insert_eq, Hpid.
  split.
  - intros pid p Hp Ht Hproj. rewrite Hp, Ht.
    apply recalculateProjectStats_fresh. exact Hproj.
  - intros pid Hne. destruct (projectId v) as [pid0|]; [|reflexivity].
    destruct (truthy_string pid0); [|reflexivity].
    unfold recalculateProjectStats, updateProjectDoc. simpl.
    destruct (projects db !! pid0); [|reflexivity]. simpl.
    apply lookup_insert_ne. congruence.
Qed.

(** X13.  Each status operation re-establishes the stats of the
    video's project: after an approve, a dismiss, an unapprove, a
    distribute or a cancel on an existing video of an existing project,
    the project record holds the counts of its videos as they now are
    in the store, under the same name. *)
Theorem status_operations_keep_stats_fresh (now : string) (cs : list DistributionConfig)
    (date : option string) (op : Db → string → option Db)
    (db : Db) (vid pid : string) (v : VideoAsset) (p : Project) :
  op ∈ [approveVideo; dismissVideo; unapproveVideo;
        (λ db vid, markVideoAsProcessing now db vid cs date); cancelVideoScheduling] →
  videos db !! vid = Some v →
  projectId v = Some pid → truthy_string pid = true →
  projects db !! pid = Some p →
  ∃ db', op db vid = Some db'
    ∧ projects db' !! pid
      = Some {| projectName := projectName p;
                videoCount := length (projectVideos db' pid);
                stats := Some (computeStats (projectVideos db' pid)) |}.
Proof.
  intros Hop Hv Hpid Ht Hp.
  assert (Hgen : ∀ f, projectId (f v) = projectId v →
            ∃ db', (db1 ← updateVideoDoc db vid f; Some (recalculateFor db1 vid)) = Some db'
              ∧ projects db' !! pid
                = Some {| projectName := projectName p;
                          videoCount := length (projectVideos db' pid);
                          stats := Some (computeStats (projectVideos db' pid)) |}).
  { intros f Hf. destruct (update_then_recalculate db vid v f Hv Hf) as (db' & Hrun & _ & Hs & _).
    exists db'. split; [exact Hrun|]. exact (Hs pid p Hpid Ht Hp). }
  rewrite !elem_of_cons in Hop.
  destruct Hop as [-> | [-> | [-> | [-> | [-> | Hop]]]]]; [| | | | |inversion Hop].
  - apply Hgen. reflexivity.
  - apply Hgen. reflexivity.
  - apply Hgen. reflexivity.
  - apply Hgen. reflexivity.
  - rewrite cancelVideoScheduling_unfold. apply Hgen. reflexivity.
Qed.

(** X12.  A status operation touches one video and one project: every
    other video document and every project other than the video's own
    is left exactly as it was, and the video keeps its identity, its
    project, its title, its file and its metadata containers. *)
Theorem status_operations_frame (now : string) (cs : list DistributionConfig)
    (date : option string) (op : Db → string → option Db)
    (db : Db) (vid : string) (v : VideoAsset) :
  op ∈ [approveVideo; dismissVideo; unapproveVideo;
        (λ db vid, markVideoAsProcessing now db vid cs date); cancelVideoScheduling] →
  videos db !! vid = Some v →
  ∃ db' v', op db vid = Some db'
    ∧ videos db' !! vid = Some v'
    ∧ (∀ vid', vid' ≠ vid → videos db' !! vid' = videos db !! vid')
    ∧ (∀ pid, projectId v ≠ Some pid → projects db' !! pid = projects db !! pid)
    ∧ dom (projects db') = dom (projects db)
    ∧ videoId v' = videoId v ∧ projectId v' = projectId v
    ∧ videoTitle v' = videoTitle v ∧ storagePath v' = storagePath v
    ∧ format v' = format v
    ∧ youtubeMetadata v' = youtubeMetadata v
    ∧ instagramMetadata v' = instagramMetadata v
    ∧ tiktokMetadata v' = tiktokMetadata v.
Proof.
  intros Hop Hv.
  assert (Hgen : ∀ f, projectId (f v) = projectId v →
            ∃ db', (db1 ← updateVideoDoc db vid f; Some (recalculateFor db1 vid)) = Some db'
              ∧ videos db' !! vid = Some (f v)
              ∧ (∀ vid', vid' ≠ vid → videos db' !! vid' = videos db !! vid')
              ∧ (∀ pid, projectId v ≠ Some pid → projects db' !! pid = projects db !! pid)
              ∧ dom (projects db') = dom (projects db)).
  { intros f Hf.
    destruct (update_then_recalculate db vid v f Hv Hf) as (db' & Hrun & Hvs & _ & Hother).
    exists db'. split; [exact Hrun|]. rewrite Hvs.
    split; [apply lookup_insert_eq|].
    split; [intros vid' Hne; apply lookup_insert_ne; congruence|].
    split; [exact Hother|].
    rewrite (updateVideoDoc_exists _ _ _ _ Hv) in Hrun. simpl in Hrun.
    injection Hrun as <-. unfold recalculateFor. simpl.
    rewrite lookup_insert_eq.
    destruct (projectId (f v)) as [pid0|]; [|reflexivity].
    destruct (truthy_string pid0); [|reflexivity].
    unfold recalculateProjectStats, updateProjectDoc. simpl.
    destruct (projects db !! pid0) as [p0|] eqn:Hp0; [|reflexivity]. simpl.
    apply dom_insert_lookup_L. eexists. exact Hp0. }
  rewrite !elem_of_cons in Hop.
  destruct Hop as [-> | [-> | [-> | [-> | [-> | Hop]]]]]; [| | | | |inversion Hop].
  - unfold approveVideo.
    destruct (Hgen (λ v, with_status v approved) eq_refl) as (db' & Hrun & Hl & H1 & H2 & H3).
    exists db'. eexists. split; [exact Hrun|]. split; [exact Hl|]. repeat split; assumption.
  - unfold dismissVideo.
    destruct (Hgen (λ v, with_status v dismissed) eq_refl) as (db' & Hrun & Hl & H1 & H2 & H3).
    exists db'. eexists. split; [exact Hrun|]. split; [exact Hl|]. repeat split; assumption.
  - unfold unapproveVideo.
    destruct (Hgen (λ v, with_status v pending) eq_refl) as (db' & Hrun & Hl & H1 & H2 & H3).
    exists db'. eexists. split; [exact Hrun|]. split; [exact Hl|]. repeat split; assumption.
  - unfold markVideoAsProcessing.
    match goal with |- context [updateVideoDoc _ _ ?f] =>
      destruct (Hgen f eq_refl) as (db' & Hrun & Hl & H1 & H2 & H3)
    end.
    exists db'. eexists. split; [exact Hrun|]. split; [exact Hl|]. repeat split; assumption.
  - rewrite cancelVideoScheduling_unfold.
    match goal with |- context [updateVideoDoc _ _ ?f] =>
      destruct (Hgen f eq_refl) as (db' & Hrun & Hl & H1 & H2 & H3)
    end.
    exists db'. eexists. split; [exact Hrun|]. split; [exact Hl|]. repeat split; assumption.
Qed.

(** X11.  The store operations need the video document: on a video
    that does not exist each of them is rejected and the handlers
    built on them leave the store as it is.  The handlers that update
    the modal after the store call (approve, dismiss, restore, save,
    and the platform switch with its rollback) then show no change.
    The account toggle and the sub-type choice update the modal before
    the call: they show the account as toggled and the sub-type as
    chosen although nothing was stored, and the video held by the
    modal keeps its old entries. *)
Theorem operations_need_the_document (now : string) (cs : list DistributionConfig)
    (date : option string) (db : Db) (st : State) (ps : list Platform) (p : Platform)
    (isActive : bool) (acc : string) (t : PostType) :
  videos db !! videoId (localVideo st) = None →
  approveVideo db (videoId (localVideo st)) = None
  ∧ dismissVideo db (videoId (localVideo st)) = None
  ∧ unapproveVideo db (videoId (localVideo st)) = None
  ∧ markVideoAsProcessing now db (videoId (localVideo st)) cs date = None
  ∧ cancelVideoScheduling db (videoId (localVideo st)) = None
  ∧ updateVideoPlatforms db (videoId (localVideo st)) ps = None
  ∧ updateVideoDistributionConfig db (videoId (localVideo st)) cs = None
  ∧ handleDistribute now db (videoId (localVideo st)) cs date = db
  ∧ confirmApprove db st = (db, setShowApproveModal st false)
  ∧ handleDismiss db st = (db, st)
  ∧ handleRestore db st = (db, st)
  ∧ handleSavePlatformData db st p = (db, st)
  ∧ (togglePlatformActive db st p isActive).1 = db
  ∧ selectedPlatforms (togglePlatformActive db st p isActive).2 = selectedPlatforms st
  ∧ localVideo (togglePlatformActive db st p isActive).2 = localVideo st
  ∧ toggleAccountSelection db st p acc
    = (db, setDistributionConfigs st (toggledConfigs st p acc))
  ∧ isAccountSelected (toggleAccountSelection db st p acc).2 p acc
    = negb (isAccountSelected st p acc)
  ∧ localVideo (toggleAccountSelection db st p acc).2 = localVideo st
  ∧ updatePostTypeForPlatform db st p t
    = (db, setDistributionConfigs
             (setPlatformSettings st (setSettingsPostType (platformSettings st) p t))
             ((λ c, if decide (platform c = p) then with_postType c t else c)
                <$> distributionConfigs st))
  ∧ settingsPostType (platformSettings (updatePostTypeForPlatform db st p t).2) p = t
  ∧ localVideo (updatePostTypeForPlatform db st p t).2 = localVideo st.
Proof.
  intros Hmiss.
  assert (Hup : ∀ f, updateVideoDoc db (videoId (localVideo st)) f = None)
    by (intros f; unfold updateVideoDoc; rewrite Hmiss; reflexivity).
  unfold approveVideo, dismissVideo, unapproveVideo, markVideoAsProcessing,
    updateVideoPlatforms, updateVideoDistributionConfig, handleDistribute, confirmApprove,
    handleDismiss, handleRestore, handleSavePlatformData, togglePlatformActive,
    toggleAccountSelection, updatePostTypeForPlatform, saveDistributionConfigs,
    updateVideoMetadata, dismissVideo, unapproveVideo, markVideoAsProcessing,
    updateVideoPlatforms, updateVideoDistributionConfig.
  cbn [localVideo setPlatformSettings].
  rewrite cancelVideoScheduling_unfold, !Hup.
  cbn [fst snd localVideo setDistributionConfigs setPlatformSettings platformSettings].
  repeat (split; [reflexivity|]).
  split; [|split; [reflexivity|]; split; [reflexivity|];
           split; [apply settingsPostType_set|reflexivity]].
  destruct (isAccountSelected st p acc) eqn:Hsel; cbn [negb].
  - apply not_true_iff_false. intros Hnow.
    apply isAccountSelected_spec in Hnow as (c & Hin & Hp & Hacc).
    cbn [distributionConfigs setDistributionConfigs] in Hin.
    unfold toggledConfigs in Hin. rewrite Hsel in Hin.
    apply list_elem_of_filter in Hin as [Hnot _]. apply Hnot. split; assumption.
  - apply isAccountSelected_spec. exists (newConfig st p acc).
    cbn [distributionConfigs setDistributionConfigs].
    unfold toggledConfigs. rewrite Hsel.
    split; [apply elem_of_app; right; apply list_elem_of_singleton; reflexivity|].
    split; reflexivity.
Qed.

(** The sample video approved in the sample store: the project then
    counts one approved video. *)
Lemma status_operations_keep_stats_fresh_witness :
  ∃ db', approveVideo sampleDb "v1" = Some db'
    ∧ stats <$> projects db' !! "p1"
      = Some (Some {| total := 1; pendingReview := 0; approvedCount := 1;
                      scheduledOrPublished := 0; discarded := 0 |}).
Proof.
  destruct (status_operations_keep_stats_fresh sampleNow [] None approveVideo
              sampleDb "v1" "p1" sampleVideo sampleProject)
    as (db' & Hrun & Hs); try reflexivity; [left|].
  exists db'. split; [exact Hrun|]. rewrite Hs. simpl. do 2 f_equal.
  injection Hrun as <-. reflexivity.
Defined.

(** Dismissing the approved video of a store that also holds a
    published one leaves the published one alone. *)
Lemma status_operations_frame_witness :
  ∃ db', dismissVideo twoVideoDb "v1" = Some db'
    ∧ videos db' !! "v2" = Some publishedVideo
    ∧ status <$> videos db' !! "v1" = Some dismissed.
Proof.
  destruct (status_operations_frame sampleNow [] None dismissVideo twoVideoDb "v1"
              approvedVideo)
    as (db' & v' & Hrun & Hl & Hother & _); [right; left|reflexivity|].
  exists db'. split; [exact Hrun|]. split.
  - rewrite (Hother "v2"); [reflexivity|discriminate].
  - injection Hrun as <-. reflexivity.
Defined.

(** A modal opened on a video that is not in the store. *)
Lemma operations_need_the_document_witness :
  let st := stateOf (with_status publishedVideo pending) [youtube] [] in
  approveVideo sampleDb "v2" = None
  ∧ confirmApprove sampleDb st = (sampleDb, setShowApproveModal st false)
  ∧ selectedPlatforms (togglePlatformActive sampleDb st instagram true).2 = [youtube]
  ∧ (toggleAccountSelection sampleDb st instagram "acc1").1 = sampleDb
  ∧ isAccountSelected (toggleAccountSelection sampleDb st instagram "acc1").2 instagram "acc1"
    = true
  ∧ distributionConfig (localVideo (toggleAccountSelection sampleDb st instagram "acc1").2)
    = None.
Proof.
  intros st.
  destruct (operations_need_the_document sampleNow [] None sampleDb st [] instagram true
              "acc1" story eq_refl)
    as (H1 & _ & _ & _ & _ & _ & _ & _ & H9 & _ & _ & _ & _ & H14 & _ & H16 & H17 & H18 & _).
  split; [exact H1|]. split; [exact H9|]. split; [exact H14|].
  split; [rewrite H16; reflexivity|]. split; [exact H17|].
  rewrite H18. reflexivity.
Defined.

(** ** How the status operations compose *)

(** X14.  Restoring a dismissed video makes it [pending], whatever its
    status was before it was dismissed: after a dismiss followed by a
    restore the stored video and the one shown in the modal are the
    original ones with status [pending] and nothing else changed. *)
Theorem dismiss_then_restore (db : Db) (st : State) (v : VideoAsset) :
  videos db !! videoId (localVideo st) = Some v →
  let r1 := handleDismiss db st in
  let r2 := handleRestore r1.1 r1.2 in
  videos r1.1 !! videoId (localVideo st) = Some (with_status v dismissed)
  ∧ localVideo r1.2 = with_status (localVideo st) dismissed
  ∧ videos r2.1 !! videoId (localVideo st) = Some (with_status v pending)
  ∧ videos r2.1 = <[videoId (localVideo st) := with_status v pending]> (videos db)
  ∧ localVideo r2.2 = with_status (localVideo st) pending
  ∧ distributionConfigs r2.2 = distributionConfigs st
  ∧ selectedPlatforms r2.2 = selectedPlatforms st.
Proof.
  intros Hv r1 r2. subst r1 r2. unfold handleDismiss, dismissVideo.
  destruct (update_then_recalculate db _ v (λ v, with_status v dismissed) Hv eq_refl)
    as (db1 & Hrun1 & Hvs1 & _).
  rewrite Hrun1. cbn [fst snd].
  assert (Hv1 : videos db1 !! videoId (localVideo st) = Some (with_status v dismissed))
    by (rewrite Hvs1; apply lookup_insert_eq).
  unfold handleRestore, unapproveVideo. cbn [localVideo setLocalVideo with_status videoId].
  destruct (update_then_recalculate db1 _ _ (λ v, with_status v pending) Hv1 eq_refl)
    as (db2 & Hrun2 & Hvs2 & _).
  rewrite Hrun2. cbn [fst snd].
  split; [exact Hv1|]. split; [reflexivity|].
  split; [rewrite Hvs2; apply lookup_insert_eq|].
  split; [rewrite Hvs2, Hvs1; apply insert_insert_eq|].
  repeat split.
Qed.

(** The approved sample video, dismissed and restored: it is pending. *)
Lemma dismiss_then_restore_witness :
  let st := stateOf approvedVideo [youtube] [ytEntry "acc1"] in
  let r1 := handleDismiss approvedDb st in
  let r2 := handleRestore r1.1 r1.2 in
  status approvedVideo = approved
  ∧ videos r2.1 !! "v1" = Some (with_status approvedVideo pending).
Proof.
  intros st r1 r2. split; [reflexivity|].
  destruct (dismiss_then_restore approvedDb st approvedVideo eq_refl)
    as (_ & _ & H & _).
  exact H.
Defined.

Lemma markVideoAsProcessing_videos (now : string) (db : Db) (vid : string) (v : VideoAsset)
    (cs : list DistributionConfig) (date : option string) :
  videos db !! vid = Some v →
  ∃ db', markVideoAsProcessing now db vid cs date = Some db'
    ∧ videos db'
      = <[vid := with_scheduledDate
                   (with_distributionConfig
                      (with_platforms
                         (with_status v (if truthy_opt date then scheduled else published))
                         (Some (platform <$> cs)))
                      (Some cs))
                   (if truthy_opt date then date else Some now)]> (videos db).
Proof.
  intros Hv. unfold markVideoAsProcessing.
  rewrite (updateVideoDoc_exists _ _ _ _ Hv). cbn [mbind option_bind].
  eexists. split; [reflexivity|]. rewrite recalculateFor_videos. reflexivity.
Qed.

Lemma cancelVideoScheduling_videos (db : Db) (vid : string) (v : VideoAsset) :
  videos db !! vid = Some v →
  ∃ db', cancelVideoScheduling db vid = Some db'
    ∧ videos db'
      = <[vid := with_distributionConfig
                   (with_scheduledDate (with_status v approved) None)
                   (Some (stripExternalId <$> default [] (distributionConfig v)))]>
          (videos db).
Proof.
  intros Hv. rewrite cancelVideoScheduling_unfold, Hv.
  rewrite (updateVideoDoc_exists _ _ _ _ Hv). cbn [mbind option_bind].
  eexists. split; [reflexivity|]. rewrite recalculateFor_videos. reflexivity.
Qed.

(** X15.  Distributing a video and then cancelling the schedule
    returns it to [approved] without a date, with the sent entries
    stripped of their external ids; the platforms list written by the
    distribute stays, and nothing else of the video changes. *)
Theorem distribute_then_cancel (now : string) (db : Db) (vid : string) (v : VideoAsset)
    (cs : list DistributionConfig) (date : option string) :
  videos db !! vid = Some v →
  ∃ db1 db2 v',
    markVideoAsProcessing now db vid cs date = Some db1
    ∧ cancelVideoScheduling db1 vid = Some db2
    ∧ videos db2 !! vid = Some v'
    ∧ v' = with_distributionConfig
             (with_platforms (with_scheduledDate (with_status v approved) None)
                (Some (platform <$> cs)))
             (Some (stripExternalId <$> cs))
    ∧ (∀ c, c ∈ default [] (distributionConfig v') → externalId c = None)
    ∧ (∀ vid', vid' ≠ vid → videos db2 !! vid' = videos db !! vid').
Proof.
  intros Hv.
  destruct (markVideoAsProcessing_videos now db vid v cs date Hv) as (db1 & Hm & Hvs1).
  assert (Hl1 : videos db1 !! vid = Some
            (with_scheduledDate
               (with_distributionConfig
                  (with_platforms
                     (with_status v (if truthy_opt date then scheduled else published))
                     (Some (platform <$> cs)))
                  (Some cs))
               (if truthy_opt date then date else Some now)))
    by (rewrite Hvs1; apply lookup_insert_eq).
  destruct (cancelVideoScheduling_videos db1 vid _ Hl1) as (db2 & Hc & Hvs2).
  exists db1, db2. eexists. split; [exact Hm|]. split; [exact Hc|].
  split; [rewrite Hvs2; apply lookup_insert_eq|]. split; [reflexivity|].
  split; [intros c Hin; exact (stripExternalId_all _ _ Hin)|].
  intros vid' Hne. rewrite Hvs2, Hvs1.
  rewrite !lookup_insert_ne by congruence. reflexivity.
Qed.

(** The sample video scheduled on its first account with the remote id
    recorded, then cancelled. *)
Lemma distribute_then_cancel_witness :
  ∃ db1 db2 v',
    markVideoAsProcessing sampleNow approvedDb "v1"
      [with_externalId (ytEntry "acc1") (Some "yt-111")] (Some "2026-04-01T09:00:00.000Z")
    = Some db1
    ∧ cancelVideoScheduling db1 "v1" = Some db2
    ∧ videos db2 !! "v1" = Some v'
    ∧ status v' = approved ∧ scheduledDate v' = None
    ∧ platforms v' = Some [youtube]
    ∧ distributionConfig v' = Some [ytEntry "acc1"].
Proof.
  destruct (distribute_then_cancel sampleNow approvedDb "v1" approvedVideo
              [with_externalId (ytEntry "acc1") (Some "yt-111")]
              (Some "2026-04-01T09:00:00.000Z") eq_refl)
    as (db1 & db2 & v' & Hm & Hc & Hl & -> & _).
  exists db1, db2. eexists. split; [exact Hm|]. split; [exact Hc|].
  split; [exact Hl|]. repeat split.
Defined.

(** X16.  The calendar feed lists a video as soon as it has a schedule
    date or is scheduled or published.  A distributed video is on it,
    whether scheduled or published at once; after a cancel it is not;
    but after an unapprove, a dismiss or an approve of a video that
    carries a date it still is, as these leave the date in place. *)
Theorem calendar_feed (now : string) (db : Db) (vid : string) (v : VideoAsset)
    (cs : list DistributionConfig) (date : option string) (docs : list VideoAsset) :
  videos db !! vid = Some v →
  (∀ x, x ∈ subscribeToAllScheduledVideos docs
        ↔ x ∈ docs ∧ (truthy_opt (scheduledDate x) = true
                       ∨ status x = scheduled ∨ status x = published))
  ∧ (∃ db' v', markVideoAsProcessing now db vid cs date = Some db'
       ∧ videos db' !! vid = Some v'
       ∧ (v' ∈ docs → v' ∈ subscribeToAllScheduledVideos docs))
  ∧ (∃ db' v', cancelVideoScheduling db vid = Some db'
       ∧ videos db' !! vid = Some v'
       ∧ v' ∉ subscribeToAllScheduledVideos docs)
  ∧ (truthy_opt (scheduledDate v) = true →
     ∀ op, op ∈ [unapproveVideo; dismissVideo; approveVideo] →
       ∃ db' v', op db vid = Some db'
         ∧ videos db' !! vid = Some v'
         ∧ status v' ≠ scheduled ∧ status v' ≠ published
         ∧ (v' ∈ docs → v' ∈ subscribeToAllScheduledVideos docs)).
Proof.
  intros Hv.
  assert (Hfeed : ∀ x, x ∈ subscribeToAllScheduledVideos docs
            ↔ x ∈ docs ∧ (truthy_opt (scheduledDate x) = true
                           ∨ status x = scheduled ∨ status x = published)).
  { intros x. unfold subscribeToAllScheduledVideos. rewrite list_elem_of_filter. tauto. }
  split; [exact Hfeed|]. split.
  { destruct (markVideoAsProcessing_doc now db vid v cs date Hv) as (db' & Hm & Hl).
    exists db'. eexists. split; [exact Hm|]. split; [exact Hl|].
    intros Hin. apply Hfeed. split; [exact Hin|]. simpl.
    destruct (truthy_opt date); [right; left; reflexivity|right; right; reflexivity]. }
  split.
  { destruct (cancelVideoScheduling_doc db vid v Hv) as (db' & Hc & Hl).
    exists db'. eexists. split; [exact Hc|]. split; [exact Hl|].
    rewrite Hfeed. simpl. intros [_ [H|[H|H]]]; discriminate. }
  intros Hdate op Hop.
  assert (Hgen : ∀ s, s ≠ scheduled → s ≠ published →
            ∃ db' v', (db1 ← updateVideoDoc db vid (λ v, with_status v s);
                       Some (recalculateFor db1 vid)) = Some db'
              ∧ videos db' !! vid = Some v'
              ∧ status v' ≠ scheduled ∧ status v' ≠ published
              ∧ (v' ∈ docs → v' ∈ subscribeToAllScheduledVideos docs)).
  { intros s Hs1 Hs2. destruct (with_status_lookup db vid v s Hv) as (db1 & Hu & Hl).
    rewrite Hu. simpl. eexists _, _. split; [reflexivity|]. split; [exact Hl|].
    split; [exact Hs1|]. split; [exact Hs2|].
    intros Hin. apply Hfeed. split; [exact Hin|]. left. exact Hdate. }
  rewrite !elem_of_cons in Hop.
  destruct Hop as [-> | [-> | [-> | Hop]]]; [| | |inversion Hop].
  - apply Hgen; discriminate.
  - apply Hgen; discriminate.
  - apply Hgen; discriminate.
Qed.

(** The scheduled sample video, sent back to editing without a cancel:
    it is pending and still on the calendar. *)
Lemma calendar_feed_witness :
  ∃ db' v', unapproveVideo scheduledDb "v1" = Some db'
    ∧ videos db' !! "v1" = Some v'
    ∧ status v' = pending
    ∧ subscribeToAllScheduledVideos [v'] = [v'].
Proof.
  destruct (calendar_feed sampleNow scheduledDb "v1" scheduledVideo [] None
              [with_status scheduledVideo pending] eq_refl)
    as (_ & _ & _ & Hop).
  destruct (Hop eq_refl unapproveVideo) as (db' & v' & Hrun & Hl & _ & _ & _); [left|].
  exists db', v'. split; [exact Hrun|]. split; [exact Hl|].
  injection Hrun as <-. injection Hl as <-. split; reflexivity.
Defined.

(** ** More on cancelling and deleting *)

Lemma find_none_iff {A : Type} (f : A → bool) (l : list A) :
  find f l = None ↔ ∀ x, x ∈ l → f x = false.
Proof.
  induction l as [|a l IH]; simpl.
  - split; [intros _ x Hx; inversion Hx|reflexivity].
  - destruct (f a) eqn:Ha.
    + split; [discriminate|]. intros H. specialize (H a (list_elem_of_here _ _)). congruence.
    + rewrite IH. split.
      * intros H x Hx. apply elem_of_cons in Hx as [->|Hx]; [exact Ha|exact (H x Hx)].
      * intros H x Hx. apply H. right. exact Hx.
Qed.

Lemma recalculateProjectStats_idempotent (db : Db) (pid : string) :
  recalculateProjectStats (recalculateProjectStats db pid) pid
  = recalculateProjectStats db pid.
Proof.
  destruct (projects db !! pid) as [p|] eqn:Hp.
  - assert (H1 : recalculateProjectStats db pid
                 = {| videos := videos db;
                      projects :=
                        <[pid := {| projectName := projectName p;
                                    videoCount := total (computeStats (projectVideos db pid));
                                    stats := Some (computeStats (projectVideos db pid)) |}]>
                          (projects db) |})
      by (unfold recalculateProjectStats, updateProjectDoc; rewrite Hp; reflexivity).
    rewrite H1. unfold recalculateProjectStats at 1. unfold updateProjectDoc.
    cbn [projects]. rewrite lookup_insert_eq. cbn [mbind option_bind projectName videos].
    rewrite insert_insert_eq. reflexivity.
  - assert (H1 : recalculateProjectStats db pid = db)
      by (unfold recalculateProjectStats, updateProjectDoc; rewrite Hp; reflexivity).
    rewrite !H1. reflexivity.
Qed.

Lemma recalculateFor_idempotent (db : Db) (vid : string) :
  recalculateFor (recalculateFor db vid) vid = recalculateFor db vid.
Proof.
  unfold recalculateFor at 1. rewrite recalculateFor_videos.
  unfold recalculateFor.
  destruct (videos db !! vid) as [v|]; [|reflexivity].
  destruct (projectId v) as [pid|]; [|reflexivity].
  destruct (truthy_string pid); [|reflexivity].
  apply recalculateProjectStats_idempotent.
Qed.

Lemma stripExternalId_idempotent (cs : list DistributionConfig) :
  stripExternalId <$> (stripExternalId <$> cs) = stripExternalId <$> cs.
Proof. rewrite <- list_fmap_compose. reflexivity. Qed.

Section CancelMore.

Context {World : Type}.
Variable fetchDelete : World → string → string → World * Outcome (Z * string).
Variable getIntegrations : World → World * Outcome (list Integration).

(** X8.  The remote step of a cancellation makes no delete request
    unless a YouTube entry carries an external id and its account has
    a token.  Without such an entry (ids on Instagram or TikTok entries
    do not count) nothing at all is called; with one but no token for
    its account only the integrations are fetched; in both cases the
    local cleanup goes on.  When fetching the integrations throws, the
    remote step throws that error. *)
Theorem cancel_without_remote_delete (w : World) (db : Db) (st : CalendarState.State)
    (pv : VideoAsset) :
  CalendarState.previewVideo st = Some pv →
  ((∀ c, c ∈ default [] (distributionConfig pv) →
         platform c ≠ youtube ∨ truthy_opt (externalId c) = false) →
     deleteRemote fetchDelete getIntegrations w pv = (w, Returned ())
     ∧ onConfirmCancel fetchDelete getIntegrations w db st
       = match cancelVideoScheduling db (videoId pv) with
         | Some db' =>
             (w, db', {| CalendarState.previewVideo := None;
                         CalendarState.showCancelModal := false |}, Returned ())
         | None =>
             (w, db, {| CalendarState.previewVideo := Some pv;
                        CalendarState.showCancelModal := false |},
              Threw (ErrorMessage "No document to update"))
         end)
  ∧ (∀ cs c w1 integrations,
       distributionConfig pv = Some cs →
       find (λ c, bool_decide (platform c = youtube) && truthy_opt (externalId c)) cs = Some c →
       getIntegrations w = (w1, Returned integrations) →
       tokenFor integrations c = None →
       deleteRemote fetchDelete getIntegrations w pv = (w1, Returned ()))
  ∧ (∀ cs c w1 e,
       distributionConfig pv = Some cs →
       find (λ c, bool_decide (platform c = youtube) && truthy_opt (externalId c)) cs = Some c →
       getIntegrations w = (w1, Threw e) →
       deleteRemote fetchDelete getIntegrations w pv = (w1, Threw e)
       ∧ onConfirmCancel fetchDelete getIntegrations w db st
         = (w1, db, {| CalendarState.previewVideo := Some pv;
                       CalendarState.showCancelModal := false |}, Threw e)).
Proof.
  intros Hpv. split.
  { intros Hnone.
    assert (Hrem : deleteRemote fetchDelete getIntegrations w pv = (w, Returned ())).
    { unfold deleteRemote. destruct (distributionConfig pv) as [cs|]; [|reflexivity].
      simpl in Hnone.
      assert (Hf : find (λ c, bool_decide (platform c = youtube) && truthy_opt (externalId c)) cs
                   = None).
      { apply find_none_iff. intros c Hc. destruct (Hnone c Hc) as [Hp|He].
        - rewrite bool_decide_eq_false_2; [reflexivity|exact Hp].
        - rewrite He. apply andb_false_r. }
      rewrite Hf. reflexivity. }
    split; [exact Hrem|]. unfold onConfirmCancel. rewrite Hpv, Hrem. reflexivity. }
  split.
  { intros cs c w1 integrations Hcs Hfind Hint Htok.
    unfold deleteRemote. rewrite Hcs, Hfind, Hint, Htok. reflexivity. }
  intros cs c w1 e Hcs Hfind Hint.
  assert (Hrem : deleteRemote fetchDelete getIntegrations w pv = (w1, Threw e))
    by (unfold deleteRemote; rewrite Hcs, Hfind, Hint; reflexivity).
  split; [exact Hrem|]. unfold onConfirmCancel. rewrite Hpv, Hrem. reflexivity.
Qed.

(** X9.  Cancelling is idempotent on the store: a second cancel of the
    same video changes nothing.  And once a video was cancelled no
    remote deletion can be attempted for it again, as no stored entry
    carries an external id any more. *)
Theorem cancel_twice (db : Db) (vid : string) (v : VideoAsset) (w : World) :
  videos db !! vid = Some v →
  ∃ db1 v1,
    cancelVideoScheduling db vid = Some db1
    ∧ cancelVideoScheduling db1 vid = Some db1
    ∧ videos db1 !! vid = Some v1
    ∧ deleteRemote fetchDelete getIntegrations w v1 = (w, Returned ()).
Proof.
  intros Hv.
  assert (Hfirst : cancelVideoScheduling db vid
            = Some (recalculateFor
                      {| videos :=
                           <[vid := with_distributionConfig
                                      (with_scheduledDate (with_status v approved) None)
                                      (Some (stripExternalId <$> default [] (distributionConfig v)))]>
                             (videos db);
                         projects := projects db |} vid)).
  { rewrite cancelVideoScheduling_unfold, Hv, (updateVideoDoc_exists _ _ _ _ Hv).
    reflexivity. }
  set (db1 := recalculateFor _ vid) in Hfirst.
  set (v1 := with_distributionConfig (with_scheduledDate (with_status v approved) None)
               (Some (stripExternalId <$> default [] (distributionConfig v)))) in *.
  assert (Hl1 : videos db1 !! vid = Some v1).
  { subst db1. rewrite recalculateFor_videos. apply lookup_insert_eq. }
  exists db1, v1. split; [exact Hfirst|]. split; [|split; [exact Hl1|]].
  - rewrite cancelVideoScheduling_unfold, Hl1, (updateVideoDoc_exists _ _ _ _ Hl1).
    cbn [mbind option_bind]. f_equal.
    assert (Hsame : with_distributionConfig (with_scheduledDate (with_status v1 approved) None)
                      (Some (stripExternalId <$> default [] (distributionConfig v1))) = v1).
    { subst v1.
      pose (g := λ l, with_distributionConfig
                        (with_scheduledDate (with_status v approved) None) (Some l)).
      change (g (stripExternalId <$> (stripExternalId <$> default [] (distributionConfig v)))
              = g (stripExternalId <$> default [] (distributionConfig v))).
      f_equal. apply stripExternalId_idempotent. }
    rewrite Hsame, (insert_id _ _ _ Hl1).
    replace {| videos := videos db1; projects := projects db1 |} with db1
      by (destruct db1; reflexivity).
    subst db1. apply recalculateFor_idempotent.
  - unfold deleteRemote. subst v1. cbn [distributionConfig with_distributionConfig].
    assert (Hf : find (λ c, bool_decide (platform c = youtube) && truthy_opt (externalId c))
                   (stripExternalId <$> default [] (distributionConfig v)) = None).
    { apply find_none_iff. intros c Hc. rewrite (stripExternalId_all _ _ Hc).
      apply andb_false_r. }
    rewrite Hf. reflexivity.
Qed.

End CancelMore.

(** An Instagram entry with a remote id and no YouTube entry: the
    cancel records no call and still cleans up. *)
Lemma cancel_without_remote_delete_witness :
  let pv := with_scheduledDate
              (with_distributionConfig (with_status sampleVideo scheduled)
                 (Some [with_externalId (igEntry "ig1") (Some "ig-77")]))
              (Some "2026-04-01T09:00:00.000Z") in
  let db := {| videos := {[ "v1" := pv ]}; projects := {[ "p1" := sampleProject ]} |} in
  deleteRemote (sampleFetchDelete 500) sampleGetIntegrations [] pv = ([], Returned ())
  ∧ ∃ db', onConfirmCancel (sampleFetchDelete 500) sampleGetIntegrations [] db (previewing pv)
           = ([], db', {| CalendarState.previewVideo := None;
                          CalendarState.showCancelModal := false |}, Returned ())
      ∧ status <$> videos db' !! "v1" = Some approved.
Proof.
  intros pv db.
  destruct (cancel_without_remote_delete (sampleFetchDelete 500) sampleGetIntegrations
              [] db (previewing pv) pv eq_refl) as (Hnone & _).
  destruct Hnone as [Hrem Hrun].
  { intros c Hc. left. apply list_elem_of_singleton in Hc as ->. discriminate. }
  split; [exact Hrem|]. eexists. split; [rewrite Hrun; reflexivity|reflexivity].
Defined.

(** The scheduled sample video cancelled twice. *)
Lemma cancel_twice_witness :
  ∃ db1 v1,
    cancelVideoScheduling scheduledDb "v1" = Some db1
    ∧ cancelVideoScheduling db1 "v1" = Some db1
    ∧ videos db1 !! "v1" = Some v1
    ∧ deleteRemote (sampleFetchDelete 204) sampleGetIntegrations [] v1 = ([], Returned ()).
Proof.
  exact (cancel_twice (sampleFetchDelete 204) sampleGetIntegrations scheduledDb "v1"
           scheduledVideo [] eq_refl).
Defined.

Section DeleteVideo.

Context {World : Type}.
Variable deleteObject : World → string → World * Outcome unit.

(** X10.  Deleting a video removes its document and nothing else from
    the videos, whatever the file store answers (its errors are caught)
    and at most one file deletion is requested, only when a path is
    given.  When the video belonged to an existing project, that
    project's stats are recomputed and count one video less.  Deleting
    a video that is not in the store changes nothing. *)
Theorem delete_video (w : World) (db : Db) (vid : string) (path : option string) :
  videos (deleteVideo deleteObject w db vid path).2 !! vid = None
  ∧ (∀ vid', vid' ≠ vid →
       videos (deleteVideo deleteObject w db vid path).2 !! vid' = videos db !! vid')
  ∧ (deleteVideo deleteObject w db vid path).1
    = (if truthy_opt path then (deleteObject w (default "" path)).1 else w)
  ∧ (∀ other : World → string → World * Outcome unit,
       (deleteVideo other w db vid path).2 = (deleteVideo deleteObject w db vid path).2)
  ∧ (videos db !! vid = None → (deleteVideo deleteObject w db vid path).2 = db)
  ∧ (∀ v pid p, videos db !! vid = Some v → projectId v = Some pid →
       truthy_string pid = true → projects db !! pid = Some p →
       let db' := (deleteVideo deleteObject w db vid path).2 in
       projects db' !! pid
       = Some {| projectName := projectName p;
                 videoCount := length (projectVideos db' pid);
                 stats := Some (computeStats (projectVideos db' pid)) |}
       ∧ S (length (projectVideos db' pid)) = length (projectVideos db pid)).
Proof.
  unfold deleteVideo. cbn [fst snd].
  assert (Hvideos : ∀ pid0 : string,
            videos (if truthy_string pid0
                    then recalculateProjectStats
                           {| videos := delete vid (videos db); projects := projects db |} pid0
                    else {| videos := delete vid (videos db); projects := projects db |})
            = delete vid (videos db)).
  { intros pid0. destruct (truthy_string pid0); [|reflexivity].
    apply recalculateProjectStats_videos. }
  split; [rewrite Hvideos; apply lookup_delete_eq|].
  split; [intros vid' Hne; rewrite Hvideos; apply lookup_delete_ne; congruence|].
  split; [reflexivity|]. split; [reflexivity|]. split.
  - intros Hmiss. rewrite Hmiss. cbn [truthy_string].
    rewrite delete_id by exact Hmiss. destruct db; reflexivity.
  - intros v pid p Hv Hpid Ht Hp.
    rewrite Hv, Hpid. cbn [from_option id]. rewrite Ht.
    split; [apply recalculateProjectStats_fresh; exact Hp|].
    rewrite (projectVideos_videos _ _ pid (recalculateProjectStats_videos _ pid)).
    unfold projectVideos. cbn [videos].
    pose proof (map_to_list_delete (videos db) vid v Hv) as Hperm.
    rewrite <- Hperm. rewrite fmap_cons, filter_cons. cbn [snd].
    destruct (decide (projectId v = Some pid)); [reflexivity|contradiction].
Qed.

End DeleteVideo.

(** The published video of a two-video project deleted while the file
    store fails: the document is gone, the other one is untouched and
    the project counts one video. *)
Lemma delete_video_witness :
  let r := deleteVideo (sampleDeleteObject (Threw (ErrorMessage "storage/unauthorized")))
             [] twoVideoDb "v2" (Some "users/u1/videos/v2.mp4") in
  r.1 = ["remove users/u1/videos/v2.mp4"]
  ∧ videos r.2 !! "v2" = None
  ∧ videos r.2 !! "v1" = Some approvedVideo
  ∧ length (projectVideos twoVideoDb "p1") = 2
  ∧ length (projectVideos r.2 "p1") = 1.
Proof.
  intros r.
  destruct (delete_video (sampleDeleteObject (Threw (ErrorMessage "storage/unauthorized")))
              [] twoVideoDb "v2" (Some "users/u1/videos/v2.mp4"))
    as (Hgone & Hother & Hw & _ & _ & Hstats).
  destruct (Hstats publishedVideo "p1" sampleProject eq_refl eq_refl eq_refl eq_refl)
    as [_ Hlen].
  split; [exact Hw|]. split; [exact Hgone|].
  split; [refine (eq_trans (Hother "v1" _) _); [discriminate|reflexivity]|].
  split; [reflexivity|]. subst r. apply Nat.succ_inj. exact Hlen.
Defined.

(** ** The platform switch of the detail modal *)

Lemma filter_remove_appended (p : Platform) (ps : list Platform) :
  p ∉ ps → filter (λ q, q ≠ p) (ps ++ [p]) = ps.
Proof.
  intros Hnot. rewrite filter_app, filter_cons, filter_nil.
  destruct (decide (p ≠ p)) as [Hne|_]; [contradiction Hne; reflexivity|].
  rewrite app_nil_r. apply filter_keeps_all.
  intros q Hq ->. contradiction.
Qed.

(** X17.  Switching a platform on adds it once at the end of the
    selection (not at all when it is already there) and switching it
    off removes every occurrence; the other platforms keep their place,
    and the new selection is what is stored in [platforms].  The
    account entries are never touched: switching a platform off leaves
    its entries in the stored config, so the distribution modal still
    lists them.  On followed by off gives back the selection one
    started from when the platform was not in it. *)
Theorem toggle_platform (db : Db) (st : State) (p : Platform) (isActive : bool)
    (v : VideoAsset) :
  videos db !! videoId (localVideo st) = Some v →
  let r := togglePlatformActive db st p isActive in
  (p ∈ selectedPlatforms r.2 ↔ isActive = true)
  ∧ filter (λ q, q ≠ p) (selectedPlatforms r.2) = filter (λ q, q ≠ p) (selectedPlatforms st)
  ∧ (NoDup (selectedPlatforms st) → NoDup (selectedPlatforms r.2))
  ∧ (isActive = true →
     selectedPlatforms r.2
     = if includes (selectedPlatforms st) p then selectedPlatforms st
       else selectedPlatforms st ++ [p])
  ∧ videos r.1 = <[videoId (localVideo st) := with_platforms v (Some (selectedPlatforms r.2))]>
                   (videos db)
  ∧ projects r.1 = projects db
  ∧ localVideo r.2 = with_platforms (localVideo st) (Some (selectedPlatforms r.2))
  ∧ distributionConfigs r.2 = distributionConfigs st
  ∧ initialConfigs (with_platforms v (Some (selectedPlatforms r.2))) = initialConfigs v
  ∧ (p ∉ selectedPlatforms st →
     selectedPlatforms
       (togglePlatformActive (togglePlatformActive db st p true).1
          (togglePlatformActive db st p true).2 p false).2
     = selectedPlatforms st).
Proof.
  intros Hv r.
  assert (Hr : ∀ b, togglePlatformActive db st p b
               = let ps := if b then
                             if includes (selectedPlatforms st) p then selectedPlatforms st
                             else selectedPlatforms st ++ [p]
                           else filter (λ q, q ≠ p) (selectedPlatforms st) in
                 ({| videos := <[videoId (localVideo st) := with_platforms v (Some ps)]>
                                 (videos db);
                     projects := projects db |},
                  setLocalVideo (setSelectedPlatforms st ps)
                    (with_platforms (localVideo st) (Some ps)))).
  { intros b. unfold togglePlatformActive, updateVideoPlatforms.
    rewrite (updateVideoDoc_exists _ _ _ _ Hv). reflexivity. }
  assert (Hin : includes (selectedPlatforms st) p = true ↔ p ∈ selectedPlatforms st).
  { unfold includes. apply bool_decide_eq_true. }
  subst r. rewrite (Hr isActive). cbn [fst snd].
  cbn [setLocalVideo setSelectedPlatforms selectedPlatforms localVideo
       distributionConfigs videos projects].
  split.
  { destruct isActive.
    - split; [reflexivity|intros _].
      destruct (includes (selectedPlatforms st) p) eqn:E.
      + apply Hin. reflexivity.
      + apply elem_of_app. right. apply list_elem_of_singleton. reflexivity.
    - split; [|discriminate].
      intros Hp. apply list_elem_of_filter in Hp as [Hne _]. contradiction Hne. reflexivity. }
  split.
  { destruct isActive.
    - destruct (includes (selectedPlatforms st) p); [reflexivity|].
      rewrite filter_app, filter_cons, filter_nil.
      destruct (decide (p ≠ p)) as [Hne|_]; [contradiction Hne; reflexivity|].
      apply app_nil_r.
    - apply list_filter_filter_l. intros q Hq. exact Hq. }
  split.
  { intros Hnd. destruct isActive.
    - destruct (includes (selectedPlatforms st) p) eqn:E; [exact Hnd|].
      apply NoDup_app. split; [exact Hnd|]. split; [|apply NoDup_singleton].
      intros q Hq Hq'. apply list_elem_of_singleton in Hq' as ->.
      apply Hin in Hq. congruence.
    - apply NoDup_filter. exact Hnd. }
  split; [intros ->; reflexivity|].
  split; [reflexivity|]. split; [reflexivity|]. split; [reflexivity|].
  split; [reflexivity|]. split; [reflexivity|].
  intros Hnot. rewrite (Hr true). cbn [fst snd].
  assert (E : includes (selectedPlatforms st) p = false).
  { apply not_true_iff_false. intros E. apply Hin in E. contradiction. }
  rewrite E. unfold togglePlatformActive at 1.
  cbn [setLocalVideo setSelectedPlatforms selectedPlatforms localVideo videoId with_platforms].
  unfold updateVideoPlatforms, updateVideoDoc. cbn [videos].
  rewrite lookup_insert_eq. cbn [mbind option_bind snd setLocalVideo setSelectedPlatforms
                                 selectedPlatforms].
  apply filter_remove_appended. exact Hnot.
Qed.

(** Switching TikTok off on a video that has an Instagram and a TikTok
    entry. *)
Lemma toggle_platform_witness :
  let st := stateOf socialOnlyVideo [instagram; tiktok] [igEntry "ig1"] in
  let r := togglePlatformActive socialOnlyDb st tiktok false in
  selectedPlatforms r.2 = [instagram]
  ∧ ¬ (tiktok ∈ selectedPlatforms r.2)
  ∧ initialConfigs (with_platforms socialOnlyVideo (Some (selectedPlatforms r.2)))
    = initialConfigs socialOnlyVideo.
Proof.
  intros st r.
  destruct (toggle_platform socialOnlyDb st tiktok false socialOnlyVideo eq_refl)
    as (Hin & _ & _ & _ & _ & _ & _ & _ & Hcfg & _).
  split; [reflexivity|].
  split; [intros H; apply Hin in H; discriminate|exact Hcfg].
Defined.

(** ** Saving the form of a platform *)

Lemma fmap_fmap_same {A B : Type} (proj : A → B) (g : A → A) (l : list A) :
  (∀ x, proj (g x) = proj x) → proj <$> (g <$> l) = proj <$> l.
Proof.
  intros Hg. induction l as [|a l IH]; [reflexivity|].
  rewrite !fmap_cons, Hg, IH. reflexivity.
Qed.

Lemma mergeMetadata_idempotent (p : Platform) (old meta : ConfigMetadata) :
  mergeMetadata p (mergeMetadata p old meta) meta = mergeMetadata p old meta.
Proof. unfold mergeMetadata. destruct (decide (p = youtube)); reflexivity. Qed.

Lemma syncedConfigs_idempotent (st st' : State) (p : Platform) :
  distributionConfigs st' = syncedConfigs st p →
  seedMetadata st' p = seedMetadata st p →
  syncedConfigs st' p = syncedConfigs st p.
Proof.
  intros H1 H2. unfold syncedConfigs at 1. rewrite H1, H2. unfold syncedConfigs.
  induction (distributionConfigs st) as [|c l IH]; [reflexivity|].
  rewrite !fmap_cons. f_equal; [|exact IH].
  destruct (decide (platform c = p)) as [Hp|Hp].
  - cbn [platform with_metadata].
    destruct (decide (platform c = p)); [|contradiction].
    unfold with_metadata. cbn [platform accountId postType externalId metadata].
    rewrite mergeMetadata_idempotent. reflexivity.
  - destruct (decide (platform c = p)); [contradiction|reflexivity].
Qed.

Lemma syncedConfigs_other (st : State) (p : Platform) :
  filter (λ c, platform c ≠ p) (syncedConfigs st p)
  = filter (λ c, platform c ≠ p) (distributionConfigs st).
Proof.
  unfold syncedConfigs.
  induction (distributionConfigs st) as [|c l IH]; [reflexivity|].
  rewrite fmap_cons, !filter_cons, IH.
  destruct (decide (platform c = p)) as [Hp|Hp].
  - cbn [platform with_metadata].
    destruct (decide (platform c ≠ p)); [contradiction|reflexivity].
  - destruct (decide (platform c ≠ p)); [reflexivity|contradiction].
Qed.

Lemma handleSavePlatformData_exists (db : Db) (st : State) (p : Platform) (v : VideoAsset) :
  videos db !! videoId (localVideo st) = Some v →
  let f := λ v0 : VideoAsset,
    let v1 := if decide (p = youtube)
              then with_youtubeMetadata v0 (Some (safeYt st)) else v0 in
    let v2 := if decide (p = instagram)
              then with_instagramMetadata v1 (Some (igData st)) else v1 in
    if decide (p = tiktok) then with_tiktokMetadata v2 (Some (ttData st)) else v2 in
  handleSavePlatformData db st p
  = ({| videos := <[videoId (localVideo st)
                    := with_distributionConfig (f v) (Some (syncedConfigs st p))]> (videos db);
        projects := projects db |},
     setDistributionConfigs
       (setLocalVideo st (with_distributionConfig (f (localVideo st))
                            (Some (syncedConfigs st p))))
       (syncedConfigs st p)).
Proof.
  intros Hv f. subst f.
  unfold handleSavePlatformData, updateVideoMetadata, updateVideoDistributionConfig.
  rewrite (updateVideoDoc_exists _ _ _ _ Hv).
  unfold updateVideoDoc. cbn [videos projects].
  rewrite lookup_insert_eq. cbn [mbind option_bind].
  rewrite insert_insert_eq.
  destruct (decide (p = youtube)), (decide (p = instagram)), (decide (p = tiktok));
    reflexivity.
Qed.

(** X18.  Saving the form of a platform writes the form into the
    video's metadata container of that platform (none for Kwai and
    LinkedIn) and into every account entry of the platform, and stores
    the entries; the other containers and the entries of other
    platforms are left as they were, and no entry changes its account,
    sub-type or external id.  Entries of a platform other than YouTube
    and Instagram receive the TikTok caption.  Saving a second time
    changes nothing. *)
Theorem save_platform_data (db : Db) (st : State) (p : Platform) (v : VideoAsset) :
  videos db !! videoId (localVideo st) = Some v →
  let r := handleSavePlatformData db st p in
  let cs' := distributionConfigs r.2 in
  (∃ v', videos r.1 !! videoId (localVideo st) = Some v'
     ∧ distributionConfig v' = Some cs'
     ∧ distributionConfig (localVideo r.2) = Some cs'
     ∧ youtubeMetadata v'
       = (if decide (p = youtube) then Some (safeYt st) else youtubeMetadata v)
     ∧ instagramMetadata v'
       = (if decide (p = instagram) then Some (igData st) else instagramMetadata v)
     ∧ tiktokMetadata v'
       = (if decide (p = tiktok) then Some (ttData st) else tiktokMetadata v)
     ∧ status v' = status v ∧ platforms v' = platforms v
     ∧ scheduledDate v' = scheduledDate v ∧ projectId v' = projectId v)
  ∧ platform <$> cs' = platform <$> distributionConfigs st
  ∧ accountId <$> cs' = accountId <$> distributionConfigs st
  ∧ postType <$> cs' = postType <$> distributionConfigs st
  ∧ externalId <$> cs' = externalId <$> distributionConfigs st
  ∧ filter (λ c, platform c ≠ p) cs' = filter (λ c, platform c ≠ p) (distributionConfigs st)
  ∧ (∀ c, c ∈ cs' → platform c = p →
       caption (metadata c)
       = Some (if decide (p = youtube) then ytDescription (ytData st)
               else if decide (p = instagram) then socialCaption (igData st)
               else socialCaption (ttData st))
       ∧ (p = youtube →
          title (metadata c) = Some (ytTitle (ytData st))
          ∧ tags (metadata c) = Some (String.concat ", " (ytTags (ytData st)))
          ∧ categoryId (metadata c) = Some (ytCategoryId (ytData st))
          ∧ playlistId (metadata c) = or_null (ytPlaylistId (ytData st))))
  ∧ handleSavePlatformData r.1 r.2 p = r.
Proof.
  intros Hv r cs'.
  pose proof (handleSavePlatformData_exists db st p v Hv) as Hr. cbv zeta in Hr.
  assert (Hcs : cs' = syncedConfigs st p).
  { subst cs' r. rewrite Hr. reflexivity. }
  split.
  { eexists. split; [subst r; rewrite Hr; cbn [fst videos]; apply lookup_insert_eq|].
    rewrite Hcs. subst r. rewrite Hr. cbn [snd].
    destruct (decide (p = youtube)), (decide (p = instagram)), (decide (p = tiktok));
      repeat split. }
  rewrite Hcs. unfold syncedConfigs at 1 2 3 4.
  split; [apply fmap_fmap_same; intros c; destruct (decide (platform c = p)); reflexivity|].
  split; [apply fmap_fmap_same; intros c; destruct (decide (platform c = p)); reflexivity|].
  split; [apply fmap_fmap_same; intros c; destruct (decide (platform c = p)); reflexivity|].
  split; [apply fmap_fmap_same; intros c; destruct (decide (platform c = p)); reflexivity|].
  split; [apply syncedConfigs_other|].
  split.
  { intros c Hc Hp. unfold syncedConfigs in Hc.
    apply list_elem_of_fmap in Hc as (c0 & -> & _).
    destruct (decide (platform c0 = p)) as [_|Hn]; [|contradiction].
    cbn [metadata with_metadata]. unfold mergeMetadata, seedMetadata.
    destruct (decide (p = youtube)) as [Hy|Hy].
    - split; [reflexivity|]. intros _. repeat split.
    - split; [reflexivity|]. intros Hy'. contradiction. }
  subst r. rewrite Hr. cbn [fst snd].
  match goal with
  | |- handleSavePlatformData ?db2 ?st2 p = _ => set (d2 := db2); set (s2 := st2)
  end.
  assert (Hv2 : videos d2 !! videoId (localVideo s2)
                = Some (with_distributionConfig
                          (if decide (p = tiktok)
                           then with_tiktokMetadata
                                  (if decide (p = instagram)
                                   then with_instagramMetadata
                                          (if decide (p = youtube)
                                           then with_youtubeMetadata v (Some (safeYt st))
                                           else v) (Some (igData st))
                                   else if decide (p = youtube)
                                        then with_youtubeMetadata v (Some (safeYt st))
                                        else v) (Some (ttData st))
                           else if decide (p = instagram)
                                then with_instagramMetadata
                                       (if decide (p = youtube)
                                        then with_youtubeMetadata v (Some (safeYt st))
                                        else v) (Some (igData st))
                                else if decide (p = youtube)
                                     then with_youtubeMetadata v (Some (safeYt st))
                                     else v)
                          (Some (syncedConfigs st p)))).
  { subst d2 s2. cbn [videos].
    refine (eq_trans _ (lookup_insert_eq _ (videoId (localVideo st)) _)).
    f_equal.
    destruct (decide (p = youtube)), (decide (p = instagram)), (decide (p = tiktok));
      reflexivity. }
  rewrite (handleSavePlatformData_exists d2 s2 p _ Hv2). cbv zeta.
  assert (Hsync : syncedConfigs s2 p = syncedConfigs st p).
  { apply syncedConfigs_idempotent; reflexivity. }
  rewrite Hsync.
  assert (Hid : videoId (localVideo s2) = videoId (localVideo st)).
  { subst s2.
    destruct (decide (p = youtube)), (decide (p = instagram)), (decide (p = tiktok));
      reflexivity. }
  rewrite Hid. subst d2. cbn [videos projects].
  rewrite insert_insert_eq. subst s2.
  destruct (decide (p = youtube)), (decide (p = instagram)), (decide (p = tiktok));
    reflexivity.
Qed.

(** The Instagram form saved on a video with an Instagram and a YouTube
    entry. *)
Lemma save_platform_data_witness :
  let st := stateOf captionedVideo [instagram] [igEntry "ig1"; ytEntry "acc1"] in
  let r := handleSavePlatformData captionedDb st instagram in
  distributionConfigs r.2
  = [ {| platform := instagram; accountId := "ig1"; postType := reel; externalId := None;
         metadata :=
           {| title := None; caption := Some "Out now"; location := None;
              collaborators := None; tags := None; playlistId := None;
              categoryId := None; chapters := None; privacyStatus := None |} |};
      ytEntry "acc1" ]
  ∧ handleSavePlatformData r.1 r.2 instagram = r.
Proof.
  intros st r.
  destruct (save_platform_data captionedDb st instagram captionedVideo eq_refl)
    as (_ & _ & _ & _ & _ & _ & _ & Hidem).
  split; [reflexivity|exact Hidem].
Defined.

(** ** The sub-type a newly opened modal starts from *)

Lemma settingsPostType_set_other (s : PlatformSettings) (p q : Platform) (t : PostType) :
  q ≠ p → settingsPostType (setSettingsPostType s q t) p = settingsPostType s p.
Proof. intros Hne. destruct p, q; try reflexivity; contradiction. Qed.

(** The loop of the sync effect leaves for each platform the sub-type
    of its last entry. *)
Lemma fold_settings_last (cs : list DistributionConfig) : ∀ (s0 : PlatformSettings)
    (p : Platform),
  settingsPostType
    (fold_left (λ s c, setSettingsPostType s (platform c) (postType c)) cs s0) p
  = match last (filter (λ c, platform c = p) cs) with
    | Some c => postType c
    | None => settingsPostType s0 p
    end.
Proof.
  induction cs as [|c l IH]; intros s0 p; [reflexivity|].
  cbn [fold_left]. rewrite IH, filter_cons.
  destruct (decide (platform c = p)) as [Hp|Hp].
  - destruct (filter (λ c0, platform c0 = p) l) as [|c' fl].
    + cbn [last]. rewrite <- Hp. apply settingsPostType_set.
    + change (last (c :: c' :: fl)) with (last (c' :: fl)).
      destruct (last (c' :: fl)) eqn:E; [reflexivity|].
      apply last_None in E. discriminate E.
  - destruct (last (filter (λ c0, platform c0 = p) l)); [reflexivity|].
    apply settingsPostType_set_other. exact Hp.
Qed.

Lemma filter_retyped (p q : Platform) (t : PostType) (cs : list DistributionConfig) :
  filter (λ c, platform c = q)
    ((λ c, if decide (platform c = p) then with_postType c t else c) <$> cs)
  = (λ c, if decide (platform c = p) then with_postType c t else c)
      <$> filter (λ c, platform c = q) cs.
Proof.
  induction cs as [|c l IH]; [reflexivity|].
  rewrite fmap_cons, !filter_cons, IH.
  destruct (decide (platform c = p)) as [Hp|Hp].
  - cbn [platform with_postType].
    destruct (decide (platform c = q)); [|reflexivity].
    rewrite fmap_cons. destruct (decide (platform c = p)); [reflexivity|contradiction].
  - destruct (decide (platform c = q)); [|reflexivity].
    rewrite fmap_cons. destruct (decide (platform c = p)); [contradiction|reflexivity].
Qed.

Lemma retyped_last (p : Platform) (t : PostType) (l : list DistributionConfig) :
  l ≠ [] → Forall (λ c, platform c = p) l →
  ∃ c, last ((λ c, if decide (platform c = p) then with_postType c t else c) <$> l) = Some c
       ∧ postType c = t.
Proof.
  intros Hne Hall.
  destruct (proj2 (last_is_Some l) Hne) as [x Hx].
  apply last_Some in Hx as [l' ->].
  rewrite fmap_app, fmap_cons, fmap_nil, last_snoc.
  eexists. split; [reflexivity|].
  apply Forall_app in Hall as [_ Hx]. apply Forall_cons in Hx as [Hx _]. simpl in Hx.
  destruct (decide (platform x = p)); [reflexivity|contradiction].
Qed.

Lemma retyped_other (p q : Platform) (t : PostType) (cs : list DistributionConfig) :
  q ≠ p →
  (λ c, if decide (platform c = p) then with_postType c t else c)
    <$> filter (λ c, platform c = q) cs
  = filter (λ c, platform c = q) cs.
Proof.
  intros Hq. induction cs as [|c l IH]; [reflexivity|].
  rewrite filter_cons. destruct (decide (platform c = q)) as [Hc|Hc]; [|exact IH].
  rewrite fmap_cons, IH.
  destruct (decide (platform c = p)); [congruence|reflexivity].
Qed.

Lemma retyped_unchanged (p : Platform) (t : PostType) (cs : list DistributionConfig) :
  filter (λ c, platform c = p) cs = [] →
  (λ c, if decide (platform c = p) then with_postType c t else c) <$> cs = cs.
Proof.
  induction cs as [|c l IH]; [reflexivity|].
  rewrite filter_cons, fmap_cons.
  destruct (decide (platform c = p)); [discriminate|].
  intros H. rewrite (IH H). reflexivity.
Qed.

(** X19.  A sub-type chosen for a platform is shown at once, but it is
    kept only inside the account entries: a modal opened afresh on the
    stored video starts from the chosen sub-type when the platform had
    an entry, and from the built-in default when it had none.  The
    sub-types of the other platforms are not affected. *)
Theorem subtype_choice_reopened (db : Db) (st : State) (p : Platform) (t : PostType)
    (v : VideoAsset) :
  videos db !! videoId (localVideo st) = Some v →
  let r := updatePostTypeForPlatform db st p t in
  settingsPostType (platformSettings r.2) p = t
  ∧ (∀ q, q ≠ p →
       settingsPostType (platformSettings r.2) q = settingsPostType (platformSettings st) q)
  ∧ ∃ v', videos r.1 !! videoId (localVideo st) = Some v'
      ∧ distributionConfig v' = Some (distributionConfigs r.2)
      ∧ (getPlatformConfigs st p ≠ [] →
         settingsPostType (platformSettings (initialState v')) p = t)
      ∧ (getPlatformConfigs st p = [] →
         settingsPostType (platformSettings (initialState v')) p
         = settingsPostType (platformSettings (initialState (with_distributionConfig v None))) p)
      ∧ (∀ q, q ≠ p →
           settingsPostType (platformSettings (initialState v')) q
           = settingsPostType
               (platformSettings
                  (initialState (with_distributionConfig v (Some (distributionConfigs st))))) q).
Proof.
  intros Hv r.
  set (g := λ c : DistributionConfig,
              if decide (platform c = p) then with_postType c t else c).
  assert (Hr : r = ({| videos := <[videoId (localVideo st)
                                   := with_distributionConfig v
                                        (Some (g <$> distributionConfigs st))]> (videos db);
                       projects := projects db |},
                    setLocalVideo
                      (setDistributionConfigs
                         (setPlatformSettings st
                            (setSettingsPostType (platformSettings st) p t))
                         (g <$> distributionConfigs st))
                      (with_distributionConfig (localVideo st)
                         (Some (g <$> distributionConfigs st))))).
  { subst r. unfold updatePostTypeForPlatform, saveDistributionConfigs,
      updateVideoDistributionConfig.
    cbn [localVideo setPlatformSettings distributionConfigs].
    rewrite (updateVideoDoc_exists _ _ _ _ Hv). reflexivity. }
  rewrite Hr. cbn [fst snd platformSettings setLocalVideo setDistributionConfigs
                   setPlatformSettings distributionConfigs videos].
  split; [apply settingsPostType_set|].
  split; [intros q Hq; apply settingsPostType_set_other; congruence|].
  eexists. split; [apply lookup_insert_eq|].
  split; [reflexivity|].
  unfold initialState.
  cbn [platformSettings distributionConfig with_distributionConfig format default
       from_option id].
  split; [|split].
  - intros Hne. rewrite fold_settings_last. subst g. rewrite filter_retyped.
    destruct (retyped_last p t (getPlatformConfigs st p) Hne) as (c & Hc & Ht).
    { unfold getPlatformConfigs. apply Forall_forall. intros c Hc.
      apply list_elem_of_filter in Hc as [Hc _]. exact Hc. }
    unfold getPlatformConfigs in Hc. rewrite Hc. exact Ht.
  - intros Hnone. subst g. rewrite (retyped_unchanged p t _ Hnone).
    rewrite fold_settings_last.
    unfold getPlatformConfigs in Hnone. rewrite Hnone. reflexivity.
  - intros q Hq. rewrite !fold_settings_last. subst g. rewrite filter_retyped.
    rewrite (retyped_other p q t _ Hq). reflexivity.
Qed.

(** A story chosen for Instagram, which has an entry, and a long video
    chosen for YouTube, which has none, on the vertical sample video. *)
Lemma subtype_choice_reopened_witness :
  let st := stateWith [instagram] [igEntry "ig1"] in
  (∃ v', videos (updatePostTypeForPlatform sampleDb st instagram story).1 !! "v1" = Some v'
         ∧ settingsPostType (platformSettings (initialState v')) instagram = story)
  ∧ (∃ v', videos (updatePostTypeForPlatform sampleDb st youtube video).1 !! "v1" = Some v'
         ∧ settingsPostType
             (platformSettings (updatePostTypeForPlatform sampleDb st youtube video).2) youtube
           = video
         ∧ settingsPostType (platformSettings (initialState v')) youtube = shorts).
Proof.
  intros st. split.
  - destruct (subtype_choice_reopened sampleDb st instagram story sampleVideo eq_refl)
      as (_ & _ & v' & Hv' & _ & Hsome & _).
    exists v'. split; [exact Hv'|]. apply Hsome. intros H. vm_compute in H. discriminate H.
  - destruct (subtype_choice_reopened sampleDb st youtube video sampleVideo eq_refl)
      as (Hnow & _ & v' & Hv' & _ & _ & Hnone & _).
    exists v'. split; [exact Hv'|]. split; [exact Hnow|].
    rewrite Hnone; reflexivity.
Defined.

(** ** The project view and the stored stats *)

Lemma filter_length_zero {A : Type} (P : A → Prop) `{∀ x, Decision (P x)} (l : list A) :
  length (filter P l) = 0 ↔ ∀ x, x ∈ l → ¬ P x.
Proof.
  split.
  - intros Hlen x Hx HP.
    assert (Hin : x ∈ filter P l) by (apply list_elem_of_filter; split; assumption).
    destruct (filter P l); [inversion Hin|discriminate Hlen].
  - intros Hall. induction l as [|a l IH]; [reflexivity|].
    rewrite filter_cons. destruct (decide (P a)) as [HP|_].
    + exfalso. apply (Hall a); [left|exact HP].
    + apply IH. intros x Hx. apply Hall. right. exact Hx.
Qed.

(** X22.  The three lists of the project view have the sizes that the
    service stores in the project's stats: review, approved and
    discarded.  The lists are disjoint, and a video of the project is in
    none of them exactly when it is scheduled or published. *)
Theorem project_view_lists (vs : list VideoAsset) :
  length (videosPendingReview vs) = pendingReview (computeStats vs)
  ∧ length (videosApproved vs) = approvedCount (computeStats vs)
  ∧ length (videosDiscarded vs) = discarded (computeStats vs)
  ∧ length (videosPendingReview vs) + length (videosApproved vs)
    + length (videosDiscarded vs) + scheduledOrPublished (computeStats vs)
    = total (computeStats vs)
  ∧ (∀ v, v ∈ vs →
       (status v = scheduled ∨ status v = published)
       ↔ ¬ (v ∈ videosPendingReview vs) ∧ ¬ (v ∈ videosApproved vs)
         ∧ ¬ (v ∈ videosDiscarded vs))
  ∧ (∀ v, ¬ (v ∈ videosPendingReview vs ∧ v ∈ videosApproved vs)
          ∧ ¬ (v ∈ videosPendingReview vs ∧ v ∈ videosDiscarded vs)
          ∧ ¬ (v ∈ videosApproved vs ∧ v ∈ videosDiscarded vs)).
Proof.
  destruct (computeStats_counts vs) as (H1 & H2 & H3 & H4 & H5).
  assert (Hpend : videosPendingReview vs
                  = filter (λ v, status v ∉ [dismissed; scheduled; published; approved]) vs).
  { unfold videosPendingReview. apply list_filter_iff. intros v.
    rewrite !not_elem_of_cons. split.
    - intros (Ha & Hb & Hc & Hd). repeat split; try assumption. apply not_elem_of_nil.
    - intros (Ha & Hb & Hc & Hd & _). repeat split; assumption. }
  split; [rewrite Hpend; symmetry; exact H5|].
  split; [symmetry; exact H4|].
  split; [symmetry; exact H2|].
  split.
  { rewrite H1, H3, Hpend. unfold videosApproved, videosDiscarded.
    pose proof (status_buckets_cover vs) as Hc. lia. }
  split.
  - intros v Hv. unfold videosPendingReview, videosApproved, videosDiscarded.
    rewrite !list_elem_of_filter.
    destruct (status v) eqn:E; split; intros Hs;
      try (destruct Hs as [Hs|Hs]; discriminate Hs);
      try (left; reflexivity); try (right; reflexivity);
      try (repeat split; intros [Hx _]; try congruence;
           destruct Hx as (Ha & Hb & Hc & Hd); congruence);
      exfalso; destruct Hs as (Hp & Ha & Hd);
      first [ apply Ha; split; [reflexivity|exact Hv]
            | apply Hd; split; [reflexivity|exact Hv]
            | apply Hp; split; [|exact Hv]; repeat split; discriminate ].
  - intros v. unfold videosPendingReview, videosApproved, videosDiscarded.
    rewrite !list_elem_of_filter.
    split; [|split]; intros [[Hx _] [Hy _]].
    + destruct Hx as (Ha & _). contradiction.
    + destruct Hx as (_ & _ & _ & Hd). contradiction.
    + congruence.
Qed.

(** X21.  Once the stats of a project were recomputed, the project
    counts as resolved exactly when it has at least one video and each
    of its videos is scheduled, published or dismissed; an empty
    project is never resolved. *)
Theorem project_resolved (db : Db) (pid : string) (p : Project) :
  projects db !! pid = Some p →
  ∃ p', projects (recalculateProjectStats db pid) !! pid = Some p'
    ∧ (isProjectResolved p' = true
       ↔ projectVideos db pid ≠ []
         ∧ ∀ v, v ∈ projectVideos db pid →
             status v = scheduled ∨ status v = published ∨ status v = dismissed).
Proof.
  intros Hp. set (vs := projectVideos db pid).
  exists {| projectName := projectName p; videoCount := total (computeStats vs);
            stats := Some (computeStats vs) |}.
  split.
  { unfold recalculateProjectStats, updateProjectDoc. fold vs. rewrite Hp.
    cbn [mbind option_bind projects]. apply lookup_insert_eq. }
  unfold isProjectResolved. cbn [stats videoCount].
  destruct (computeStats_counts vs) as (H1 & _ & _ & H4 & H5). rewrite H1, H4, H5.
  destruct vs as [|v0 vs'] eqn:E.
  { cbn [length Nat.eqb]. split; [discriminate|]. intros [Hne _]. contradiction Hne.
    reflexivity. }
  rewrite <- E. replace (length vs) with (S (length vs')) by (rewrite E; reflexivity).
  cbn [Nat.eqb]. rewrite andb_true_iff, !Nat.eqb_eq, !filter_length_zero.
  split.
  - intros [Hpend Happ]. split; [rewrite E; discriminate|].
    intros v Hv. specialize (Hpend v Hv). specialize (Happ v Hv).
    destruct (status v) eqn:Es; try (exfalso; apply Happ; reflexivity);
      try (left; reflexivity); try (right; left; reflexivity);
      try (right; right; reflexivity);
      exfalso; apply Hpend; rewrite !not_elem_of_cons;
      repeat split; try discriminate; apply not_elem_of_nil.
  - intros [_ Hall]. split; intros v Hv; destruct (Hall v Hv) as [Hs|[Hs|Hs]];
      rewrite Hs; try discriminate; rewrite !not_elem_of_cons; intros (Ha & Hb & Hc & _);
      congruence.
Qed.

(** A project whose two videos are published and dismissed. *)
Lemma project_resolved_witness :
  ∃ p', projects (recalculateProjectStats resolvedDb "p1") !! "p1" = Some p'
        ∧ isProjectResolved p' = true.
Proof.
  destruct (project_resolved resolvedDb "p1" sampleProject eq_refl) as (p' & Hp' & Hiff).
  exists p'. split; [exact Hp'|]. apply Hiff.
  split; [intros H; vm_compute in H; discriminate H|].
  intros v Hv. apply projectVideos_spec in Hv as [[vid Hv] _].
  unfold resolvedDb in Hv. cbn [videos] in Hv.
  apply lookup_insert_Some in Hv as [[_ <-]|[_ Hv]]; [right; left; reflexivity|].
  apply lookup_singleton_Some in Hv as [_ <-]. right; right; reflexivity.
Defined.

(** ** Approval through the modal *)

(** X20.  Confirming the approval stores the entries of the modal and
    the status [approved] in one go, whether or not the readiness test
    holds at that moment, and closes the dialog; the stored platforms
    and date are not changed.  The project's stats are then fresh,
    count at least one approved video, and the project is not
    resolved. *)
Theorem confirm_approve_stores (db : Db) (st : State) (v : VideoAsset) :
  videos db !! videoId (localVideo st) = Some v →
  let r := confirmApprove db st in
  videos r.1
  = <[videoId (localVideo st)
      := with_status (with_distributionConfig v (Some (distributionConfigs st))) approved]>
      (videos db)
  ∧ showApproveModal r.2 = false
  ∧ status (localVideo r.2) = approved
  ∧ distributionConfig (localVideo r.2) = Some (distributionConfigs st)
  ∧ distributionConfigs r.2 = distributionConfigs st
  ∧ selectedPlatforms r.2 = selectedPlatforms st
  ∧ (∀ pid p, projectId v = Some pid → truthy_string pid = true →
       projects db !! pid = Some p →
       ∃ p', projects r.1 !! pid = Some p'
         ∧ p' = {| projectName := projectName p;
                   videoCount := length (projectVideos r.1 pid);
                   stats := Some (computeStats (projectVideos r.1 pid)) |}
         ∧ (1 ≤ approvedCount (computeStats (projectVideos r.1 pid)))%nat
         ∧ isProjectResolved p' = false).
Proof.
  intros Hv r.
  set (vid := videoId (localVideo st)) in *.
  set (v1 := with_distributionConfig v (Some (distributionConfigs st))).
  set (db1 := {| videos := <[vid := v1]> (videos db); projects := projects db |}).
  assert (Hv1 : videos db1 !! vid = Some v1) by apply lookup_insert_eq.
  destruct (update_then_recalculate db1 vid v1 (λ v0, with_status v0 approved) Hv1 eq_refl)
    as (db2 & Hop & Hvideos & Hfresh & _).
  assert (Hr : r = (db2, setShowApproveModal
                           (setLocalVideo st
                              (with_distributionConfig (with_status (localVideo st) approved)
                                 (Some (distributionConfigs st))))
                           false)).
  { subst r. unfold confirmApprove, updateVideoDistributionConfig. fold vid.
    rewrite (updateVideoDoc_exists _ _ _ _ Hv). fold v1. fold db1.
    unfold approveVideo. rewrite Hop. reflexivity. }
  rewrite Hr. cbn [fst snd].
  split.
  { rewrite Hvideos. subst db1. cbn [videos]. apply insert_insert_eq. }
  split; [reflexivity|]. split; [reflexivity|]. split; [reflexivity|].
  split; [reflexivity|]. split; [reflexivity|].
  intros pid p Hpid Ht Hp.
  pose proof (Hfresh pid p Hpid Ht Hp) as Hp'.
  eexists. split; [exact Hp'|]. split; [reflexivity|].
  assert (Hin : with_status v1 approved ∈ projectVideos db2 pid).
  { apply projectVideos_spec. split; [|exact Hpid].
    exists vid. rewrite Hvideos. apply lookup_insert_eq. }
  destruct (computeStats_counts (projectVideos db2 pid)) as (H1 & _ & _ & H4 & _).
  assert (Hpos : (1 ≤ approvedCount (computeStats (projectVideos db2 pid)))%nat).
  { rewrite H4.
    assert (Hf : with_status v1 approved
                 ∈ filter (λ v0, status v0 = approved) (projectVideos db2 pid)).
    { apply list_elem_of_filter. split; [reflexivity|exact Hin]. }
    destruct (filter (λ v0, status v0 = approved) (projectVideos db2 pid));
      [inversion Hf|cbn [length]; lia]. }
  split; [exact Hpos|].
  assert (Hlen : (1 ≤ length (projectVideos db2 pid))%nat).
  { destruct (projectVideos db2 pid); [inversion Hin|cbn [length]; lia]. }
  unfold isProjectResolved. cbn [stats videoCount]. rewrite H1.
  destruct (length (projectVideos db2 pid)) as [|m]; [lia|].
  cbn [Nat.eqb].
  destruct (approvedCount (computeStats (projectVideos db2 pid))) as [|n];
    [lia|]. cbn [Nat.eqb]. apply andb_false_r.
Qed.

(** The pending sample video approved with one YouTube entry while no
    platform is selected, so that the readiness test fails. *)
Lemma confirm_approve_stores_witness :
  let st := stateWith [] [ytEntry "acc1"] in
  let r := confirmApprove sampleDb st in
  isAllReady st = false
  ∧ videos r.1 !! "v1" = Some approvedVideo
  ∧ showApproveModal r.2 = false.
Proof.
  intros st r.
  destruct (confirm_approve_stores sampleDb st sampleVideo eq_refl)
    as (Hvideos & Hmodal & _).
  split; [reflexivity|]. split; [|exact Hmodal].
  subst r. rewrite Hvideos. apply lookup_insert_eq.
Defined.
